(** * TradeIland: the authenticated session controller

    A shallow embedding of [scraping/auth/session_manager.py], of
    [scraping/auth/authenticator.py] and of the environment overrides of
    [scraping/config/settings.py], with the properties of the session
    store (expiry, round trip, touch), of the login run (short circuit,
    candidate resolution, failure paths), of the navigation methods and
    of the overrides.

    The Python code talks to three things it does not own: the browser
    page (Playwright), the file system and the wall clock.  The browser is
    an arbitrary deterministic machine over a state type [W] (class
    [Browser]).  The file system is a finite map from paths to file
    contents, together with the set of paths that cannot be opened for
    writing and the paths that cannot be removed (class [Unlink]); a
    write opens the file, which empties it, and then prints the value
    piece by piece, so that a value [json] cannot print leaves a cut
    text behind.  The clock is an arbitrary sequence of readings, one
    consumed by each call of [datetime.now()].  Every call that reaches
    the page or the logger is recorded in a trace, so that statements
    such as "no field is filled" are statements about the events a run
    appends. *)

From Stdlib Require Import ZArith String List Bool Lia DecimalString DecimalZ.
From stdpp Require Import gmap strings list.

Set Warnings "-register-all".
Local Open Scope Z_scope.
Local Open Scope string_scope.
Local Open Scope list_scope.

(** ** Python values and exceptions *)

Module Py.

(** The values [json.dump] writes and [json.load] reads back: cookies as
    Playwright hands them over, and the session metadata.  A dict is an
    association list in insertion order, as [json.dump] prints it; a
    float is carried by its 64-bit pattern and never inspected. *)
Inductive pyval : Type :=
| PNone
| PBool (b : bool)
| PInt (n : Z)
| PFloat (bits : Z)
| PStr (s : string)
| PList (l : list pyval)
| PDict (d : list (string * pyval)).

(** The exceptions the modelled calls raise; [UnicodeEncodeError] is a
    [ValueError].  The last two derive from
    [BaseException] only: a bare [except:] catches them, [except
    Exception] does not. *)
Inductive exn : Type :=
| TimeoutError
| PlaywrightError (msg : string)
| FileNotFoundError
| PermissionError
| JSONDecodeError
| ValueError
| UnicodeEncodeError
| TypeError
| AttributeError
| OverflowError
| CancelledError
| KeyboardInterrupt.

Definition is_Exception (e : exn) : bool :=
  match e with
  | CancelledError | KeyboardInterrupt => false
  | _ => true
  end.

(** [d.get(key, default)] on an association list: the first binding. *)
Fixpoint assoc_get (d : list (string * pyval)) (key : string) : option pyval :=
  match d with
  | [] => None
  | (k, v) :: d' => if String.eqb k key then Some v else assoc_get d' key
  end.

(** [d[key] = v]: replaces the value in place when the key is bound,
    appends the binding otherwise (dicts keep insertion order). *)
Fixpoint assoc_set (d : list (string * pyval)) (key : string) (v : pyval)
  : list (string * pyval) :=
  match d with
  | [] => [(key, v)]
  | (k, x) :: d' =>
      if String.eqb k key then (k, v) :: d' else (k, x) :: assoc_set d' key v
  end.

(** [needle in haystack] on [str]. *)
Fixpoint contains (needle haystack : string) : bool :=
  String.prefix needle haystack ||
  match haystack with
  | EmptyString => false
  | String _ rest => contains needle rest
  end.

(** A [str] is kept as the bytes of its UTF-8 encoding.  A [str] can also
    hold a lone surrogate, which UTF-8 cannot: [json.load] reads one from
    the escape [\ud800], and writing it to a file opened with
    [encoding='utf-8'] raises [UnicodeEncodeError].  It is kept as the
    three bytes the [surrogatepass] handler gives it: ED, a byte from A0
    to BF, a continuation byte.  [encodable s]: no lone surrogate in [s]. *)
Definition surrogate_lead (a b : Ascii.ascii) : bool :=
  (N.eqb (Ascii.N_of_ascii a) 237 &&
   (N.leb 160 (Ascii.N_of_ascii b) && N.leb (Ascii.N_of_ascii b) 191))%bool.

Fixpoint encodable (s : string) : bool :=
  match s with
  | EmptyString => true
  | String a rest =>
      match rest with
      | String b _ => negb (surrogate_lead a b)
      | EmptyString => true
      end && encodable rest
  end.

(** [json.dump(v, f, ensure_ascii=False)] into a UTF-8 file goes through
    for a value read by [json.load] exactly when every text in it, the
    keys included, is encodable. *)
Fixpoint dumpable (v : pyval) : bool :=
  match v with
  | PStr s => encodable s
  | PList l => forallb dumpable l
  | PDict d => forallb (fun kv => encodable (fst kv) && dumpable (snd kv)) d
  | _ => true
  end.

(** What a caller can hand to [save_session], whose parameters are
    annotated and not checked: the objects [json.dump] tells apart.  A
    dict key is a [str], an [int], a [float] (kept as its [repr]), a
    [bool], [None], or any other hashable object; [OOther] is an object
    [json] cannot serialise (a set, bytes, a datetime), kept with its
    truth value.  A tuple is written as the list of its items. *)
Inductive pykey : Type :=
| KStr (s : string)
| KInt (n : Z)
| KFloat (repr : string)
| KBool (b : bool)
| KNone
| KOther.

Inductive pyobj : Type :=
| ONone
| OBool (b : bool)
| OInt (n : Z)
| OFloat (bits : Z)
| OStr (s : string)
| OList (l : list pyobj)
| ODict (d : list (pykey * pyobj))
| OOther (truth : bool).

(** [bool(o)] *)
Definition truthy (o : pyobj) : bool :=
  match o with
  | ONone => false
  | OBool b => b
  | OInt n => negb (n =? 0)%Z
  | OFloat bits => negb (bits =? 0)%Z && negb (bits =? 2 ^ 63)%Z
  | OStr s => negb (String.eqb s EmptyString)
  | OList l => match l with [] => false | _ => true end
  | ODict d => match d with [] => false | _ => true end
  | OOther truth => truth
  end.

(** [str(n)] *)
Definition decimal (n : Z) : string := NilZero.string_of_int (Z.to_int n).

(** The text [json] writes for a dict key: [TypeError] for a key that is
    none of the basic types, [UnicodeEncodeError] once a text that cannot
    be encoded reaches the file. *)
Definition key_text (k : pykey) : exn + string :=
  match k with
  | KStr s => if encodable s then inr s else inl UnicodeEncodeError
  | KInt n => inr (decimal n)
  | KFloat repr => inr repr
  | KBool true => inr "true"
  | KBool false => inr "false"
  | KNone => inr "null"
  | KOther => inl TypeError
  end.

(** [json.dump(o, f, ensure_ascii=False, indent=2)] into a UTF-8 file:
    the exception that ends it, the first one in the order of the text,
    or the value [json.load] reads back from the text written.  Keys
    come back as texts, and of two keys with one text the later one
    wins. *)
Fixpoint json_dump (o : pyobj) : exn + pyval :=
  match o with
  | ONone => inr PNone
  | OBool b => inr (PBool b)
  | OInt n => inr (PInt n)
  | OFloat bits => inr (PFloat bits)
  | OStr s => if encodable s then inr (PStr s) else inl UnicodeEncodeError
  | OList l =>
      match
        (fix items (l : list pyobj) : exn + list pyval :=
           match l with
           | [] => inr []
           | x :: l' =>
               match json_dump x with
               | inl e => inl e
               | inr v =>
                   match items l' with
                   | inl e => inl e
                   | inr vs => inr (v :: vs)
                   end
               end
           end) l
      with
      | inl e => inl e
      | inr vs => inr (PList vs)
      end
  | ODict d =>
      match
        (fix pairs (d : list (pykey * pyobj)) (acc : list (string * pyval))
           : exn + list (string * pyval) :=
           match d with
           | [] => inr acc
           | (k, x) :: d' =>
               match key_text k with
               | inl e => inl e
               | inr text =>
                   match json_dump x with
                   | inl e => inl e
                   | inr v => pairs d' (assoc_set acc text v)
                   end
               end
           end) d []
      with
      | inl e => inl e
      | inr pairs => inr (PDict pairs)
      end
  | OOther _ => inl TypeError
  end.

(** A value [json.load] returned, as the object it is. *)
Fixpoint of_json (v : pyval) : pyobj :=
  match v with
  | PNone => ONone
  | PBool b => OBool b
  | PInt n => OInt n
  | PFloat bits => OFloat bits
  | PStr s => OStr s
  | PList l => OList (map of_json l)
  | PDict d => ODict (map (fun kv => (KStr (fst kv), of_json (snd kv))) d)
  end.

End Py.
Export Py.

(** ** The libraries and the configuration the code reads *)

(** [datetime.isoformat] and [datetime.fromisoformat].  A naive datetime
    is its count of microseconds: [fromisoformat s] is the naive datetime
    the text [s] denotes.  An offset-aware datetime is kept as the text
    [isoformat] prints for it: [fromisoformat_aware s] is that text when
    [s] denotes an aware datetime.  On a text that denotes neither, the
    empty text among them, [datetime.fromisoformat] raises [ValueError].
    [isoformat] prints digits and punctuation. *)
Class IsoCodec : Type := {
  isoformat : Z -> string;
  fromisoformat : string -> option Z;
  fromisoformat_aware : string -> option string;
  fromisoformat_isoformat : forall t, fromisoformat (isoformat t) = Some t;
  fromisoformat_empty : fromisoformat EmptyString = None;
  fromisoformat_aware_empty : fromisoformat_aware EmptyString = None;
  isoformat_encodable : forall t, encodable (isoformat t) = true
}.

(** [json.dump] prints piece by piece: [dump_prefix o] is the text it has
    handed to the file when the exception of [json_dump o] ends it.  That
    text is the start of a JSON text, never a whole one. *)
Class JsonDump : Type := { dump_prefix : pyobj -> string }.

(** [unlink_refused path]: [Path.unlink] raises an [OSError] on [path]:
    [PermissionError] where the directory cannot be written or the file
    is protected, [IsADirectoryError] where the name is a directory's.
    The program catches both alike, as [Exception]; the model raises
    [PermissionError] for either. *)
Class Unlink : Type := { unlink_refused : string -> bool }.

(** The wall clock: [clock_reading n] is what the [n]-th call of
    [datetime.now()] returns. *)
Class Clock : Type := { clock_reading : nat -> Z }.

(** The fields of [settings] the two modules read. *)
Class Settings : Type := {
  login_url : string;        (* settings.target_site.login_url *)
  base_url : string;         (* settings.target_site.base_url *)
  session_timeout : Z        (* settings.auth.session_timeout, seconds *)
}.

(** An [ElementHandle]; always truthy. *)
Definition handle : Type := nat.

(** The Playwright page and browser context behind [self.page] and
    [self.context], as a machine over [W].  Every call may raise.  The
    cookies [context.cookies()] returns are JSON values that Playwright
    decoded from the UTF-8 stream of its driver: their texts can be
    encoded again. *)
Class Browser (W : Type) : Type := {
  page_goto : string -> W -> (exn + unit) * W;
  page_wait_for_load_state : string -> W -> (exn + unit) * W;
  page_url : W -> string;
  page_wait_for_selector : string -> Z -> W -> (exn + option handle) * W;
  element_fill : handle -> string -> W -> (exn + unit) * W;
  element_click : handle -> W -> (exn + unit) * W;
  context_cookies : W -> (exn + list pyval) * W;
  context_add_cookies : pyval -> W -> (exn + unit) * W;
  context_cookies_dumpable : forall w cookies w',
    context_cookies w = (inr cookies, w') -> dumpable (PList cookies) = true
}.

(** ** The world, the trace and the monad of statement blocks *)

Inductive loglevel : Type := INFO | ERROR.

Inductive event : Type :=
| EGoto (url : string)
| EWaitLoad (until : string)
| EProbe (selector : string) (timeout : Z)
| EFill (h : handle) (text : string)
| EClick (h : handle)
| ECookies
| EAddCookies (cookies : pyval)
| ELog (level : loglevel) (msg : string).

(** What a file holds: a text that [json.load] parses to a value, or any
    other text. *)
Inductive content : Type :=
| JsonText (v : pyval)
| BadText (raw : string).

Record state (W : Type) : Type := State {
  page : W;                          (* the browser *)
  files : gmap string content;       (* the files that exist *)
  locked : gset string;              (* paths [open(_, 'w')] refuses *)
  ticks : nat;                       (* calls of [datetime.now()] so far *)
  trace : list event                 (* oldest event first *)
}.
Arguments State {W}.
Arguments page {W}.
Arguments files {W}.
Arguments locked {W}.
Arguments ticks {W}.
Arguments trace {W}.

(** How a block of statements ends: it runs to its end with a value, it
    executes [return r], or it raises. *)
Inductive outcome (R A : Type) : Type :=
| Normal (a : A)
| Returned (r : R)
| Raised (e : exn).
Arguments Normal {R A}.
Arguments Returned {R A}.
Arguments Raised {R A}.

Definition block (W R A : Type) : Type := state W -> outcome R A * state W.

Section Monad.
Context {W : Type}.

Definition ret {R A} (a : A) : block W R A := fun s => (Normal a, s).

Definition bind {R A B} (m : block W R A) (k : A -> block W R B) : block W R B :=
  fun s =>
    match m s with
    | (Normal a, s') => k a s'
    | (Returned r, s') => (Returned r, s')
    | (Raised e, s') => (Raised e, s')
    end.

(** [return r] *)
Definition return_ {R A} (r : R) : block W R A := fun s => (Returned r, s).

(** [raise e] *)
Definition raise {R A} (e : exn) : block W R A := fun s => (Raised e, s).

(** [try: body / except Exception as e: handler e] *)
Definition try_except_Exception {R A} (body : block W R A)
    (handler : exn -> block W R A) : block W R A :=
  fun s =>
    match body s with
    | (Raised e, s') => if is_Exception e then handler e s' else (Raised e, s')
    | os => os
    end.

(** [try: body / except: handler] (the bare form catches everything) *)
Definition try_except {R A} (body : block W R A) (handler : block W R A)
  : block W R A :=
  fun s =>
    match body s with
    | (Raised _, s') => handler s'
    | os => os
    end.

(** A function body seen from its caller: [return r] and running off the
    end both hand a value back; an exception propagates. *)
Definition def {R A} (body : block W A A) : block W R A :=
  fun s =>
    match body s with
    | (Normal a, s') => (Normal a, s')
    | (Returned a, s') => (Normal a, s')
    | (Raised e, s') => (Raised e, s')
    end.

(** A call of the outside world, lifted to a block. *)
Definition lift {R A} (o : exn + A) : outcome R A :=
  match o with
  | inl e => Raised e
  | inr a => Normal a
  end.

End Monad.

Declare Scope block_scope.
Delimit Scope block_scope with block.
Notation "x <- m ;; k" := (bind m (fun x => k))
  (at level 100, m at next level, right associativity) : block_scope.
Notation "m ;; k" := (bind m (fun _ => k))
  (at level 100, right associativity) : block_scope.
Local Open Scope block_scope.

(** ** The calls the two modules make *)

(** A [datetime]: naive, by its count of microseconds since
    [datetime.min], or offset-aware, by its ISO text. *)
Inductive datetime : Type :=
| Naive (t : Z)
| Aware (text : string).

Section Primitives.
Context {W : Type} {BR : Browser W} {CK : Clock} {IC : IsoCodec} {ST : Settings}
  {JD : JsonDump} {UL : Unlink}.

Definition emit (e : event) (s : state W) : state W :=
  State (page s) (files s) (locked s) (ticks s) (trace s ++ [e]).

Definition set_page (w : W) (s : state W) : state W :=
  State w (files s) (locked s) (ticks s) (trace s).

Definition set_files (f : gmap string content) (s : state W) : state W :=
  State (page s) f (locked s) (ticks s) (trace s).

Definition tick (s : state W) : state W :=
  State (page s) (files s) (locked s) (S (ticks s)) (trace s).

(** [if c: m] *)
Definition when_ {R} (c : bool) (m : block W R unit) : block W R unit :=
  if c then m else ret tt.

(** [logger.info(msg, ...)] and [logger.error(msg, ...)]; the keyword
    fields of the structured log are not kept. *)
Definition log {R} (level : loglevel) (msg : string) : block W R unit :=
  fun s => (Normal tt, emit (ELog level msg) s).

(** A call on the page or the context: the event is recorded whether the
    call returns or raises. *)
Definition browser_call {R A} (e : event) (op : W -> (exn + A) * W)
  : block W R A :=
  fun s => let '(o, w) := op (page s) in (lift o, set_page w (emit e s)).

Definition goto {R} (url : string) : block W R unit :=
  browser_call (EGoto url) (page_goto url).

Definition wait_for_load_state {R} (until : string) : block W R unit :=
  browser_call (EWaitLoad until) (page_wait_for_load_state until).

Definition wait_for_selector {R} (selector : string) (timeout : Z)
  : block W R (option handle) :=
  browser_call (EProbe selector timeout) (page_wait_for_selector selector timeout).

Definition fill {R} (h : handle) (text : string) : block W R unit :=
  browser_call (EFill h text) (element_fill h text).

Definition click {R} (h : handle) : block W R unit :=
  browser_call (EClick h) (element_click h).

Definition cookies_ {R} : block W R (list pyval) :=
  browser_call ECookies context_cookies.

Definition add_cookies {R} (cookies : pyval) : block W R unit :=
  browser_call (EAddCookies cookies) (context_add_cookies cookies).

(** [self.page.url] *)
Definition url {R} : block W R string :=
  fun s => (Normal (page_url (page s)), s).

(** [path.exists()] *)
Definition path_exists {R} (path : string) : block W R bool :=
  fun s => (Normal (match files s !! path with Some _ => true | None => false end), s).

(** [with open(path, 'r', encoding='utf-8') as f: json.load(f)] *)
Definition read_json {R} (path : string) : block W R pyval :=
  fun s =>
    match files s !! path with
    | None => (Raised FileNotFoundError, s)
    | Some (JsonText v) => (Normal v, s)
    | Some (BadText _) => (Raised JSONDecodeError, s)
    end.

(** [with open(path, 'w', encoding='utf-8') as f: json.dump(o, f, ...)].
    Opening a locked path raises and leaves the file as it was.  Opening
    any other path empties the file; a [json.dump] that raises leaves in
    it the text written so far, which does not parse. *)
Definition write_object {R} (path : string) (o : pyobj) : block W R unit :=
  fun s =>
    if bool_decide (path ∈ locked s) then (Raised PermissionError, s)
    else
      match json_dump o with
      | inr v => (Normal tt, set_files (<[path := JsonText v]> (files s)) s)
      | inl e =>
          (Raised e, set_files (<[path := BadText (dump_prefix o)]> (files s)) s)
      end.

(** The same for a value that [json.load] or the browser returned: the
    text written denotes the value itself, and only a text that cannot be
    encoded stops the writing. *)
Definition write_json {R} (path : string) (v : pyval) : block W R unit :=
  fun s =>
    if bool_decide (path ∈ locked s) then (Raised PermissionError, s)
    else if dumpable v
    then (Normal tt, set_files (<[path := JsonText v]> (files s)) s)
    else (Raised UnicodeEncodeError,
          set_files (<[path := BadText (dump_prefix (of_json v))]> (files s)) s).

(** [path.unlink()] *)
Definition unlink {R} (path : string) : block W R unit :=
  fun s =>
    match files s !! path with
    | None => (Raised FileNotFoundError, s)
    | Some _ =>
        if unlink_refused path then (Raised PermissionError, s)
        else (Normal tt, set_files (delete path (files s)) s)
    end.

(** [datetime.now()]: a datetime is its count of microseconds since
    [datetime.min]. *)
Definition now {R} : block W R Z :=
  fun s => (Normal (clock_reading (ticks s)), tick s).

(** The microsecond count of [datetime.max], 9999-12-31T23:59:59.999999. *)
Definition MAX_US : Z := 315537897599999999.

(** [t + timedelta(seconds=n)]: [OverflowError] when the sum is no
    datetime. *)
Definition add_seconds {R} (t n : Z) : block W R Z :=
  let t' := t + n * 1000000 in
  if ((0 <=? t') && (t' <=? MAX_US))%Z then ret t' else raise OverflowError.

(** [v.get(key, default)]: only a dict has [get]. *)
Definition dict_get {R} (v : pyval) (key : string) (default : pyval)
  : block W R pyval :=
  match v with
  | PDict d => ret (match assoc_get d key with Some x => x | None => default end)
  | _ => raise AttributeError
  end.

(** [v[key] = x], the dict being rebuilt: item assignment with a string
    key is a [TypeError] on every other JSON value. *)
Definition dict_setitem {R} (v : pyval) (key : string) (x : pyval)
  : block W R pyval :=
  match v with
  | PDict d => ret (PDict (assoc_set d key x))
  | _ => raise TypeError
  end.

(** [datetime.fromisoformat(x)] *)
Definition datetime_fromisoformat {R} (x : pyval) : block W R datetime :=
  match x with
  | PStr s =>
      match fromisoformat s with
      | Some t => ret (Naive t)
      | None =>
          match fromisoformat_aware s with
          | Some text => ret (Aware text)
          | None => raise ValueError
          end
      end
  | _ => raise TypeError
  end.

(** [d.isoformat()] *)
Definition datetime_isoformat (d : datetime) : string :=
  match d with
  | Naive t => isoformat t
  | Aware text => text
  end.

(** [t > d] for the naive [t] that [datetime.now()] returned: a naive and
    an aware datetime cannot be compared. *)
Definition later_than {R} (t : Z) (d : datetime) : block W R bool :=
  match d with
  | Naive e => ret (e <? t)%Z
  | Aware _ => raise TypeError
  end.

(** [d - t] for the naive [t], in microseconds. *)
Definition time_until {R} (d : datetime) (t : Z) : block W R Z :=
  match d with
  | Naive e => ret (e - t)
  | Aware _ => raise TypeError
  end.

End Primitives.

(** ** scraping/auth/session_manager.py *)

Module SessionManager.
Section SessionManager.
Context {W : Type} {BR : Browser W} {CK : Clock} {IC : IsoCodec} {ST : Settings}
  {JD : JsonDump} {UL : Unlink}.

(** [self.session_dir / "cookies.json"] and
    [self.session_dir / "session_info.json"] *)
Definition cookies_file : string := "scraping/session/cookies.json".
Definition session_info_file : string := "scraping/session/session_info.json".

(** [user_info or {}] *)
Definition or_empty (user_info : pyobj) : pyobj :=
  if truthy user_info then user_info else ODict [].

(** The parameters are annotated [list] and [Optional[Dict]] and not
    checked: the caller's objects go to [json.dump] as they are. *)
Definition save_session {R} (cookies : pyobj) (user_info : pyobj)
  : block W R unit :=
  def (try_except_Exception
    (write_object cookies_file cookies ;;
     created_at <- now ;;
     t <- now ;;
     expires_at <- add_seconds t session_timeout ;;
     last_activity <- now ;;
     write_object session_info_file
       (ODict [(KStr "created_at", OStr (isoformat created_at));
               (KStr "expires_at", OStr (isoformat expires_at));
               (KStr "user_info", or_empty user_info);
               (KStr "last_activity", OStr (isoformat last_activity))]) ;;
     log INFO "セッション情報を保存しました")
    (fun e => log ERROR "セッション保存でエラー" ;; raise e)).

Definition is_session_valid {R} : block W R bool :=
  def (try_except_Exception
    (there <- path_exists session_info_file ;;
     when_ (negb there) (return_ false) ;;
     session_info <- read_json session_info_file ;;
     x <- dict_get session_info "expires_at" (PStr EmptyString) ;;
     expires_at <- datetime_fromisoformat x ;;
     t <- now ;;
     expired <- later_than t expires_at ;;
     if expired
     then log INFO "セッションが期限切れです" ;; return_ false
     else return_ true)
    (fun e => log ERROR "セッション有効性確認でエラー" ;; return_ false)).

Definition load_session {R} : block W R (option pyval) :=
  def (try_except_Exception
    (valid <- is_session_valid ;;
     when_ (negb valid) (return_ None) ;;
     has_cookies <- path_exists cookies_file ;;
     cookies <- (if has_cookies then read_json cookies_file else ret (PList [])) ;;
     has_info <- path_exists session_info_file ;;
     session_info <- (if has_info then read_json session_info_file else ret (PDict [])) ;;
     log INFO "セッション情報を読み込みました" ;;
     return_ (Some (PDict [("cookies", cookies); ("session_info", session_info)])))
    (fun e => log ERROR "セッション読み込みでエラー" ;; return_ None)).

Definition update_last_activity {R} : block W R unit :=
  def (try_except_Exception
    (there <- path_exists session_info_file ;;
     when_ (negb there) (return_ tt) ;;
     session_info <- read_json session_info_file ;;
     t <- now ;;
     session_info' <- dict_setitem session_info "last_activity" (PStr (isoformat t)) ;;
     write_json session_info_file session_info')
    (fun e => log ERROR "最終活動時刻更新でエラー")).

Definition clear_session {R} : block W R unit :=
  def (try_except_Exception
    (has_cookies <- path_exists cookies_file ;;
     when_ has_cookies (unlink cookies_file) ;;
     has_info <- path_exists session_info_file ;;
     when_ has_info (unlink session_info_file) ;;
     log INFO "セッション情報をクリアしました")
    (fun e => log ERROR "セッションクリアでエラー")).

(** The dict [get_session_status] returns: [{'is_valid': False, 'status':
    status}], [{'is_valid': False, 'status': 'error', 'error': str(e)}], or
    the active record.  [remaining_us] is [remaining_seconds] counted in
    microseconds. *)
Inductive session_status : Type :=
| StatusInvalid (status : string)
| StatusError (e : exn)
| StatusActive (created_at expires_at last_activity : string)
    (remaining_us : Z) (user_info : pyval).

Definition is_valid (st : session_status) : bool :=
  match st with
  | StatusActive _ _ _ _ _ => true
  | _ => false
  end.

Definition get_session_status {R} : block W R session_status :=
  def (try_except_Exception
    (valid <- is_session_valid ;;
     when_ (negb valid) (return_ (StatusInvalid "expired_or_missing")) ;;
     session_info <- read_json session_info_file ;;
     c <- dict_get session_info "created_at" (PStr EmptyString) ;;
     created_at <- datetime_fromisoformat c ;;
     x <- dict_get session_info "expires_at" (PStr EmptyString) ;;
     expires_at <- datetime_fromisoformat x ;;
     l <- dict_get session_info "last_activity" (PStr EmptyString) ;;
     last_activity <- datetime_fromisoformat l ;;
     t <- now ;;
     remaining_time <- time_until expires_at t ;;
     user_info <- dict_get session_info "user_info" (PDict []) ;;
     return_ (StatusActive (datetime_isoformat created_at)
                (datetime_isoformat expires_at)
                (datetime_isoformat last_activity)
                (Z.max 0 remaining_time) user_info))
    (fun e => log ERROR "セッション状態取得でエラー" ;; return_ (StatusError e))).

End SessionManager.
End SessionManager.

(** ** scraping/auth/authenticator.py *)

Module Authenticator.
Section Authenticator.
Context {W : Type} {BR : Browser W} {CK : Clock} {IC : IsoCodec} {ST : Settings}
  {JD : JsonDump} {UL : Unlink}.

(** [Path("scraping/session/cookies.json")]: the path of
    [SessionManager.cookies_file]. *)
Definition session_file : string := "scraping/session/cookies.json".

(** A double quote, and a text between double quotes. *)
Definition dq : string := String (Ascii.ascii_of_nat 34) EmptyString.
Definition quoted (s : string) : string := dq +:+ s +:+ dq.

Definition email_selectors : list string :=
  [ "input[type=" +:+ quoted "email" +:+ "]";
    "input[name*=" +:+ quoted "email" +:+ "]";
    "input[name*=" +:+ quoted "mail" +:+ "]";
    "input[id*=" +:+ quoted "email" +:+ "]";
    "input[id*=" +:+ quoted "mail" +:+ "]";
    "input[placeholder*=" +:+ quoted "メール" +:+ "]";
    "input[placeholder*=" +:+ quoted "email" +:+ "]" ].

Definition password_selectors : list string :=
  [ "input[type=" +:+ quoted "password" +:+ "]";
    "input[name*=" +:+ quoted "password" +:+ "]";
    "input[name*=" +:+ quoted "pass" +:+ "]";
    "input[id*=" +:+ quoted "password" +:+ "]";
    "input[id*=" +:+ quoted "pass" +:+ "]";
    "input[placeholder*=" +:+ quoted "パスワード" +:+ "]";
    "input[placeholder*=" +:+ quoted "password" +:+ "]" ].

Definition login_selectors : list string :=
  [ "button[type=" +:+ quoted "submit" +:+ "]";
    "input[type=" +:+ quoted "submit" +:+ "]";
    "button:has-text(" +:+ quoted "ログイン" +:+ ")";
    "button:has-text(" +:+ quoted "login" +:+ ")";
    "input[value*=" +:+ quoted "ログイン" +:+ "]";
    "input[value*=" +:+ quoted "login" +:+ "]";
    "[class*=" +:+ quoted "login" +:+ "] button";
    "[class*=" +:+ quoted "signin" +:+ "] button" ].

Definition login_indicators : list string :=
  [ "[href*=" +:+ quoted "logout" +:+ "]";
    "[class*=" +:+ quoted "user" +:+ "]";
    "[class*=" +:+ quoted "profile" +:+ "]";
    "text=" +:+ quoted "ユーザー検索";
    "text=" +:+ quoted "マイページ" ].

(** The candidate loop of [login], written three times there (lines
    105-112, 132-139, 160-167) over a variable that starts as [None]:
<<
    for selector in selectors:
        try:
            x = await self.page.wait_for_selector(selector, timeout=timeout)
            if x:
                break
        except:
            continue
>>
    The variable is still [None] whenever the loop goes on, so a raise,
    which skips the assignment, and a [None] result leave the same value. *)
Fixpoint first_match {R} (selectors : list string) (timeout : Z)
  : block W R (option handle) :=
  match selectors with
  | [] => ret None
  | selector :: rest =>
      x <- try_except (wait_for_selector selector timeout) (ret None) ;;
      match x with
      | Some h => ret (Some h)
      | None => first_match rest timeout
      end
  end.

(** The loop of [_is_logged_in] (lines 210-216): [return True] at the
    first indicator that resolves. *)
Fixpoint probe_indicators (indicators : list string) : block W bool unit :=
  match indicators with
  | [] => ret tt
  | indicator :: rest =>
      try_except
        (element <- wait_for_selector indicator 2000 ;;
         when_ (match element with Some _ => true | None => false end)
           (return_ true))
        (ret tt) ;;
      probe_indicators rest
  end.

Definition _is_logged_in {R} : block W R bool :=
  def (try_except_Exception
    (current_url <- url ;;
     when_ (negb (contains "/login" current_url) && contains base_url current_url)
       (return_ true) ;;
     probe_indicators login_indicators ;;
     return_ false)
    (fun e => log ERROR "ログイン状態確認でエラー" ;; return_ false)).

Definition _save_session {R} : block W R unit :=
  def (try_except_Exception
    (cookies <- cookies_ ;;
     write_json session_file (PList cookies) ;;
     log INFO "セッションを保存しました")
    (fun e => log ERROR "セッション保存でエラー")).

Definition _load_session {R} : block W R unit :=
  def (try_except_Exception
    (there <- path_exists session_file ;;
     when_ there
       (cookies <- read_json session_file ;;
        add_cookies cookies ;;
        log INFO "セッションを復元しました"))
    (fun e => log ERROR "セッション復元でエラー")).

(** [login], paragraph by paragraph.  Lines 82-87: open the login page
    and wait for it to settle. *)
Definition login_navigate : block W bool unit :=
  goto login_url ;;
  log INFO "ログインページにアクセス" ;;
  wait_for_load_state "networkidle".

(** Lines 89-92: already logged in. *)
Definition login_short_circuit : block W bool unit :=
  logged_in <- _is_logged_in ;;
  when_ logged_in (log INFO "既にログイン済みです" ;; return_ true).

(** Lines 94-119: find the e-mail field and fill it. *)
Definition login_fill_email (email : string) : block W bool unit :=
  email_input <- first_match email_selectors 2000 ;;
  match email_input with
  | None => log ERROR "メールアドレス入力欄が見つかりません" ;; return_ false
  | Some h => fill h email ;; log INFO "メールアドレスを入力"
  end.

(** Lines 121-146: find the password field and fill it. *)
Definition login_fill_password (password : string) : block W bool unit :=
  password_input <- first_match password_selectors 2000 ;;
  match password_input with
  | None => log ERROR "パスワード入力欄が見つかりません" ;; return_ false
  | Some h => fill h password ;; log INFO "パスワードを入力"
  end.

(** Lines 148-175: find the login button and click it. *)
Definition login_click_submit : block W bool unit :=
  login_button <- first_match login_selectors 2000 ;;
  match login_button with
  | None => log ERROR "ログインボタンが見つかりません" ;; return_ false
  | Some h => click h ;; log INFO "ログインボタンをクリック"
  end.

(** Lines 177-187: wait for the transition and check the result. *)
Definition login_verify : block W bool bool :=
  wait_for_load_state "networkidle" ;;
  logged_in <- _is_logged_in ;;
  if logged_in
  then log INFO "ログインに成功しました" ;; _save_session ;; return_ true
  else log ERROR "ログインに失敗しました" ;; return_ false.

Definition login {R} (email password : string) : block W R bool :=
  def (try_except_Exception
    (login_navigate ;;
     login_short_circuit ;;
     login_fill_email email ;;
     login_fill_password password ;;
     login_click_submit ;;
     login_verify)
    (fun e => log ERROR "ログイン処理でエラー" ;; return_ false)).

End Authenticator.
End Authenticator.

(** ** A concrete world for running the model *)

Module Fixture.

(** The ISO text is stood in for by the decimal print of the microsecond
    count: the model parses a timestamp or rejects it, and never looks at
    its letters. *)
Definition decimal_isoformat (t : Z) : string :=
  NilZero.string_of_int (Z.to_int t).

Definition decimal_fromisoformat (s : string) : option Z :=
  option_map Z.of_int (NilZero.int_of_string s).

(** A text behind the letter Z stands in for an offset-aware timestamp. *)
Definition decimal_fromisoformat_aware (s : string) : option string :=
  match s with
  | String a _ => if Ascii.eqb a (Ascii.ascii_of_nat 90) then Some s else None
  | EmptyString => None
  end.

(** A text of ASCII letters holds no surrogate. *)
Definition ascii_only (s : string) : bool :=
  forallb (fun a => N.ltb (Ascii.N_of_ascii a) 128) (list_ascii_of_string s).

Lemma ascii_only_encodable s : ascii_only s = true -> encodable s = true.
Proof.
  unfold ascii_only. induction s as [| a s IH]; simpl; [done |].
  intros [Ha Hs]%andb_true_iff. rewrite (IH Hs), andb_true_r.
  destruct s as [| b s]; [done |]. apply negb_true_iff.
  unfold surrogate_lead. apply andb_false_intro1. apply N.eqb_neq.
  apply N.ltb_lt in Ha. lia.
Qed.

Lemma string_of_uint_ascii u : ascii_only (NilZero.string_of_uint u) = true.
Proof.
  assert (forall d, ascii_only (NilEmpty.string_of_uint d) = true) as Hd.
  { induction d; unfold ascii_only in *; simpl; auto. }
  destruct u; try apply Hd. reflexivity.
Qed.

Lemma decimal_isoformat_encodable t : encodable (decimal_isoformat t) = true.
Proof.
  apply ascii_only_encodable. unfold decimal_isoformat.
  destruct (Z.to_int t) as [u | u]; simpl.
  - unfold NilZero.string_of_int. apply string_of_uint_ascii.
  - unfold NilZero.string_of_int. simpl. apply string_of_uint_ascii.
Qed.

#[refine] Definition codec : IsoCodec :=
  {| isoformat := decimal_isoformat; fromisoformat := decimal_fromisoformat;
     fromisoformat_aware := decimal_fromisoformat_aware;
     isoformat_encodable := decimal_isoformat_encodable |}.
Proof.
  intros t. unfold decimal_fromisoformat, decimal_isoformat.
  rewrite NilZero.isi.
  - simpl. f_equal. apply DecimalZ.of_to.
  - destruct t; simpl; try discriminate.
    intros E. injection E as E. exact (DecimalPos.Unsigned.to_uint_nonnil _ E).
  - destruct t; simpl; try discriminate.
    intros E. injection E as E. exact (DecimalPos.Unsigned.to_uint_nonnil _ E).
  - reflexivity.
  - reflexivity.
Defined.

(** A writer whose cut text is not kept, a directory that lets every file
    go and one that lets none go. *)
Definition writer : JsonDump := {| dump_prefix := fun _ => EmptyString |}.

Definition open_directory : Unlink := {| unlink_refused := fun _ => false |}.

Definition sealed_directory : Unlink := {| unlink_refused := fun _ => true |}.

(** A clock that starts at [t0] and advances by one microsecond from one
    reading to the next. *)
Definition stepping_clock (t0 : Z) : Clock :=
  {| clock_reading := fun n => (t0 + Z.of_nat n)%Z |}.

(** A clock that stands still. *)
Definition frozen_clock (t0 : Z) : Clock :=
  {| clock_reading := fun _ => t0 |}.

Definition site : Settings :=
  {| login_url := "https://www.trade-island.jp/login";
     base_url := "https://www.trade-island.jp";
     session_timeout := 3600 |}.

(** A scripted page: the selectors that match now, and the page a click
    leads to. *)
Record fake_page : Type := FakePage {
  fp_url : string;
  fp_dom : list string;
  fp_next_url : string;
  fp_next_dom : list string;
  fp_jar : list pyval;
  fp_offline : bool
}.

Fixpoint index_of (x : string) (l : list string) : option nat :=
  match l with
  | [] => None
  | y :: l' => if String.eqb x y then Some O else option_map S (index_of x l')
  end.

Lemma filter_dumpable (jar : list pyval) :
  dumpable (PList (List.filter dumpable jar)) = true.
Proof.
  simpl. apply forallb_forall. intros v Hv. by apply filter_In in Hv as [_ Hv].
Qed.

Lemma fake_cookies_dumpable (w : fake_page) (cookies : list pyval) (w' : fake_page) :
  (inr (List.filter dumpable (fp_jar w)) : exn + list pyval, w) = (inr cookies, w') ->
  dumpable (PList cookies) = true.
Proof. intros [= <- _]. apply filter_dumpable. Qed.

(** The cookies the scripted browser hands over are those of its jar
    whose texts can be encoded. *)
Definition fake_browser : Browser fake_page :=
  {| page_goto := fun u w =>
       if fp_offline w then (inl (PlaywrightError "net::ERR_INTERNET_DISCONNECTED"), w)
       else (inr tt, FakePage u (fp_dom w) (fp_next_url w) (fp_next_dom w)
                       (fp_jar w) (fp_offline w));
     page_wait_for_load_state := fun _ w => (inr tt, w);
     page_url := fp_url;
     page_wait_for_selector := fun sel _ w =>
       match index_of sel (fp_dom w) with
       | Some i => (inr (Some i), w)
       | None => (inl TimeoutError, w)
       end;
     element_fill := fun _ _ w => (inr tt, w);
     element_click := fun _ w =>
       (inr tt, FakePage (fp_next_url w) (fp_next_dom w) (fp_next_url w)
                  (fp_next_dom w) (fp_jar w) (fp_offline w));
     context_cookies := fun w => (inr (List.filter dumpable (fp_jar w)), w);
     context_add_cookies := fun c w =>
       match c with
       | PList l => (inr tt, FakePage (fp_url w) (fp_dom w) (fp_next_url w)
                               (fp_next_dom w) (fp_jar w ++ l) (fp_offline w))
       | _ => (inl (PlaywrightError "cookies: expected array"), w)
       end;
     context_cookies_dumpable := fake_cookies_dumpable |}.

(** A world with the given page and files, nothing locked, the clock
    unread and the trace empty. *)
Definition world (w : fake_page) (fs : gmap string content) : state fake_page :=
  State w fs ∅ O [].

Definition blank_page : fake_page :=
  FakePage "about:blank" [] "about:blank" [] [] false.

(** A login form with its three controls; submitting it leads to [next]. *)
Definition login_form (next_url : string) (next_dom : list string) : fake_page :=
  FakePage "about:blank"
    [ "input[name*=" +:+ Authenticator.quoted "mail" +:+ "]";
      "input[type=" +:+ Authenticator.quoted "password" +:+ "]";
      "button[type=" +:+ Authenticator.quoted "submit" +:+ "]" ]
    next_url next_dom [] false.

Definition sample_cookie : pyval :=
  PDict [("name", PStr "sid"); ("value", PStr "abc123");
         ("domain", PStr "www.trade-island.jp"); ("path", PStr "/");
         ("expires", PInt (-1)); ("httpOnly", PBool true);
         ("secure", PBool true)].

(** The worlds of the runs below. *)

Definition T0 : Z := 63900000000000000.

Definition clock : Clock := stepping_clock T0.

Definition login_page_url : string := "https://www.trade-island.jp/login".

(** A page that shows a logout link: the session is open. *)
Definition member_page : fake_page :=
  FakePage "about:blank" [ "[href*=" +:+ Authenticator.quoted "logout" +:+ "]" ]
    "about:blank" [] [] false.

(** A login form that comes back after the submission. *)
Definition rejecting_form : fake_page := login_form login_page_url [].

(** A login page with an e-mail field and nothing else. *)
Definition email_only_page : fake_page :=
  FakePage "about:blank"
    [ "input[type=" +:+ Authenticator.quoted "email" +:+ "]" ]
    "about:blank" [] [] false.

(** Metadata written at [T0] with the timeout of [site]. *)
Definition fresh_metadata : pyval :=
  PDict [("created_at", PStr (decimal_isoformat T0));
         ("expires_at", PStr (decimal_isoformat (T0 + 3600 * 1000000)));
         ("user_info", PDict []);
         ("last_activity", PStr (decimal_isoformat T0))].

(** Metadata whose expiry is one second before [T0]. *)
Definition stale_metadata : pyval :=
  PDict [("created_at", PStr (decimal_isoformat (T0 - 3601 * 1000000)));
         ("expires_at", PStr (decimal_isoformat (T0 - 1000000)));
         ("user_info", PDict []);
         ("last_activity", PStr (decimal_isoformat (T0 - 3601 * 1000000)))].

Definition cookies_only : gmap string content :=
  {[ SessionManager.cookies_file := JsonText (PList [sample_cookie]) ]}.

Definition fresh_with_bad_cookies : gmap string content :=
  <[ SessionManager.cookies_file := BadText "<html>" ]>
    {[ SessionManager.session_info_file := JsonText fresh_metadata ]}.

Definition fresh_session : gmap string content :=
  <[ SessionManager.cookies_file := JsonText (PList [sample_cookie]) ]>
    {[ SessionManager.session_info_file := JsonText fresh_metadata ]}.

Definition stale_session : gmap string content :=
  <[ SessionManager.cookies_file := JsonText (PList [sample_cookie]) ]>
    {[ SessionManager.session_info_file := JsonText stale_metadata ]}.


End Fixture.

(** ** scraping/auth/authenticator.py: the navigation methods *)

(** [ElementHandle.press], which only [search_user_by_nickname] calls.
    The events of the trace have no key press among them: a press shows
    in the page it leaves, not in the trace. *)
Class Keyboard (W : Type) : Type := {
  element_press : handle -> string -> W -> (exn + unit) * W
}.

Module Navigation.
Section Navigation.
Context {W : Type} {BR : Browser W} {KB : Keyboard W}.
Import Authenticator.

Definition press {R} (h : handle) (key : string) : block W R unit :=
  fun s => let '(o, w) := element_press h key (page s) in (lift o, set_page w s).

(** The loop of [navigate_to_user_search] (lines 257-266) and of
    [click_user_profile] (lines 348-357):
<<
    for selector in selectors:
        try:
            element = await self.page.wait_for_selector(selector, timeout=timeout)
            if element:
                await element.click()
                await self.page.wait_for_load_state('networkidle')
                logger.info(msg, ...)
                return True
        except:
            continue
>> *)
Fixpoint click_first (selectors : list string) (timeout : Z) (msg : string)
  : block W bool unit :=
  match selectors with
  | [] => ret tt
  | selector :: rest =>
      try_except
        (element <- wait_for_selector selector timeout ;;
         match element with
         | Some h =>
             click h ;;
             wait_for_load_state "networkidle" ;;
             log INFO msg ;;
             return_ true
         | None => ret tt
         end)
        (ret tt) ;;
      click_first rest timeout msg
  end.

Definition user_search_selectors : list string :=
  [ "text=" +:+ quoted "ユーザー検索";
    "[href*=" +:+ quoted "user" +:+ "]";
    "[href*=" +:+ quoted "search" +:+ "]";
    "a:has-text(" +:+ quoted "ユーザー検索" +:+ ")";
    "button:has-text(" +:+ quoted "ユーザー検索" +:+ ")" ].

Definition navigate_to_user_search {R} : block W R bool :=
  def (try_except_Exception
    (click_first user_search_selectors 5000 "ユーザー検索タブに移動しました" ;;
     log ERROR "ユーザー検索タブが見つかりません" ;;
     return_ false)
    (fun e => log ERROR "ユーザー検索タブ移動でエラー" ;; return_ false)).

Definition user_selectors (nickname : string) : list string :=
  [ "a:has-text(" +:+ quoted nickname +:+ ")";
    "[href*=" +:+ quoted nickname +:+ "]";
    "text=" +:+ quoted nickname;
    ".user-item a";
    ".search-result a" ].

Definition click_user_profile {R} (nickname : string) : block W R bool :=
  def (try_except_Exception
    (click_first (user_selectors nickname) 3000 "ユーザープロフィールに移動" ;;
     log ERROR "ユーザープロフィールリンクが見つかりません" ;;
     return_ false)
    (fun e => log ERROR "ユーザープロフィール移動でエラー" ;; return_ false)).

Definition search_input_selectors : list string :=
  [ "input[placeholder*=" +:+ quoted "ニックネーム" +:+ "]";
    "input[placeholder*=" +:+ quoted "nickname" +:+ "]";
    "input[name*=" +:+ quoted "nickname" +:+ "]";
    "input[name*=" +:+ quoted "search" +:+ "]";
    "input[type=" +:+ quoted "search" +:+ "]";
    "input[class*=" +:+ quoted "search" +:+ "]" ].

Definition search_button_selectors : list string :=
  [ "button:has-text(" +:+ quoted "検索" +:+ ")";
    "button[type=" +:+ quoted "submit" +:+ "]";
    "input[type=" +:+ quoted "submit" +:+ "]" ].

Definition search_user_by_nickname {R} (nickname : string) : block W R bool :=
  def (try_except_Exception
    (search_input <- first_match search_input_selectors 3000 ;;
     match search_input with
     | None => log ERROR "検索入力欄が見つかりません" ;; return_ false
     | Some input =>
         fill input nickname ;;
         log INFO "ニックネームを入力" ;;
         search_button <- first_match search_button_selectors 2000 ;;
         match search_button with
         | Some button => click button
         | None => press input "Enter"
         end ;;
         wait_for_load_state "networkidle" ;;
         log INFO "ユーザー検索を実行しました" ;;
         return_ true
     end)
    (fun e => log ERROR "ユーザー検索でエラー" ;; return_ false)).

End Navigation.
End Navigation.

(** ** More scripted pages *)

Module Pages.
Import Fixture.

(** The key press of the scripted page: [Enter] leads where a click
    leads, any other key changes nothing. *)
Definition fake_keyboard : Keyboard fake_page :=
  {| element_press := fun _ key w =>
       if String.eqb key "Enter"
       then (inr tt, FakePage (fp_next_url w) (fp_next_dom w) (fp_next_url w)
                       (fp_next_dom w) (fp_jar w) (fp_offline w))
       else (inr tt, w) |}.

Lemma no_cookies_dumpable (w : unit) (cookies : list pyval) (w' : unit) :
  (inr [] : exn + list pyval, w) = (inr cookies, w') ->
  dumpable (PList cookies) = true.
Proof. by intros [= <- _]. Qed.

(** A page on which every selector resolves, as handle [7], and every
    click is cancelled. *)
Definition refusing_browser : Browser unit :=
  {| page_goto := fun _ w => (inr tt, w);
     page_wait_for_load_state := fun _ w => (inr tt, w);
     page_url := fun _ => "about:blank";
     page_wait_for_selector := fun _ _ w => (inr (Some 7%nat), w);
     element_fill := fun _ _ w => (inr tt, w);
     element_click := fun _ w => (inl CancelledError, w);
     context_cookies := fun w => (inr [], w);
     context_add_cookies := fun _ w => (inr tt, w);
     context_cookies_dumpable := no_cookies_dumpable |}.

Definition no_keyboard : Keyboard unit :=
  {| element_press := fun _ _ w => (inr tt, w) |}.

(** The member area with a link to the user search. *)
Definition member_home : fake_page :=
  FakePage "https://www.trade-island.jp/home"
    [ "[href*=" +:+ Authenticator.quoted "search" +:+ "]" ]
    "https://www.trade-island.jp/users" [] [] false.

(** A search page with an input and no button. *)
Definition search_page : fake_page :=
  FakePage "https://www.trade-island.jp/users"
    [ "input[name*=" +:+ Authenticator.quoted "nickname" +:+ "]" ]
    "https://www.trade-island.jp/users?q=taro" [] [] false.

(** A page whose browser holds one cookie. *)
Definition page_with_cookie : fake_page :=
  FakePage "about:blank" [] "about:blank" [] [sample_cookie] false.

(** A login form that leads to the member area, with one cookie set. *)
Definition accepting_form : fake_page :=
  FakePage "about:blank"
    [ "input[name*=" +:+ Authenticator.quoted "mail" +:+ "]";
      "input[type=" +:+ Authenticator.quoted "password" +:+ "]";
      "button[type=" +:+ Authenticator.quoted "submit" +:+ "]" ]
    "https://www.trade-island.jp/home" [] [sample_cookie] false.

(** A login form without a button. *)
Definition form_without_button : fake_page :=
  FakePage "about:blank"
    [ "input[name*=" +:+ Authenticator.quoted "mail" +:+ "]";
      "input[type=" +:+ Authenticator.quoted "password" +:+ "]" ]
    "about:blank" [] [] false.

(** Metadata with an expiry and nothing else. *)
Definition expiry_only : gmap string content :=
  {[ SessionManager.session_info_file :=
       JsonText (PDict [("expires_at",
                         PStr (decimal_isoformat (T0 + 3600 * 1000000)))]) ]}.

(** Metadata whose creation time carries a UTC offset. *)
Definition aware_creation : gmap string content :=
  {[ SessionManager.session_info_file :=
       JsonText (PDict [("created_at", PStr "Z2024-01-01T00:00:00+09:00");
                        ("expires_at",
                         PStr (decimal_isoformat (T0 + 3600 * 1000000)));
                        ("last_activity", PStr (decimal_isoformat T0))]) ]}.

(** A page the browser cannot reach. *)
Definition offline_page : fake_page :=
  FakePage "about:blank" [] "about:blank" [] [] true.

(** A cookie file that is no JSON. *)
Definition bad_cookie_file : gmap string content :=
  {[ SessionManager.cookies_file := BadText "<html>" ]}.

(** A metadata file that is no JSON. *)
Definition bad_metadata : gmap string content :=
  {[ SessionManager.session_info_file := BadText "<html>" ]}.

(** Other cookies than [sample_cookie]. *)
Definition other_cookie : pyval :=
  PDict [("name", PStr "sid"); ("value", PStr "xyz789")].

(** A world where the metadata file cannot be opened for writing. *)
Definition metadata_locked (fs : gmap string content) : state fake_page :=
  State blank_page fs {[ SessionManager.session_info_file ]} O [].

(** A world where the cookie file cannot be opened for writing. *)
Definition cookies_locked (w : fake_page) : state fake_page :=
  State w ∅ {[ SessionManager.cookies_file ]} O [].

End Pages.

(** ** The configuration file and the environment *)

(** [Settings._override_with_env_vars] of [scraping/config/settings.py].
    The configuration is the value [yaml.safe_load] returned, a [pyval];
    the method changes it in place, so the model returns the
    configuration it leaves beside the outcome.  The environment is a
    finite map from variable names to their texts, [os.getenv] its
    lookup.  Here two sections of the configuration are distinct
    objects, as they are in a file without YAML aliases, and the
    configuration is the tree of its values; [SettingsObjects] below has
    the dicts as the objects they are. *)
Module SettingsFile.

Definition environ : Type := gmap string string.

Definition env_mappings : list (string * list string) :=
  [ ("SCRAPING_USERNAME", ["auth"; "username"]);
    ("SCRAPING_PASSWORD", ["auth"; "password"]);
    ("TARGET_SITE_BASE_URL", ["target_site"; "base_url"]);
    ("TARGET_SITE_LOGIN_URL", ["target_site"; "login_url"]);
    ("TARGET_SITE_DATA_URL", ["target_site"; "data_url"]);
    ("LOG_LEVEL", ["logging"; "level"]);
    ("OUTPUT_DIR", ["export"; "output_dir"]);
    ("BROWSER_HEADLESS", ["scraping"; "browser"; "headless"]) ].

(** [str.lower] on the letters A to Z.  No other character has one of
    the letters of [true] as its lower case, so the comparison below
    answers as Python's does on every text. *)
Definition lower_char (c : Ascii.ascii) : Ascii.ascii :=
  let n := Ascii.nat_of_ascii c in
  if ((65 <=? n) && (n <=? 90))%nat then Ascii.ascii_of_nat (n + 32) else c.

Fixpoint lower (s : string) : string :=
  match s with
  | EmptyString => EmptyString
  | String c rest => String (lower_char c) (lower rest)
  end.

(** The descent and the assignment:
<<
    current = config
    for key in config_path[:-1]:
        current = current.setdefault(key, {})
    current[config_path[-1]] = value
>>
    [setdefault] on something that is no dict raises [AttributeError],
    the assignment on something that is no dict raises [TypeError].  A
    section that is missing is created empty and then filled, so the walk
    fails only where every section before was there already: a failure
    leaves the configuration as it was. *)
Fixpoint set_nested (current : pyval) (keys : list string) (last_key : string)
    (value : pyval) : exn + pyval :=
  match keys with
  | [] =>
      match current with
      | PDict d => inr (PDict (assoc_set d last_key value))
      | _ => inl TypeError
      end
  | key :: keys' =>
      match current with
      | PDict d =>
          let child := match assoc_get d key with
                       | Some c => c
                       | None => PDict []
                       end in
          match set_nested child keys' last_key value with
          | inr child' => inr (PDict (assoc_set d key child'))
          | inl e => inl e
          end
      | _ => inl AttributeError
      end
  end.

(** The type conversion: [value.lower() == "true"] for the headless flag,
    the text itself for every other variable. *)
Definition converted (env_var value : string) : pyval :=
  if String.eqb env_var "BROWSER_HEADLESS"
  then PBool (String.eqb (lower value) "true")
  else PStr value.

(** The loop over the mapping, in its order; the first exception ends
    it, with the variables before it already applied.  Every path of the
    mapping has a last key. *)
Fixpoint override_each (env : environ) (mappings : list (string * list string))
    (config : pyval) : (exn + unit) * pyval :=
  match mappings with
  | [] => (inr tt, config)
  | (env_var, config_path) :: rest =>
      match env !! env_var with
      | None => override_each env rest config
      | Some value =>
          match set_nested config (removelast config_path)
                  (List.last config_path EmptyString)
                  (converted env_var value) with
          | inr config' => override_each env rest config'
          | inl e => (inl e, config)
          end
      end
  end.

Definition _override_with_env_vars (env : environ) (config : pyval)
  : (exn + unit) * pyval :=
  override_each env env_mappings config.

End SettingsFile.

(** The same method on the objects themselves.  [yaml.safe_load] builds
    one dict object for an anchored section and uses it again wherever
    the file has an alias of it (a section may even contain itself), and
    the method changes these objects in place: what it writes under one
    name of a section is there under every other.  A dict is a location
    of the heap, the heap the list of the dict objects made so far; a
    scalar or a list is its value, a list with the objects it names. *)
Module SettingsObjects.
Import SettingsFile.

Notation loc := nat (only parsing).

Inductive cval : Type :=
| CNone
| CBool (b : bool)
| CInt (n : Z)
| CFloat (bits : Z)
| CStr (s : string)
| CList (items : list cval)
| CDict (l : loc).

Notation dict := (list (string * cval)) (only parsing).

Notation heap := (list (list (string * cval))) (only parsing).

Fixpoint item (d : dict) (key : string) : option cval :=
  match d with
  | [] => None
  | (k, v) :: d' => if String.eqb k key then Some v else item d' key
  end.

Fixpoint set_item (d : dict) (key : string) (v : cval) : dict :=
  match d with
  | [] => [(key, v)]
  | (k, x) :: d' =>
      if String.eqb k key then (k, v) :: d' else (k, x) :: set_item d' key v
  end.

(** [current.setdefault(key, {})]: the value under [key] where there is
    one, otherwise a new empty dict, stored under [key] in the object
    [current] is.  What is no dict has no [setdefault]
    ([AttributeError]); a location without an object is none that
    [yaml.safe_load] makes, and is treated as no dict. *)
Definition setdefault (h : heap) (current : cval) (key : string)
  : (exn + cval) * heap :=
  match current with
  | CDict l =>
      match h !! l with
      | Some d =>
          match item d key with
          | Some c => (inr c, h)
          | None =>
              (inr (CDict (length h)),
               <[l := set_item d key (CDict (length h))]> h ++ [([] : dict)])
          end
      | None => (inl AttributeError, h)
      end
  | _ => (inl AttributeError, h)
  end.

(** [current[key] = value]: [TypeError] on what is no dict. *)
Definition setitem (h : heap) (current : cval) (key : string) (value : cval)
  : (exn + unit) * heap :=
  match current with
  | CDict l =>
      match h !! l with
      | Some d => (inr tt, <[l := set_item d key value]> h)
      | None => (inl TypeError, h)
      end
  | _ => (inl TypeError, h)
  end.

(** [for key in config_path[:-1]: current = current.setdefault(key, {})] *)
Fixpoint descend (h : heap) (current : cval) (keys : list string)
  : (exn + cval) * heap :=
  match keys with
  | [] => (inr current, h)
  | key :: keys' =>
      match setdefault h current key with
      | (inr c, h') => descend h' c keys'
      | (inl e, h') => (inl e, h')
      end
  end.

Definition converted (env_var value : string) : cval :=
  if String.eqb env_var "BROWSER_HEADLESS"
  then CBool (String.eqb (lower value) "true")
  else CStr value.

(** The loop over the mapping, on the heap it changes; the first
    exception ends it and leaves the heap as it is by then. *)
Fixpoint override_each (env : environ) (mappings : list (string * list string))
    (h : heap) (config : cval) : (exn + unit) * heap :=
  match mappings with
  | [] => (inr tt, h)
  | (env_var, config_path) :: rest =>
      match env !! env_var with
      | None => override_each env rest h config
      | Some value =>
          match descend h config (removelast config_path) with
          | (inr current, h1) =>
              match setitem h1 current (List.last config_path EmptyString)
                      (converted env_var value) with
              | (inr _, h2) => override_each env rest h2 config
              | (inl e, h2) => (inl e, h2)
              end
          | (inl e, h1) => (inl e, h1)
          end
      end
  end.

Definition _override_with_env_vars (env : environ) (h : heap) (config : cval)
  : (exn + unit) * heap :=
  override_each env env_mappings h config.

End SettingsObjects.

(** A configuration file and an environment to run the overrides on. *)
Module Configs.
Import SettingsFile.

Definition sample_config : pyval :=
  PDict [("target_site", PDict [("base_url", PStr "http://localhost:8000")]);
         ("auth", PDict [("session_timeout", PInt 60)])].

Definition sample_environ : environ :=
  {[ "TARGET_SITE_BASE_URL" := "https://www.trade-island.jp";
     "BROWSER_HEADLESS" := "1" ]}.

(** A file whose [auth:] section is left empty. *)
Definition empty_section : pyval := PDict [("auth", PNone)].

(** A file with an alias:
<<
    auth: &shared
      session_timeout: 60
    defaults: *shared
>>
    One dict object, at location 1, under two names of the root dict at
    location 0. *)
Definition aliased_heap : SettingsObjects.heap :=
  [ [("auth", SettingsObjects.CDict 1%nat); ("defaults", SettingsObjects.CDict 1%nat)];
    [("session_timeout", SettingsObjects.CInt 60)] ].

Definition aliased_config : SettingsObjects.cval := SettingsObjects.CDict 0%nat.

Definition username_only : environ := {[ "SCRAPING_USERNAME" := "taro" ]}.

End Configs.

(** * Properties *)

(** ** The vocabulary of the statements *)

Section Vocabulary.
Context {W : Type} {BR : Browser W} {CK : Clock} {IC : IsoCodec} {ST : Settings}
  {JD : JsonDump} {UL : Unlink}.

(** [s'] extends the trace of [s] by events that satisfy [P], and differs
    from [s] on the files of [Q] at most. *)
Definition within (P : event -> Prop) (Q : string -> Prop) (s s' : state W) : Prop :=
  (exists evs, trace s' = trace s ++ evs /\ Forall P evs) /\
  (forall p, ~ Q p -> files s' !! p = files s !! p).

(** From every state, the block [m] records events of [P] only, writes
    files of [Q] only and lets exceptions of [E] only escape. *)
Definition effects (P : event -> Prop) (Q : string -> Prop) (E : exn -> Prop)
    {R A} (m : block W R A) : Prop :=
  forall s, within P Q s (snd (m s)) /\ (forall e, fst (m s) = Raised e -> E e).

(** Typing into a field, pressing a control. *)
Definition is_fill (e : event) : bool :=
  match e with EFill _ _ => true | _ => false end.

Definition is_click (e : event) : bool :=
  match e with EClick _ => true | _ => false end.

(** Looking for the submit control, or pressing a control. *)
Definition is_submit_attempt (e : event) : bool :=
  match e with
  | EClick _ => true
  | EProbe selector _ => bool_decide (selector ∈ Authenticator.login_selectors)
  | _ => false
  end.

(** The probes of the given selectors, in their order. *)
Definition probes (timeout : Z) (selectors : list string) : list event :=
  map (fun selector => EProbe selector timeout) selectors.

(** The expiry the metadata file declares, when the file exists, parses to
    a dict and holds the ISO text of a timestamp under [expires_at]. *)
Definition declared_expiry (fs : gmap string content) : option Z :=
  match fs !! SessionManager.session_info_file with
  | Some (JsonText (PDict d)) =>
      match assoc_get d "expires_at" with
      | Some (PStr x) => fromisoformat x
      | _ => None
      end
  | _ => None
  end.

(** The metadata file holds under [expires_at] the text of an
    offset-aware timestamp. *)
Definition expiry_is_aware (fs : gmap string content) : bool :=
  match fs !! SessionManager.session_info_file with
  | Some (JsonText (PDict d)) =>
      match assoc_get d "expires_at" with
      | Some (PStr x) =>
          match fromisoformat x, fromisoformat_aware x with
          | None, Some _ => true
          | _, _ => false
          end
      | _ => false
      end
  | _ => false
  end.

(** The file under [path] holds a text that does not parse. *)
Definition unparsable (fs : gmap string content) (path : string) : Prop :=
  exists raw, fs !! path = Some (BadText raw).

(** What [load_session] reads from the cookie file: the empty list when
    there is none, nothing when its text does not parse. *)
Definition stored_cookies (fs : gmap string content) : option pyval :=
  match fs !! SessionManager.cookies_file with
  | None => Some (PList [])
  | Some (JsonText v) => Some v
  | Some (BadText _) => None
  end.

(** The value under [key] in the metadata file. *)
Definition metadata_field (fs : gmap string content) (key : string) : option pyval :=
  match fs !! SessionManager.session_info_file with
  | Some (JsonText (PDict d)) => assoc_get d key
  | _ => None
  end.

(** One look for [selector] on the page of [s]: the handle it finds, if
    any, and the state it leaves.  A look that raises finds nothing. *)
Definition probe (selector : string) (timeout : Z) (s : state W)
  : option handle * state W :=
  let '(o, w) := page_wait_for_selector selector timeout (page s) in
  (match o with inr (Some h) => Some h | _ => None end,
   set_page w (emit (EProbe selector timeout) s)).

(** The state after a look for each of [selectors] in turn. *)
Definition probed (timeout : Z) (selectors : list string) (s : state W) : state W :=
  fold_left (fun s selector => snd (probe selector timeout s)) selectors s.

(** The two lines [login] logs when the session is open. *)
Definition success_line (e : event) : bool :=
  match e with
  | ELog INFO msg =>
      String.eqb msg "既にログイン済みです" || String.eqb msg "ログインに成功しました"
  | _ => false
  end.






(** The items of a list, written in turn. *)
Fixpoint dump_items (l : list pyobj) : exn + list pyval :=
  match l with
  | [] => inr []
  | x :: l' =>
      match json_dump x with
      | inl e => inl e
      | inr v =>
          match dump_items l' with
          | inl e => inl e
          | inr vs => inr (v :: vs)
          end
      end
  end.

(** The pairs of a dict, written in turn and read back into [acc]. *)
Fixpoint dump_pairs (d : list (pykey * pyobj)) (acc : list (string * pyval))
  : exn + list (string * pyval) :=
  match d with
  | [] => inr acc
  | (k, x) :: d' =>
      match key_text k with
      | inl e => inl e
      | inr text =>
          match json_dump x with
          | inl e => inl e
          | inr v => dump_pairs d' (assoc_set acc text v)
          end
      end
  end.

(** Every dict of [v] lists each key once, as a Python dict does. *)
Fixpoint proper (v : pyval) : bool :=
  match v with
  | PList l => forallb proper l
  | PDict d =>
      bool_decide (NoDup (map fst d)) && forallb (fun kv => proper (snd kv)) d
  | _ => true
  end.

End Vocabulary.

(** ** More vocabulary: the other operations *)

Section VocabularyMore.
Context {W : Type} {BR : Browser W} {CK : Clock} {IC : IsoCodec} {ST : Settings}
  {JD : JsonDump} {UL : Unlink}.

(** The timestamp a metadata dict holds under [key], when the value is the
    ISO text of one. *)
Definition timestamp_field (d : list (string * pyval)) (key : string) : option Z :=
  match assoc_get d key with
  | Some (PStr x) => fromisoformat x
  | _ => None
  end.

(** [session_info.get('user_info', {})] *)
Definition user_info_field (d : list (string * pyval)) : pyval :=
  match assoc_get d "user_info" with
  | Some u => u
  | None => PDict []
  end.


(** [json] can write [o]. *)
Definition serialisable (o : pyobj) : Prop := exists v, json_dump o = inr v.

(** The file under [path] is there and cannot be removed. *)
Definition stays (fs : gmap string content) (path : string) : bool :=
  match fs !! path with
  | Some _ => unlink_refused path
  | None => false
  end.

(** The text [isoformat] prints for the timestamp a metadata dict holds
    under [key], naive or offset-aware. *)
Definition timestamp_text (d : list (string * pyval)) (key : string)
  : option string :=
  match assoc_get d key with
  | Some (PStr x) =>
      match fromisoformat x with
      | Some t => Some (isoformat t)
      | None => fromisoformat_aware x
      end
  | _ => None
  end.

(** Looking for an element. *)
Definition is_probe (e : event) : bool :=
  match e with EProbe _ _ => true | _ => false end.

End VocabularyMore.

(** ** More vocabulary: the configuration *)

Section VocabularySettings.

(** [config[k1][k2]...], when every key on the way is there. *)
Fixpoint get_path (c : pyval) (path : list string) : option pyval :=
  match path with
  | [] => Some c
  | k :: rest =>
      match c with
      | PDict d =>
          match assoc_get d k with
          | Some c' => get_path c' rest
          | None => None
          end
      | _ => None
      end
  end.

(** The sections [keys] can be entered from [c]: [c] is a dict, and so is
    every section on the way that is there; a missing section ends the
    walk well. *)
Fixpoint enterable (c : pyval) (keys : list string) : bool :=
  match c with
  | PDict d =>
      match keys with
      | [] => true
      | k :: rest =>
          match assoc_get d k with
          | Some c' => enterable c' rest
          | None => true
          end
      end
  | _ => false
  end.

Fixpoint is_prefix (p q : list string) : bool :=
  match p, q with
  | [], _ => true
  | _ :: _, [] => false
  | a :: p', b :: q' => String.eqb a b && is_prefix p' q'
  end.

(** Neither path leads through the other. *)
Definition incomparable (p q : list string) : Prop :=
  is_prefix p q = false /\ is_prefix q p = false.

(** The paths of a mapping lead to different settings, none through
    another. *)
Fixpoint apart (mappings : list (string * list string)) : bool :=
  match mappings with
  | [] => true
  | (_, path) :: rest =>
      match path with [] => false | _ :: _ => true end &&
      forallb (fun m => negb (is_prefix path (snd m)) &&
                        negb (is_prefix (snd m) path)) rest &&
      apart rest
  end.

End VocabularySettings.

(** The configuration as objects. *)
Section VocabularyObjects.
Import SettingsFile SettingsObjects.

(** What the dict object at [l] holds under [key]. *)
Definition entry (h : heap) (l : loc) (key : string) : option cval :=
  match h !! l with
  | Some d => item d key
  | None => None
  end.

(** [config[k1][k2]...] through the objects of the heap. *)
Fixpoint lookup_path (h : heap) (c : cval) (path : list string) : option cval :=
  match path with
  | [] => Some c
  | k :: rest =>
      match c with
      | CDict l =>
          match entry h l k with
          | Some c' => lookup_path h c' rest
          | None => None
          end
      | _ => None
      end
  end.

(** [key] is the last key of the path of a variable that is set. *)
Definition assigned (env : environ) (mappings : list (string * list string))
    (key : string) : bool :=
  existsb (fun m => match env !! fst m with
                    | Some _ => String.eqb (List.last (snd m) EmptyString) key
                    | None => false
                    end) mappings.

(** [key] is a section on the path of a variable that is set. *)
Definition entered (env : environ) (mappings : list (string * list string))
    (key : string) : bool :=
  existsb (fun m => match env !! fst m with
                    | Some _ => existsb (String.eqb key) (removelast (snd m))
                    | None => false
                    end) mappings.

End VocabularyObjects.

(** ** Values and their JSON text *)

Section Values.
Context {IC : IsoCodec}.

Lemma pyval_induction (P : pyval -> Prop) :
  P PNone -> (forall b, P (PBool b)) -> (forall n, P (PInt n)) ->
  (forall bits, P (PFloat bits)) -> (forall s, P (PStr s)) ->
  (forall l, Forall P l -> P (PList l)) ->
  (forall d, Forall (fun kv => P (snd kv)) d -> P (PDict d)) ->
  forall v, P v.
Proof.
  intros HN HB HI HF HS HL HD. fix IH 1. intros [| b | n | bits | s | l | d].
  - exact HN.
  - apply HB.
  - apply HI.
  - apply HF.
  - apply HS.
  - apply HL. induction l as [| x l IHl]; constructor; [apply IH | exact IHl].
  - apply HD. induction d as [| [k x] d IHd]; constructor; [apply IH | exact IHd].
Qed.

Lemma pyobj_induction (P : pyobj -> Prop) :
  P ONone -> (forall b, P (OBool b)) -> (forall n, P (OInt n)) ->
  (forall bits, P (OFloat bits)) -> (forall s, P (OStr s)) ->
  (forall l, Forall P l -> P (OList l)) ->
  (forall d, Forall (fun kx => P (snd kx)) d -> P (ODict d)) ->
  (forall truth, P (OOther truth)) ->
  forall o, P o.
Proof.
  intros HN HB HI HF HS HL HD HO. fix IH 1.
  intros [| b | n | bits | s | l | d | truth].
  - exact HN.
  - apply HB.
  - apply HI.
  - apply HF.
  - apply HS.
  - apply HL. induction l as [| x l IHl]; constructor; [apply IH | exact IHl].
  - apply HD. induction d as [| [k x] d IHd]; constructor; [apply IH | exact IHd].
  - apply HO.
Qed.

Lemma json_dump_list l :
  json_dump (OList l) =
    match dump_items l with inl e => inl e | inr vs => inr (PList vs) end.
Proof.
  induction l as [| x l IH]; [done |]. simpl in *.
  destruct (json_dump x); [done |].
  match goal with
  | |- context [match ?t l with inl _ => _ | inr _ => _ end] => destruct (t l)
  end; destruct (dump_items l); simpl in *; congruence.
Qed.

Lemma json_dump_dict d :
  json_dump (ODict d) =
    match dump_pairs d [] with inl e => inl e | inr ps => inr (PDict ps) end.
Proof.
  simpl. generalize (@nil (string * pyval)).
  induction d as [| [k x] d IH]; intros acc; simpl; [done |].
  destruct (key_text k); [done |]. destruct (json_dump x); [done |]. apply IH.
Qed.

Lemma key_text_raises k e :
  key_text k = inl e -> e = TypeError \/ e = UnicodeEncodeError.
Proof.
  destruct k as [s | n | r | [|] | |]; simpl; try done.
  - destruct (encodable s); [done |]. intros [= <-]. by right.
  - intros [= <-]. by left.
Qed.

(** [json.dump] ends with [TypeError] or [UnicodeEncodeError], if it
    raises. *)
Lemma json_dump_raises o e :
  json_dump o = inl e -> e = TypeError \/ e = UnicodeEncodeError.
Proof.
  revert e. induction o as [| b | n | bits | s | l IH | d IH | truth]
    using pyobj_induction; intros e; try done.
  - simpl. destruct (encodable s); [done |]. intros [= <-]. by right.
  - rewrite json_dump_list.
    assert (forall e, dump_items l = inl e -> e = TypeError \/ e = UnicodeEncodeError)
      as Hl.
    { induction IH as [| x l Hx _ IHl]; simpl; [done |]. intros e'.
      destruct (json_dump x) eqn:Ex; [intros [= <-]; by apply Hx |].
      destruct (dump_items l); [intros [= <-]; by apply IHl | done]. }
    destruct (dump_items l); [intros [= <-]; by apply Hl | done].
  - rewrite json_dump_dict.
    assert (forall acc e, dump_pairs d acc = inl e ->
              e = TypeError \/ e = UnicodeEncodeError) as Hd.
    { induction IH as [| [k x] d Hx _ IHd]; simpl; [done |]. intros acc e'.
      destruct (key_text k) eqn:Ek; [intros [= <-]; by eapply key_text_raises |].
      destruct (json_dump x) eqn:Ex; [intros [= <-]; by apply Hx |].
      apply IHd. }
    destruct (dump_pairs d []) eqn:Ed; [intros [= <-]; by eapply Hd | done].
  - intros [= <-]. by left.
Qed.

Lemma json_dump_Exception o e : json_dump o = inl e -> is_Exception e = true.
Proof. by intros [-> | ->]%json_dump_raises. Qed.

Lemma assoc_set_fresh (d : list (string * pyval)) key v :
  key ∉ map fst d -> assoc_set d key v = d ++ [(key, v)].
Proof.
  induction d as [| [k x] d IH]; simpl; [done |].
  intros Hk. apply not_elem_of_cons in Hk as [Hne Hk].
  destruct (String.eqb_spec k key) as [-> | _]; [done |]. by rewrite IH.
Qed.

(** A value [json.load] returned is written back as itself, when its
    texts can be encoded. *)
Lemma json_dump_of_json v :
  dumpable v = true -> proper v = true -> json_dump (of_json v) = inr v.
Proof.
  induction v as [| b | n | bits | s | l IH | d IH] using pyval_induction;
    try done.
  - simpl. by intros ->.
  - intros Hd Hp. cbn [of_json]. rewrite json_dump_list.
    assert (dump_items (map of_json l) = inr l) as ->; [| done].
    simpl in Hd, Hp. induction IH as [| x l Hx _ IHl]; simpl; [done |].
    apply andb_true_iff in Hd as [Hd1 Hd2]. apply andb_true_iff in Hp as [Hp1 Hp2].
    by rewrite (Hx Hd1 Hp1), (IHl Hd2 Hp2).
  - intros Hd Hp. cbn [of_json]. rewrite json_dump_dict.
    simpl in Hd, Hp. apply andb_true_iff in Hp as [Hnd Hp].
    apply bool_decide_eq_true in Hnd.
    assert (forall acc, (forall k, k ∈ map fst d -> k ∉ map fst acc) ->
              dump_pairs (map (fun kv => (KStr (fst kv), of_json (snd kv))) d) acc =
                inr (acc ++ d)) as Hpairs.
    { clear -IH Hd Hp Hnd.
      induction IH as [| [k x] d Hx _ IHd]; intros acc Hacc; simpl.
      { by rewrite app_nil_r. }
      simpl in *. apply andb_true_iff in Hd as [[Hk Hdx]%andb_true_iff Hd].
      apply andb_true_iff in Hp as [Hpx Hp]. apply NoDup_cons in Hnd as [Hkd Hnd].
      rewrite Hk, (Hx Hdx Hpx).
      rewrite assoc_set_fresh by (apply Hacc; by left).
      rewrite IHd; try done.
      - by rewrite <- app_assoc.
      - intros k' Hk'. rewrite map_app. simpl. rewrite elem_of_app.
        intros [Hin | Hin%list_elem_of_singleton].
        + apply (Hacc k'); [by right | done].
        + by subst. }
    rewrite Hpairs; [done |]. intros k _. simpl. apply not_elem_of_nil.
Qed.

(** The same, whether or not the texts can be encoded. *)
Lemma json_dump_proper v :
  proper v = true ->
  json_dump (of_json v) = if dumpable v then inr v else inl UnicodeEncodeError.
Proof.
  induction v as [| b | n | bits | s | l IH | d IH] using pyval_induction;
    try done.
  - intros Hp. cbn [of_json]. rewrite json_dump_list.
    assert (dump_items (map of_json l) =
              if forallb dumpable l then inr l else inl UnicodeEncodeError) as ->.
    { simpl in Hp. induction IH as [| x l Hx _ IHl]; simpl; [done |].
      apply andb_true_iff in Hp as [Hp1 Hp2]. rewrite (Hx Hp1), (IHl Hp2).
      destruct (dumpable x); [| done]. by destruct (forallb dumpable l). }
    change (dumpable (PList l)) with (forallb dumpable l).
    by destruct (forallb dumpable l).
  - intros Hp. cbn [of_json]. rewrite json_dump_dict.
    simpl in Hp. apply andb_true_iff in Hp as [Hnd Hp].
    apply bool_decide_eq_true in Hnd.
    assert (forall acc, (forall k, k ∈ map fst d -> k ∉ map fst acc) ->
              dump_pairs (map (fun kv => (KStr (fst kv), of_json (snd kv))) d) acc =
                if forallb (fun kv => encodable (fst kv) && dumpable (snd kv)) d
                then inr (acc ++ d) else inl UnicodeEncodeError) as Hpairs.
    { clear -IH Hp Hnd.
      induction IH as [| [k x] d Hx _ IHd]; intros acc Hacc; simpl.
      { by rewrite app_nil_r. }
      simpl in *. apply andb_true_iff in Hp as [Hpx Hp].
      apply NoDup_cons in Hnd as [Hkd Hnd].
      destruct (encodable k); [| done]. rewrite (Hx Hpx).
      destruct (dumpable x); [| done]. simpl.
      rewrite assoc_set_fresh by (apply Hacc; by left).
      rewrite IHd; try done.
      - by rewrite <- app_assoc.
      - intros k' Hk'. rewrite map_app. simpl. rewrite elem_of_app.
        intros [Hin | Hin%list_elem_of_singleton].
        + apply (Hacc k'); [by right | done].
        + by subst. }
    rewrite Hpairs by (intros k _; simpl; apply not_elem_of_nil).
    change (dumpable (PDict d))
      with (forallb (fun kv => encodable (fst kv) && dumpable (snd kv)) d).
    by destruct (forallb (fun kv => encodable (fst kv) && dumpable (snd kv)) d).
Qed.

(** The record [save_session] hands to [json.dump] is written when the
    user's object is. *)
Lemma json_dump_record created expires last (user_info : pyobj) :
  json_dump (ODict [(KStr "created_at", OStr (isoformat created));
                    (KStr "expires_at", OStr (isoformat expires));
                    (KStr "user_info", user_info);
                    (KStr "last_activity", OStr (isoformat last))]) =
    match json_dump user_info with
    | inl e => inl e
    | inr info =>
        inr (PDict [("created_at", PStr (isoformat created));
                    ("expires_at", PStr (isoformat expires));
                    ("user_info", info);
                    ("last_activity", PStr (isoformat last))])
    end.
Proof.
  rewrite json_dump_dict. cbn [dump_pairs key_text encodable].
  cbn [json_dump]. rewrite !isoformat_encodable. simpl.
  by destruct (json_dump user_info).
Qed.

End Values.

(** ** What a block may do *)

Section Effects.
Context {W : Type} {BR : Browser W} {CK : Clock} {IC : IsoCodec} {ST : Settings}
  {JD : JsonDump} {UL : Unlink}.

Lemma within_refl P Q (s : state W) : within P Q s s.
Proof.
  split; [exists []; split; [by rewrite app_nil_r | constructor] | done].
Qed.

Lemma within_trans P Q (s1 s2 s3 : state W) :
  within P Q s1 s2 -> within P Q s2 s3 -> within P Q s1 s3.
Proof.
  intros [(e1 & T1 & F1) K1] [(e2 & T2 & F2) K2]. split.
  - exists (e1 ++ e2). split; [by rewrite T2, T1, app_assoc | by apply Forall_app].
  - intros p Hp. by rewrite K2, K1.
Qed.

Lemma within_weaken (P P' : event -> Prop) (Q Q' : string -> Prop) (s s' : state W) :
  (forall e, P e -> P' e) -> (forall p, Q p -> Q' p) ->
  within P Q s s' -> within P' Q' s s'.
Proof.
  intros HP HQ [(evs & T & F) K]. split.
  - exists evs. split; [done | eapply Forall_impl; eauto].
  - intros p Hp. apply K. intros Hq. apply Hp, HQ, Hq.
Qed.

Lemma within_emit (P : event -> Prop) Q e (s : state W) :
  P e -> within P Q s (emit e s).
Proof.
  intros He. split; [exists [e]; split; [done | by constructor] | done].
Qed.

Lemma within_files P (s s' : state W) :
  within P (fun _ => False) s s' -> files s' = files s.
Proof. intros [_ K]. apply map_eq. intros p. apply K. tauto. Qed.

Lemma effects_within P Q E {R A} (m : block W R A) s o s' :
  effects P Q E m -> m s = (o, s') -> within P Q s s'.
Proof. intros Hm Hs. destruct (Hm s) as [Hw _]. by rewrite Hs in Hw. Qed.

Lemma effects_weaken (P P' : event -> Prop) (Q Q' : string -> Prop)
    (E E' : exn -> Prop) {R A} (m : block W R A) :
  (forall e, P e -> P' e) -> (forall p, Q p -> Q' p) -> (forall e, E e -> E' e) ->
  effects P Q E m -> effects P' Q' E' m.
Proof.
  intros HP HQ HE Hm s. destruct (Hm s) as [Hw Hr]. split.
  - eapply within_weaken; eauto.
  - intros e He. apply HE, Hr, He.
Qed.

Lemma effects_ret P Q E {R A} (a : A) : effects P Q E (ret (W:=W) (R:=R) a).
Proof. intros s. split; [apply within_refl | done]. Qed.

Lemma effects_return P Q E {R A} (r : R) : effects P Q E (return_ (W:=W) (A:=A) r).
Proof. intros s. split; [apply within_refl | done]. Qed.

Lemma effects_raise P Q (E : exn -> Prop) {R A} e :
  E e -> effects P Q E (raise (W:=W) (R:=R) (A:=A) e).
Proof.
  intros He s. split; [apply within_refl |]. simpl. by intros ? [= <-].
Qed.

Lemma effects_bind P Q E {R A B} (m : block W R A) (k : A -> block W R B) :
  effects P Q E m -> (forall a, effects P Q E (k a)) -> effects P Q E (bind m k).
Proof.
  intros Hm Hk s. unfold bind. destruct (Hm s) as [Hw Hr].
  destruct (m s) as [[a | r | e] s']; simpl in *.
  2: by split.
  2: { split; [done |]. intros e' [= <-]. by apply Hr. }
  destruct (Hk a s') as [Hw' Hr']. split; [| done].
  eapply within_trans; eauto.
Qed.

(** What the body raises is caught when it derives from [Exception]. *)
Lemma effects_try_except_Exception P Q (E : exn -> Prop) {R A}
    (body : block W R A) handler :
  effects P Q (fun e => is_Exception e = true \/ E e) body ->
  (forall e, effects P Q E (handler e)) ->
  effects P Q E (try_except_Exception body handler).
Proof.
  intros Hb Hh s. unfold try_except_Exception. destruct (Hb s) as [Hw Hr].
  destruct (body s) as [[a | r | e] s']; simpl in *; [by (split; eauto) | by (split; eauto) |].
  destruct (is_Exception e) eqn:Ee; simpl.
  - destruct (Hh e s') as [Hw' Hr']. split; [| done].
    eapply within_trans; eauto.
  - split; [done |]. intros e' [= <-].
    destruct (Hr e eq_refl) as [Hc | He]; [congruence | done].
Qed.

Lemma effects_try_except P Q E {R A} (body handler : block W R A) :
  effects P Q (fun _ => True) body -> effects P Q E handler ->
  effects P Q E (try_except body handler).
Proof.
  intros Hb Hh s. unfold try_except. destruct (Hb s) as [Hw Hr].
  destruct (body s) as [[a | r | e] s']; simpl in *; [by (split; eauto) | by (split; eauto) |].
  destruct (Hh s') as [Hw' Hr']. split; [| done].
  eapply within_trans; eauto.
Qed.

Lemma effects_def P Q E {R A} (body : block W A A) :
  effects P Q E body -> effects P Q E (def (R:=R) body).
Proof.
  intros Hb s. unfold def. destruct (Hb s) as [Hw Hr].
  destruct (body s) as [[a | r | e] s']; simpl in *; (split; [done |]).
  - done.
  - done.
  - intros e' [= <-]. by apply Hr.
Qed.

Lemma effects_when P Q E {R} c (m : block W R unit) :
  effects P Q E m -> effects P Q E (when_ c m).
Proof. intros Hm. destruct c; [done | apply effects_ret]. Qed.

Lemma effects_log (P : event -> Prop) Q E {R} level msg :
  P (ELog level msg) -> effects P Q E (log (W:=W) (R:=R) level msg).
Proof. intros He s. split; [by apply within_emit | done]. Qed.

(** The browser may raise anything. *)
Lemma effects_browser_call (P : event -> Prop) Q (E : exn -> Prop) {R A} e
    (op : W -> (exn + A) * W) :
  P e -> (forall x, E x) -> effects P Q E (browser_call (R:=R) e op).
Proof.
  intros He HE s. unfold browser_call. destruct (op (page s)) as [o w]. simpl.
  split; [| done].
  split; [exists [e]; split; [done | by constructor] | done].
Qed.

Lemma effects_url P Q E {R} : effects P Q E (url (W:=W) (R:=R)).
Proof. intros s. split; [apply within_refl | done]. Qed.

Lemma effects_path_exists P Q E {R} p : effects P Q E (path_exists (W:=W) (R:=R) p).
Proof. intros s. split; [apply within_refl | done]. Qed.

Lemma effects_read_json P Q (E : exn -> Prop) {R} p :
  E FileNotFoundError -> E JSONDecodeError ->
  effects P Q E (read_json (W:=W) (R:=R) p).
Proof.
  intros E1 E2 s. unfold read_json.
  destruct (files s !! p) as [[v | raw] |]; simpl;
    (split; [apply within_refl | by intros ? [= <-]]).
Qed.

Lemma within_set_files P (Q : string -> Prop) p c (s : state W) :
  Q p -> within P Q s (set_files (<[p := c]> (files s)) s).
Proof.
  intros Hq. split; [exists []; split; [by rewrite app_nil_r | constructor] |].
  intros p' Hp'. simpl. apply lookup_insert_ne. congruence.
Qed.

Lemma effects_write_json P (Q : string -> Prop) (E : exn -> Prop) {R} p v :
  Q p -> E PermissionError -> E UnicodeEncodeError ->
  effects P Q E (write_json (W:=W) (R:=R) p v).
Proof.
  intros Hq He Hu s. unfold write_json. case_bool_decide; simpl.
  { split; [apply within_refl | by intros ? [= <-]]. }
  destruct (dumpable v); simpl.
  - split; [by apply within_set_files | done].
  - split; [by apply within_set_files | by intros ? [= <-]].
Qed.

Lemma effects_write_object P (Q : string -> Prop) (E : exn -> Prop) {R} p o :
  Q p -> E PermissionError -> E UnicodeEncodeError -> E TypeError ->
  effects P Q E (write_object (W:=W) (R:=R) p o).
Proof.
  intros Hq He Hu Ht s. unfold write_object. case_bool_decide; simpl.
  { split; [apply within_refl | by intros ? [= <-]]. }
  destruct (json_dump o) as [e | v] eqn:Ed; simpl.
  - split; [by apply within_set_files |]. intros ? [= <-].
    by destruct (json_dump_raises _ _ Ed) as [-> | ->].
  - split; [by apply within_set_files | done].
Qed.

Lemma effects_unlink P (Q : string -> Prop) (E : exn -> Prop) {R} p :
  Q p -> E FileNotFoundError -> E PermissionError ->
  effects P Q E (unlink (W:=W) (R:=R) p).
Proof.
  intros Hq He Hp s. unfold unlink. destruct (files s !! p); simpl.
  2: { split; [apply within_refl | by intros ? [= <-]]. }
  destruct (unlink_refused p); simpl.
  { split; [apply within_refl | by intros ? [= <-]]. }
  split; [| done].
  split; [exists []; split; [by rewrite app_nil_r | constructor] |].
  intros p' Hp'. simpl. apply lookup_delete_ne. congruence.
Qed.

Lemma effects_now P Q E {R} : effects P Q E (now (W:=W) (R:=R)).
Proof.
  intros s. split; [| done].
  split; [exists []; split; [by rewrite app_nil_r | constructor] | done].
Qed.

Lemma effects_add_seconds P Q (E : exn -> Prop) {R} t n :
  E OverflowError -> effects P Q E (add_seconds (W:=W) (R:=R) t n).
Proof.
  intros He. unfold add_seconds.
  destruct (_ && _); [apply effects_ret | by apply effects_raise].
Qed.

Lemma effects_dict_get P Q (E : exn -> Prop) {R} v k d :
  E AttributeError -> effects P Q E (dict_get (W:=W) (R:=R) v k d).
Proof. intros He. destruct v; first [apply effects_ret | by apply effects_raise]. Qed.

Lemma effects_dict_setitem P Q (E : exn -> Prop) {R} v k x :
  E TypeError -> effects P Q E (dict_setitem (W:=W) (R:=R) v k x).
Proof. intros He. destruct v; first [apply effects_ret | by apply effects_raise]. Qed.

Lemma effects_datetime_fromisoformat P Q (E : exn -> Prop) {R} x :
  E TypeError -> E ValueError ->
  effects P Q E (datetime_fromisoformat (W:=W) (R:=R) x).
Proof.
  intros E1 E2. destruct x; try by apply effects_raise. simpl.
  destruct (fromisoformat s); [apply effects_ret |].
  destruct (fromisoformat_aware s); [apply effects_ret | by apply effects_raise].
Qed.

Lemma effects_later_than P Q (E : exn -> Prop) {R} t d :
  E TypeError -> effects P Q E (later_than (W:=W) (R:=R) t d).
Proof. intros He. destruct d; [apply effects_ret | by apply effects_raise]. Qed.

Lemma effects_time_until P Q (E : exn -> Prop) {R} d t :
  E TypeError -> effects P Q E (time_until (W:=W) (R:=R) d t).
Proof. intros He. destruct d; [apply effects_ret | by apply effects_raise]. Qed.

End Effects.

(** Decomposes a goal [effects P Q E m] along the structure of [m]; what
    is left are the side conditions on events, paths and exceptions. *)
Ltac effects_step :=
  lazymatch goal with
  | |- effects _ _ _ (bind _ _) => apply effects_bind; [| intros ?]
  | |- effects _ _ _ (def _) => apply effects_def
  | |- effects _ _ _ (try_except_Exception _ _) =>
      apply effects_try_except_Exception; [| intros ?]
  | |- effects _ _ _ (try_except _ _) => apply effects_try_except
  | |- effects _ _ _ (when_ _ _) => apply effects_when
  | |- effects _ _ _ (ret _) => apply effects_ret
  | |- effects _ _ _ (return_ _) => apply effects_return
  | |- effects _ _ _ (raise _) => apply effects_raise
  | |- effects _ _ _ (log _ _) => apply effects_log
  | |- effects _ _ _ (goto _) => apply effects_browser_call
  | |- effects _ _ _ (wait_for_load_state _) => apply effects_browser_call
  | |- effects _ _ _ (wait_for_selector _ _) => apply effects_browser_call
  | |- effects _ _ _ (fill _ _) => apply effects_browser_call
  | |- effects _ _ _ (click _) => apply effects_browser_call
  | |- effects _ _ _ cookies_ => apply effects_browser_call
  | |- effects _ _ _ (add_cookies _) => apply effects_browser_call
  | |- effects _ _ _ url => apply effects_url
  | |- effects _ _ _ (path_exists _) => apply effects_path_exists
  | |- effects _ _ _ (read_json _) => apply effects_read_json
  | |- effects _ _ _ (write_json _ _) => apply effects_write_json
  | |- effects _ _ _ (write_object _ _) => apply effects_write_object
  | |- effects _ _ _ (unlink _) => apply effects_unlink
  | |- effects _ _ _ now => apply effects_now
  | |- effects _ _ _ (add_seconds _ _) => apply effects_add_seconds
  | |- effects _ _ _ (dict_get _ _ _) => apply effects_dict_get
  | |- effects _ _ _ (dict_setitem _ _ _) => apply effects_dict_setitem
  | |- effects _ _ _ (datetime_fromisoformat _) =>
      apply effects_datetime_fromisoformat
  | |- effects _ _ _ (later_than _ _) => apply effects_later_than
  | |- effects _ _ _ (time_until _ _) => apply effects_time_until
  | |- effects _ _ _ (match ?x with _ => _ end) => destruct x
  end.

Ltac effects_auto := repeat effects_step.
(** ** The session store *)

(** The writing of a value is reasoned about through its lemmas. *)
Arguments json_dump : simpl never.
Arguments dumpable : simpl never.

(** Unfolds the monad and the calls that do not reach the browser. *)
Ltac run :=
  repeat (progress (unfold def, try_except_Exception, try_except, bind, when_,
    ret, return_, raise, log, path_exists, read_json, write_json, write_object,
    unlink, now, add_seconds, dict_get, dict_setitem, datetime_fromisoformat,
    later_than, time_until; simpl)).

Section Store.
Context {W : Type} {BR : Browser W} {CK : Clock} {IC : IsoCodec} {ST : Settings}
  {JD : JsonDump} {UL : Unlink}.
Import SessionManager.

(** [is_session_valid], case by case: no metadata file; a metadata file
    that declares no expiry; an expiry in the past; an expiry not yet
    reached.  The clock is read in the last two cases, and before the
    comparison with an offset-aware expiry raises. *)
Lemma is_session_valid_eq {R} (s : state W) :
  is_session_valid (R:=R) s =
    match files s !! session_info_file with
    | None => (Normal false, s)
    | Some _ =>
        match declared_expiry (files s) with
        | None =>
            (Normal false,
             emit (ELog ERROR "セッション有効性確認でエラー")
               (if expiry_is_aware (files s) then tick s else s))
        | Some e =>
            if (e <? clock_reading (ticks s))%Z
            then (Normal false, emit (ELog INFO "セッションが期限切れです") (tick s))
            else (Normal true, tick s)
        end
    end.
Proof.
  unfold is_session_valid, declared_expiry, expiry_is_aware. run.
  destruct (files s !! session_info_file) as [[v | raw] |] eqn:Ef;
    run; rewrite ?Ef; run; try done.
  destruct v as [| b | n | bits | str | l | d]; run; try done.
  destruct (assoc_get d "expires_at") as [x |] eqn:Ex; run.
  - destruct x as [| b | n | bits | str | l | d']; run; try done.
    destruct (fromisoformat str); run.
    + by destruct (_ <? _)%Z.
    + by destruct (fromisoformat_aware str).
  - rewrite fromisoformat_empty, fromisoformat_aware_empty. done.
Qed.

(** Whether [is_session_valid] answers [True], and that it writes no
    file. *)
Lemma is_session_valid_result {R} (s : state W) :
  fst (is_session_valid (R:=R) s) =
    Normal match declared_expiry (files s) with
           | Some e => negb (e <? clock_reading (ticks s))%Z
           | None => false
           end /\
  files (snd (is_session_valid (R:=R) s)) = files s.
Proof.
  rewrite is_session_valid_eq. unfold declared_expiry.
  destruct (files s !! session_info_file) as [c |] eqn:Ef; [| done].
  destruct c as [[| | | | | | d] |]; try (by destruct (expiry_is_aware _)).
  destruct (assoc_get d "expires_at") as [[| | | | x | |] |];
    try (by destruct (expiry_is_aware _)).
  destruct (fromisoformat x); [| by destruct (expiry_is_aware _)].
  by destruct (_ <? _)%Z.
Qed.

Lemma declared_expiry_metadata fs e :
  declared_expiry fs = Some e ->
  exists d, fs !! session_info_file = Some (JsonText (PDict d)).
Proof.
  unfold declared_expiry. intros Hd.
  destruct (fs !! session_info_file) as [[[| | | | | | d] |] |]; try done.
  by exists d.
Qed.

(** What [load_session] returns, from the files and the clock. *)
Lemma load_session_result {R} (s : state W) :
  fst (load_session (R:=R) s) =
    Normal
      match declared_expiry (files s) with
      | None => None
      | Some e =>
          if (e <? clock_reading (ticks s))%Z then None
          else
            match stored_cookies (files s), files s !! session_info_file with
            | Some cookies, Some (JsonText session_info) =>
                Some (PDict [("cookies", cookies); ("session_info", session_info)])
            | _, _ => None
            end
      end.
Proof.
  unfold load_session. unfold def at 1, try_except_Exception at 1, bind at 1.
  rewrite is_session_valid_eq.
  destruct (declared_expiry (files s)) as [e |] eqn:Ed.
  - destruct (declared_expiry_metadata _ _ Ed) as [d Ef]. rewrite Ef.
    destruct (e <? clock_reading (ticks s))%Z; run; [done |].
    unfold stored_cookies.
    destruct (files s !! cookies_file) as [[c | raw] |] eqn:Ec;
      repeat (progress (run; rewrite ?Ec, ?Ef)); done.
  - by destruct (files s !! session_info_file).
Qed.

(** [get_session_status] reports an invalid session when the metadata
    declares no expiry or one that has passed. *)
Lemma get_session_status_invalid {R} (s : state W) :
  (forall e, declared_expiry (files s) = Some e -> (e < clock_reading (ticks s))%Z) ->
  fst (get_session_status (R:=R) s) = Normal (StatusInvalid "expired_or_missing").
Proof.
  intros Hexp. unfold get_session_status.
  unfold def at 1, try_except_Exception at 1, bind at 1.
  rewrite is_session_valid_eq.
  destruct (declared_expiry (files s)) as [e |] eqn:Ed.
  - specialize (Hexp e eq_refl). apply Z.ltb_lt in Hexp. rewrite Hexp.
    by destruct (files s !! session_info_file).
  - by destruct (files s !! session_info_file).
Qed.

Lemma assoc_get_set d key v key' :
  assoc_get (assoc_set d key v) key' =
    if String.eqb key key' then Some v else assoc_get d key'.
Proof.
  induction d as [| [k x] d IH]; simpl.
  - done.
  - destruct (String.eqb_spec k key) as [-> | Hk]; simpl.
    + by destruct (String.eqb key key').
    + rewrite IH. destruct (String.eqb_spec k key') as [-> | Hk']; [| done].
      destruct (String.eqb_spec key key') as [-> | ?]; done.
Qed.

(** The state a successful [save_session] leaves: both files written,
    three clock readings consumed, one line logged. *)
Lemma save_session_Normal {R} cookies user_info (s s' : state W) :
  save_session (R:=R) cookies user_info s = (Normal tt, s') ->
  exists cookies' info,
    json_dump cookies = inr cookies' /\
    json_dump (or_empty user_info) = inr info /\
    s' = emit (ELog INFO "セッション情報を保存しました")
           (State (page s)
              (<[session_info_file :=
                   JsonText (PDict
                     [("created_at", PStr (isoformat (clock_reading (ticks s))));
                      ("expires_at",
                       PStr (isoformat (clock_reading (S (ticks s)) +
                                        session_timeout * 1000000)));
                      ("user_info", info);
                      ("last_activity",
                       PStr (isoformat (clock_reading (S (S (ticks s))))))])]>
                 (<[cookies_file := JsonText cookies']> (files s)))
              (locked s) (S (S (S (ticks s)))) (trace s)).
Proof.
  unfold save_session. run. case_bool_decide; run; [done |].
  destruct (json_dump cookies) as [e | cookies'] eqn:Ec; run.
  { by destruct (is_Exception e). }
  destruct (_ && _); run; [| done].
  case_bool_decide; run; [done |]. rewrite json_dump_record.
  destruct (json_dump (or_empty user_info)) as [e | info] eqn:Ei; run.
  { by destruct (is_Exception e). }
  intros [= <-]. by exists cookies', info.
Qed.

(** The three ways [update_last_activity] leaves the metadata file. *)
Lemma update_last_activity_cases {R} (s : state W) :
  let s' := snd (update_last_activity (R:=R) s) in
  (forall p, p <> session_info_file -> files s' !! p = files s !! p) /\
  (files s' !! session_info_file = files s !! session_info_file \/
   exists d,
     files s !! session_info_file = Some (JsonText (PDict d)) /\
     (session_info_file ∉ locked s) /\
     let d' := assoc_set d "last_activity"
                 (PStr (isoformat (clock_reading (ticks s)))) in
     if dumpable (PDict d')
     then files s' !! session_info_file = Some (JsonText (PDict d'))
     else unparsable (files s') session_info_file).
Proof.
  unfold update_last_activity, unparsable. run.
  destruct (files s !! session_info_file) as [[v | raw] |] eqn:Ef;
    repeat (progress (run; rewrite ?Ef)); try (split; [done | by left]).
  destruct v as [| b | n | bits | str | l | d];
    repeat (progress (run; rewrite ?Ef)); try (split; [done | by left]).
  case_bool_decide as Hl; run; [split; [done | by left] |].
  match goal with |- context [if ?c then _ else _] => destruct c eqn:Hd end; run.
  - split; [intros p Hp; by apply lookup_insert_ne |].
    right. exists d. rewrite Hd. repeat split; try done. apply lookup_insert_eq.
  - split; [intros p Hp; by apply lookup_insert_ne |].
    right. exists d. rewrite Hd. repeat split; try done.
    eexists. apply lookup_insert_eq.
Qed.

(** The rewrite that goes through. *)
Lemma update_last_activity_rewrites {R} (s : state W) d :
  files s !! session_info_file = Some (JsonText (PDict d)) ->
  session_info_file ∉ locked s ->
  dumpable (PDict (assoc_set d "last_activity"
             (PStr (isoformat (clock_reading (ticks s)))))) = true ->
  update_last_activity (R:=R) s =
    (Normal tt,
     set_files (<[session_info_file :=
                    JsonText (PDict (assoc_set d "last_activity"
                      (PStr (isoformat (clock_reading (ticks s))))))]> (files s))
       (tick s)).
Proof.
  intros Hd Hl Hdump. unfold update_last_activity. run.
  rewrite Hd. run. rewrite Hd. run.
  rewrite bool_decide_eq_false_2 by done. by rewrite Hdump.
Qed.

(** The session manager's readers write no file. *)
Lemma readers_keep_files {R} (s : state W) :
  files (snd (is_session_valid (R:=R) s)) = files s /\
  files (snd (load_session (R:=R) s)) = files s /\
  files (snd (get_session_status (R:=R) s)) = files s.
Proof.
  assert (forall A (m : block W R A),
            effects (fun _ => True) (fun _ => False) (fun _ => True) m ->
            files (snd (m s)) = files s) as Hkeep.
  { intros A m Hm. eapply within_files. apply Hm. }
  assert (forall R' (E : exn -> Prop), (forall e, E e) ->
            effects (fun _ => True) (fun _ => False) E
              (is_session_valid (W:=W) (R:=R'))) as Hvalid.
  { intros R' E HE. unfold is_session_valid.
    effects_auto; solve [done | by left]. }
  repeat split; apply Hkeep.
  - by apply Hvalid.
  - unfold load_session.
    effects_auto; solve [done | by left | apply Hvalid; intros; by right].
  - unfold get_session_status.
    effects_auto; solve [done | by left | apply Hvalid; intros; by right].
Qed.

(** What [clear_session] leaves of the metadata file: nothing, or the
    file as it was. *)
Lemma clear_session_metadata {R} (s : state W) :
  let s' := snd (clear_session (R:=R) s) in
  files s' !! session_info_file = None \/
  files s' !! session_info_file = files s !! session_info_file.
Proof.
  unfold clear_session. run.
  destruct (files s !! cookies_file) as [c |] eqn:Ec; run; rewrite ?Ec; run.
  - destruct (unlink_refused cookies_file); run; [by right |].
    rewrite lookup_delete_ne by done.
    destruct (files s !! session_info_file) as [c' |] eqn:Ei; run;
      rewrite ?lookup_delete_ne by done; rewrite ?Ei; run.
    + destruct (unlink_refused session_info_file); run.
      * right. by rewrite lookup_delete_ne.
      * left. apply lookup_delete_eq.
    + by left.
  - destruct (files s !! session_info_file) as [c' |] eqn:Ei; run; rewrite ?Ei; run.
    + destruct (unlink_refused session_info_file); run; [by right |].
      left. apply lookup_delete_eq.
    + by left.
Qed.

(** C10. [update_last_activity] without a metadata file is a silent
    no-op: it returns normally and leaves the whole state as it was (no
    file created or changed, the clock not read, nothing logged). *)
Theorem update_last_activity_without_metadata {R} (s : state W) :
  files s !! session_info_file = None ->
  update_last_activity (R:=R) s = (Normal tt, s).
Proof. intros Hf. unfold update_last_activity. run. by rewrite Hf. Qed.

(** C5, as amended.  A successful [save_session] writes a metadata record
    whose [created_at], [expires_at] and [last_activity] come from three
    successive clock readings: [expires_at] is the second reading plus
    [session_timeout] seconds, hence [created_at] plus the timeout exactly
    when the clock shows the same time at both readings.
    [update_last_activity], however it ends, leaves every other file as
    it was and the metadata file in one of three ways: as it was; the
    dict it held with [last_activity] set to the clock reading and every
    other key as before, when the file can be opened for writing and the
    dict can be written; or cut to a text that does not parse, when the
    dict holds a text that cannot be encoded.  No operation of the
    session manager other than [save_session] writes an expiry: after
    [update_last_activity], [is_session_valid], [load_session],
    [get_session_status] and [clear_session] the metadata declares the
    expiry it declared before, or none. *)
Theorem fixed_window_expiry {R} :
  (forall cookies user_info (s s' : state W),
     save_session (R:=R) cookies user_info s = (Normal tt, s') ->
     exists info,
       json_dump (or_empty user_info) = inr info /\
       files s' !! session_info_file =
         Some (JsonText (PDict
           [("created_at", PStr (isoformat (clock_reading (ticks s))));
            ("expires_at",
             PStr (isoformat (clock_reading (S (ticks s)) +
                              session_timeout * 1000000)));
            ("user_info", info);
            ("last_activity",
             PStr (isoformat (clock_reading (S (S (ticks s))))))]))) /\
  (forall (s : state W) o s',
     update_last_activity (R:=R) s = (o, s') ->
     (forall p, p <> session_info_file -> files s' !! p = files s !! p) /\
     (files s' !! session_info_file = files s !! session_info_file \/
      (exists d,
         files s !! session_info_file = Some (JsonText (PDict d)) /\
         files s' !! session_info_file =
           Some (JsonText (PDict (assoc_set d "last_activity"
                   (PStr (isoformat (clock_reading (ticks s))))))) /\
         forall key, key <> "last_activity" ->
           metadata_field (files s') key = metadata_field (files s) key) \/
      unparsable (files s') session_info_file) /\
     (forall d,
        files s !! session_info_file = Some (JsonText (PDict d)) ->
        session_info_file ∉ locked s ->
        dumpable (PDict (assoc_set d "last_activity"
                   (PStr (isoformat (clock_reading (ticks s)))))) = true ->
        files s' !! session_info_file =
          Some (JsonText (PDict (assoc_set d "last_activity"
                  (PStr (isoformat (clock_reading (ticks s))))))))) /\
  (forall s : state W,
     Forall (fun s' => declared_expiry (files s') = declared_expiry (files s) \/
                       declared_expiry (files s') = None)
       [ snd (update_last_activity (R:=R) s);
         snd (is_session_valid (R:=R) s);
         snd (load_session (R:=R) s);
         snd (get_session_status (R:=R) s);
         snd (clear_session (R:=R) s) ]).
Proof.
  split; [| split].
  - intros cookies user_info s s' Hs.
    apply save_session_Normal in Hs as (cookies' & info & _ & Hi & ->).
    exists info. split; [done |]. simpl. apply lookup_insert_eq.
  - intros s o s' Hrun.
    pose proof (update_last_activity_cases (R:=R) s) as [Hother Hmeta].
    rewrite Hrun in Hother, Hmeta. simpl in Hother, Hmeta.
    split; [exact Hother |]. split.
    + destruct Hmeta as [Hsame | (d & Hd & _ & Hd')]; [by left | right].
      simpl in Hd'. destruct (dumpable _); [left | by right].
      exists d. repeat split; try done.
      intros key Hkey. unfold metadata_field. rewrite Hd', Hd, assoc_get_set.
      by destruct (String.eqb_spec "last_activity" key).
    + intros d Hd Hl Hdump.
      rewrite (update_last_activity_rewrites _ _ Hd Hl Hdump) in Hrun.
      injection Hrun as _ <-. simpl. apply lookup_insert_eq.
  - intros s.
    destruct (readers_keep_files (R:=R) s) as (Hv & Hl & Hg).
    rewrite !Forall_cons.
    split; [| split; [| split; [| split; [| split; [| constructor]]]]].
    + pose proof (update_last_activity_cases (R:=R) s) as [_ Hmeta].
      simpl in Hmeta. unfold declared_expiry.
      destruct Hmeta as [-> | (d & Hd & _ & Hd')]; [by left |].
      simpl in Hd'. destruct (dumpable _).
      * left. rewrite Hd', Hd, assoc_get_set. done.
      * right. destruct Hd' as [raw ->]. done.
    + left. by rewrite Hv.
    + left. by rewrite Hl.
    + left. by rewrite Hg.
    + unfold declared_expiry.
      destruct (clear_session_metadata (R:=R) s) as [-> | ->]; [by right | by left].
Qed.

(** C9, as amended.  Round trip: when [save_session] has returned and the
    clock read by the following [load_session] has not passed the expiry
    just written, [load_session] returns what [json] reads back from the
    two texts: the cookies and, under [user_info], the user's object
    ([{}] for a false one), each as [json_dump] renders it.  A JSON
    value (a dict keyed by texts, a list, a text, a number, a truth
    value or [None]) comes back as itself. *)
Theorem save_then_load {R} cookies user_info (s s1 : state W) :
  save_session (R:=R) cookies user_info s = (Normal tt, s1) ->
  (clock_reading (ticks s1) <=
     clock_reading (S (ticks s)) + session_timeout * 1000000)%Z ->
  exists cookies' info created_at expires_at last_activity,
    json_dump cookies = inr cookies' /\
    json_dump (or_empty user_info) = inr info /\
    fst (load_session (R:=R) s1) =
      Normal (Some (PDict
        [("cookies", cookies');
         ("session_info",
          PDict [("created_at", PStr created_at);
                 ("expires_at", PStr expires_at);
                 ("user_info", info);
                 ("last_activity", PStr last_activity)])])) /\
    (forall v, cookies = of_json v -> proper v = true -> cookies' = v) /\
    (forall v, or_empty user_info = of_json v -> proper v = true -> info = v).
Proof.
  intros Hs Hnow.
  apply save_session_Normal in Hs as (cookies' & info & Hc & Hi & Hs).
  exists cookies', info. do 3 eexists. split; [done |]. split; [done |]. split.
  - rewrite load_session_result.
    rewrite Hs in Hnow |- *. simpl in *. unfold declared_expiry, stored_cookies.
    rewrite lookup_insert_eq. simpl. rewrite fromisoformat_isoformat.
    apply Z.ltb_ge in Hnow. rewrite Hnow.
    rewrite lookup_insert_ne by done. rewrite lookup_insert_eq. reflexivity.
  - split.
    + intros v -> Hp. rewrite json_dump_proper in Hc by done.
      destruct (dumpable v); congruence.
    + intros v Hv Hp. rewrite Hv, json_dump_proper in Hi by done.
      destruct (dumpable v); congruence.
Qed.

(** C7, as amended.  [load_session] returns [None] when the metadata file
    is missing, does not parse to a dict with the ISO text of a timestamp
    under [expires_at], or declares an expiry before the clock reading,
    and also when the cookie file exists and does not parse; in every
    other case it returns the cookies (the empty list when there is no
    cookie file) and the metadata.  With no declared expiry or with one in
    the past, [get_session_status] reports an invalid session too,
    whatever the cookie file holds. *)
Theorem load_session_cases {R} (s : state W) :
  fst (load_session (R:=R) s) =
    Normal
      match declared_expiry (files s) with
      | None => None
      | Some e =>
          if (e <? clock_reading (ticks s))%Z then None
          else
            match stored_cookies (files s), files s !! session_info_file with
            | Some cookies, Some (JsonText session_info) =>
                Some (PDict [("cookies", cookies); ("session_info", session_info)])
            | _, _ => None
            end
      end /\
  ((forall e, declared_expiry (files s) = Some e ->
              (e < clock_reading (ticks s))%Z) ->
   fst (load_session (R:=R) s) = Normal None /\
   exists st, fst (get_session_status (R:=R) s) = Normal st /\ is_valid st = false).
Proof.
  split; [apply load_session_result |].
  intros Hexp. split.
  - rewrite load_session_result.
    destruct (declared_expiry (files s)) as [e |]; [| done].
    specialize (Hexp e eq_refl). apply Z.ltb_lt in Hexp. by rewrite Hexp.
  - eexists. split; [by apply get_session_status_invalid | done].
Qed.

End Store.

(** ** Running a block step by step *)

Section Steps.
Context {W : Type}.

Lemma bind_Normal {R A B} (m : block W R A) (k : A -> block W R B) s a s' :
  m s = (Normal a, s') -> bind m k s = k a s'.
Proof. intros Hm. unfold bind. by rewrite Hm. Qed.

Lemma bind_Returned {R A B} (m : block W R A) (k : A -> block W R B) s r s' :
  m s = (Returned r, s') -> bind m k s = (Returned r, s').
Proof. intros Hm. unfold bind. by rewrite Hm. Qed.

Lemma bind_Raised {R A B} (m : block W R A) (k : A -> block W R B) s e s' :
  m s = (Raised e, s') -> bind m k s = (Raised e, s').
Proof. intros Hm. unfold bind. by rewrite Hm. Qed.

End Steps.

(** ** The login run *)

Section Login.
Context {W : Type} {BR : Browser W} {CK : Clock} {IC : IsoCodec} {ST : Settings}
  {JD : JsonDump} {UL : Unlink}.
Import Authenticator.


(** [first_match] only probes, and only the selectors it was given. *)
Lemma effects_first_match (P : event -> Prop) Q E {R} selectors timeout :
  (forall selector, selector ∈ selectors -> P (EProbe selector timeout)) ->
  effects P Q E (first_match (R:=R) selectors timeout).
Proof.
  induction selectors as [| selector rest IH]; intros HP; simpl.
  - apply effects_ret.
  - effects_auto; try done; try (apply HP; set_solver).
    apply IH. intros x Hx. apply HP. set_solver.
Qed.

Lemma effects_probe_indicators (P : event -> Prop) Q (E : exn -> Prop) indicators :
  (forall selector, selector ∈ indicators -> P (EProbe selector 2000)) ->
  effects P Q E (probe_indicators indicators).
Proof.
  induction indicators as [| indicator rest IH]; intros HP; simpl.
  - apply effects_ret.
  - effects_auto; try done; try (apply HP; set_solver).
    apply IH. intros x Hx. apply HP. set_solver.
Qed.

Lemma effects__is_logged_in (P : event -> Prop) Q E {R} :
  (forall selector, selector ∈ login_indicators -> P (EProbe selector 2000)) ->
  (forall msg, P (ELog ERROR msg)) ->
  effects P Q E (_is_logged_in (R:=R)).
Proof.
  intros HP HL. unfold _is_logged_in. effects_auto; try apply HL.
  by apply effects_probe_indicators.
Qed.

(** A probe of a login indicator, of an e-mail or of a password selector
    is no look for the submit control. *)
Lemma not_submit_attempt selector timeout :
  selector ∈ login_indicators ++ email_selectors ++ password_selectors ->
  is_submit_attempt (EProbe selector timeout) = false.
Proof.
  intros Hin. simpl. apply bool_decide_eq_false. revert selector Hin.
  apply Forall_forall. compute_done.
Qed.


(** One turn of the candidate loop is one look at the page. *)
Lemma try_wait_for_selector {R} selector timeout (s : state W) :
  try_except (wait_for_selector (R:=R) selector timeout) (ret None) s =
    (Normal (fst (probe selector timeout s)), snd (probe selector timeout s)).
Proof.
  unfold try_except, wait_for_selector, browser_call, probe.
  by destruct (page_wait_for_selector selector timeout (page s)) as [[e | [h |]] w].
Qed.

Lemma first_match_cons {R} selector rest timeout (s : state W) :
  first_match (R:=R) (selector :: rest) timeout s =
    match fst (probe selector timeout s) with
    | Some h => (Normal (Some h), snd (probe selector timeout s))
    | None => first_match (R:=R) rest timeout (snd (probe selector timeout s))
    end.
Proof.
  cbn [first_match]. unfold bind at 1. rewrite try_wait_for_selector.
  by destruct (fst (probe selector timeout s)).
Qed.

Lemma trace_probe selector timeout (s : state W) :
  trace (snd (probe selector timeout s)) = trace s ++ [EProbe selector timeout].
Proof.
  unfold probe. by destruct (page_wait_for_selector selector timeout (page s)).
Qed.

Lemma trace_probed timeout selectors (s : state W) :
  trace (probed timeout selectors s) = trace s ++ probes timeout selectors.
Proof.
  revert s. induction selectors as [| selector rest IH]; intros s.
  - simpl. by rewrite app_nil_r.
  - change (probed timeout (selector :: rest) s)
      with (probed timeout rest (snd (probe selector timeout s))).
    rewrite IH, trace_probe. simpl. by rewrite <- app_assoc.
Qed.

(** C6. Candidate resolution: [first_match] never raises.  It looks for
    the selectors in the order of the list, each on the page the looks
    before it left.  When it returns a handle, every selector before the
    matching one was looked for and found nothing, the matching look
    returned that handle, and the run stopped in the state that look
    left: the events are the probes up to the matching one and no more.
    When it returns [None], every selector of the list was looked for
    and found nothing, and the events are the probes of all of them. *)
Theorem first_match_resolution {R} selectors timeout (s : state W) :
  exists r s',
    first_match (R:=R) selectors timeout s = (Normal r, s') /\
    match r with
    | Some h =>
        exists before selector after,
          selectors = before ++ selector :: after /\
          (forall b1 x b2, before = b1 ++ x :: b2 ->
             fst (probe x timeout (probed timeout b1 s)) = None) /\
          probe selector timeout (probed timeout before s) = (Some h, s') /\
          trace s' = trace s ++ probes timeout (before ++ [selector])
    | None =>
        (forall b1 x b2, selectors = b1 ++ x :: b2 ->
           fst (probe x timeout (probed timeout b1 s)) = None) /\
        s' = probed timeout selectors s /\
        trace s' = trace s ++ probes timeout selectors
    end.
Proof.
  revert s. induction selectors as [| selector rest IH]; intros s.
  - exists None, s. split; [done |]. repeat split.
    + intros b1 x b2 Hl. by destruct b1.
    + simpl. by rewrite app_nil_r.
  - rewrite first_match_cons.
    destruct (probe selector timeout s) as [[h |] s1] eqn:Ep; simpl.
    + exists (Some h), s1. split; [done |].
      exists [], selector, rest. repeat split.
      * intros b1 x b2 Hl. by destruct b1.
      * done.
      * simpl. by rewrite <- (trace_probe selector timeout s), Ep.
    + assert (forall b1, probed timeout (selector :: b1) s = probed timeout b1 s1)
        as Hstep by (intros b1; unfold probed; simpl; by rewrite Ep).
      destruct (IH s1) as (r & s' & Hrun & Hr). exists r, s'. split; [done |].
      assert (forall l,
                (forall b1 x b2, l = b1 ++ x :: b2 ->
                   fst (probe x timeout (probed timeout b1 s1)) = None) ->
                forall b1 x b2, selector :: l = b1 ++ x :: b2 ->
                  fst (probe x timeout (probed timeout b1 s)) = None) as Hnone.
      { intros l Hl [| y b1] x b2 Heq; simplify_eq/=.
        - by rewrite Ep.
        - rewrite Hstep. by eapply Hl. }
      assert (trace s1 = trace s ++ [EProbe selector timeout]) as Ht
        by (by rewrite <- (trace_probe selector timeout s), Ep).
      destruct r as [h |].
      * destruct Hr as (before & sel & after & -> & Hb & Hp & Htr).
        exists (selector :: before), sel, after. repeat split.
        -- by apply Hnone.
        -- by rewrite Hstep.
        -- rewrite Htr, Ht. by rewrite <- app_assoc.
      * destruct Hr as (Hb & -> & Htr). repeat split.
        -- by apply Hnone.
        -- by rewrite ?Hstep, ?Ep.
        -- rewrite Htr, Ht. by rewrite <- app_assoc.
Qed.


(** Neither fill nor click, and nothing written: what every step of
    [login] before the click satisfies, the fills apart. *)
Lemma login_navigate_quiet (P : event -> Prop) Q :
  (forall e, is_fill e = false -> is_click e = false ->
             is_submit_attempt e = false -> P e) ->
  effects P Q (fun _ => True) login_navigate.
Proof.
  intros HP. unfold login_navigate. effects_auto; try done; by apply HP.
Qed.

Lemma _is_logged_in_quiet (P : event -> Prop) Q E {R} :
  (forall e, is_fill e = false -> is_click e = false ->
             is_submit_attempt e = false -> P e) ->
  effects P Q E (_is_logged_in (R:=R)).
Proof.
  intros HP. apply effects__is_logged_in.
  - intros selector Hin. apply HP; try done.
    apply not_submit_attempt. apply elem_of_app. by left.
  - intros msg. by apply HP.
Qed.

Lemma first_match_quiet (P : event -> Prop) Q E {R} selectors timeout :
  (forall e, is_fill e = false -> is_click e = false -> P e) ->
  effects P Q E (first_match (R:=R) selectors timeout).
Proof. intros HP. apply effects_first_match. intros. by apply HP. Qed.

(** C3. Idempotent login: when the login page opens and settles and the
    [_is_logged_in] check that follows returns [True], [login] returns
    [True] after logging that the session is already open, and the events
    of the whole run hold no fill and no click. *)
Theorem login_already_authenticated {R} email password (s0 s1 s2 : state W) :
  login_navigate s0 = (Normal tt, s1) ->
  _is_logged_in (R:=bool) s1 = (Normal true, s2) ->
  login (R:=R) email password s0 =
    (Normal true, emit (ELog INFO "既にログイン済みです") s2) /\
  exists evs,
    trace (emit (ELog INFO "既にログイン済みです") s2) = trace s0 ++ evs /\
    Forall (fun e => is_fill e = false /\ is_click e = false) evs.
Proof.
  intros Hnav Hin. split.
  - unfold login, def, try_except_Exception.
    rewrite (bind_Normal _ _ _ _ _ Hnav).
    erewrite bind_Returned; [done |].
    unfold login_short_circuit. by rewrite (bind_Normal _ _ _ _ _ Hin).
  - set (P := fun e => is_fill e = false /\ is_click e = false).
    assert (within P (fun _ => True) s0 (emit (ELog INFO "既にログイン済みです") s2))
      as [Hev _]; [| exact Hev].
    eapply within_trans.
    { eapply effects_within; [| exact Hnav]. by apply login_navigate_quiet. }
    eapply within_trans.
    { eapply effects_within; [| exact Hin].
      by apply (_is_logged_in_quiet _ _ (fun _ => True)). }
    by apply within_emit.
Qed.

(** C4, as amended.  Invalid credentials: when the page opens, the
    session is not yet open, both fields are found and filled, the button
    is found and clicked, the page settles and the [_is_logged_in] check
    after the submission returns [False], [login] returns [False], the
    value it returns for every failure, after logging the failed login,
    and the files are those of the start: no session was written. *)
Theorem login_verification_failed {R} email password h1 h2 h3
    (s0 s1 s2 s3 s4 s5 s6 s7 s8 s9 s10 : state W) :
  login_navigate s0 = (Normal tt, s1) ->
  _is_logged_in (R:=bool) s1 = (Normal false, s2) ->
  first_match (R:=bool) email_selectors 2000 s2 = (Normal (Some h1), s3) ->
  fill (R:=bool) h1 email s3 = (Normal tt, s4) ->
  first_match (R:=bool) password_selectors 2000
    (emit (ELog INFO "メールアドレスを入力") s4) = (Normal (Some h2), s5) ->
  fill (R:=bool) h2 password s5 = (Normal tt, s6) ->
  first_match (R:=bool) login_selectors 2000
    (emit (ELog INFO "パスワードを入力") s6) = (Normal (Some h3), s7) ->
  click (R:=bool) h3 s7 = (Normal tt, s8) ->
  wait_for_load_state (R:=bool) "networkidle"
    (emit (ELog INFO "ログインボタンをクリック") s8) = (Normal tt, s9) ->
  _is_logged_in (R:=bool) s9 = (Normal false, s10) ->
  login (R:=R) email password s0 =
    (Normal false, emit (ELog ERROR "ログインに失敗しました") s10) /\
  files (emit (ELog ERROR "ログインに失敗しました") s10) = files s0.
Proof.
  intros Hnav Hin He Hfe Hp Hfp Hb Hc Hw Hout. split.
  - assert (login_short_circuit s1 = (Normal tt, s2)) as Hsc.
    { unfold login_short_circuit. by rewrite (bind_Normal _ _ _ _ _ Hin). }
    assert (login_fill_email email s2 =
              (Normal tt, emit (ELog INFO "メールアドレスを入力") s4)) as Hem.
    { unfold login_fill_email. rewrite (bind_Normal _ _ _ _ _ He).
      by rewrite (bind_Normal _ _ _ _ _ Hfe). }
    assert (login_fill_password password (emit (ELog INFO "メールアドレスを入力") s4) =
              (Normal tt, emit (ELog INFO "パスワードを入力") s6)) as Hpw.
    { unfold login_fill_password. rewrite (bind_Normal _ _ _ _ _ Hp).
      by rewrite (bind_Normal _ _ _ _ _ Hfp). }
    assert (login_click_submit (emit (ELog INFO "パスワードを入力") s6) =
              (Normal tt, emit (ELog INFO "ログインボタンをクリック") s8)) as Hcl.
    { unfold login_click_submit. rewrite (bind_Normal _ _ _ _ _ Hb).
      by rewrite (bind_Normal _ _ _ _ _ Hc). }
    unfold login, def, try_except_Exception.
    rewrite (bind_Normal _ _ _ _ _ Hnav), (bind_Normal _ _ _ _ _ Hsc),
      (bind_Normal _ _ _ _ _ Hem), (bind_Normal _ _ _ _ _ Hpw),
      (bind_Normal _ _ _ _ _ Hcl).
    unfold login_verify.
    by rewrite (bind_Normal _ _ _ _ _ Hw), (bind_Normal _ _ _ _ _ Hout).
  - simpl.
    set (P := fun _ : event => True). set (E := fun _ : exn => True).
    assert (forall (m : block W bool unit) s s', effects P (fun _ => False) E m ->
              m s = (Normal tt, s') -> files s' = files s) as Hunit.
    { intros m s s' Hm Hs. eapply within_files, effects_within; eauto. }
    assert (forall A (m : block W bool A) s o s', effects P (fun _ => False) E m ->
              m s = (o, s') -> files s' = files s) as Hkeep.
    { intros A m s o s' Hm Hs. eapply within_files, effects_within; eauto. }
    rewrite (Hkeep _ _ _ _ _ (_is_logged_in_quiet P _ E (fun _ _ _ _ => I)) Hout).
    rewrite (Hkeep _ (wait_for_load_state _) _ _ _
               (effects_browser_call P _ E _ _ I (fun _ => I)) Hw). simpl.
    rewrite (Hkeep _ (click _) _ _ _
               (effects_browser_call P _ E _ _ I (fun _ => I)) Hc).
    rewrite (Hkeep _ _ _ _ _ (first_match_quiet P _ E _ _ (fun _ _ _ => I)) Hb). simpl.
    rewrite (Hkeep _ (fill _ _) _ _ _
               (effects_browser_call P _ E _ _ I (fun _ => I)) Hfp).
    rewrite (Hkeep _ _ _ _ _ (first_match_quiet P _ E _ _ (fun _ _ _ => I)) Hp). simpl.
    rewrite (Hkeep _ (fill _ _) _ _ _
               (effects_browser_call P _ E _ _ I (fun _ => I)) Hfe).
    rewrite (Hkeep _ _ _ _ _ (first_match_quiet P _ E _ _ (fun _ _ _ => I)) He).
    rewrite (Hkeep _ _ _ _ _ (_is_logged_in_quiet P _ E (fun _ _ _ _ => I)) Hin).
    exact (Hkeep _ _ _ _ _ (login_navigate_quiet P _ (fun _ _ _ _ => I)) Hnav).
Qed.


(** C8, as amended.  Missing password field: when the page opens, the
    session is not yet open, the e-mail field is found and filled, and
    the resolution of the password selectors ends with [None], every one
    of them having been probed without a match, [login] returns [False],
    the value it returns for every failure, after logging that the
    password field was not found, and the events of the whole run hold no
    probe of a login-button selector and no click. *)
Theorem login_password_field_missing {R} email password h
    (s0 s1 s2 s3 s4 s5 : state W) :
  login_navigate s0 = (Normal tt, s1) ->
  _is_logged_in (R:=bool) s1 = (Normal false, s2) ->
  first_match (R:=bool) email_selectors 2000 s2 = (Normal (Some h), s3) ->
  fill (R:=bool) h email s3 = (Normal tt, s4) ->
  first_match (R:=bool) password_selectors 2000
    (emit (ELog INFO "メールアドレスを入力") s4) = (Normal None, s5) ->
  login (R:=R) email password s0 =
    (Normal false, emit (ELog ERROR "パスワード入力欄が見つかりません") s5) /\
  exists evs,
    trace (emit (ELog ERROR "パスワード入力欄が見つかりません") s5) = trace s0 ++ evs /\
    Forall (fun e => is_submit_attempt e = false) evs.
Proof.
  intros Hnav Hin He Hfe Hp. split.
  - assert (login_short_circuit s1 = (Normal tt, s2)) as Hsc.
    { unfold login_short_circuit. by rewrite (bind_Normal _ _ _ _ _ Hin). }
    assert (login_fill_email email s2 =
              (Normal tt, emit (ELog INFO "メールアドレスを入力") s4)) as Hem.
    { unfold login_fill_email. rewrite (bind_Normal _ _ _ _ _ He).
      by rewrite (bind_Normal _ _ _ _ _ Hfe). }
    unfold login, def, try_except_Exception.
    rewrite (bind_Normal _ _ _ _ _ Hnav), (bind_Normal _ _ _ _ _ Hsc),
      (bind_Normal _ _ _ _ _ Hem).
    erewrite bind_Returned; [done |].
    unfold login_fill_password. by rewrite (bind_Normal _ _ _ _ _ Hp).
  - set (P := fun e => is_submit_attempt e = false).
    set (E := fun _ : exn => True).
    assert (forall A (m : block W bool A) s o s',
              effects P (fun _ => True) E m -> m s = (o, s') ->
              within P (fun _ => True) s s') as Hstep.
    { intros A m s o s' Hm Hs. eapply effects_within; eauto. }
    assert (forall selectors,
              (forall x, x ∈ selectors ->
                 x ∈ login_indicators ++ email_selectors ++ password_selectors) ->
              effects P (fun _ => True) E (first_match (R:=bool) selectors 2000))
      as Hfm.
    { intros selectors Hsub. apply effects_first_match.
      intros x Hx. by apply not_submit_attempt, Hsub. }
    assert (within P (fun _ => True) s0
              (emit (ELog ERROR "パスワード入力欄が見つかりません") s5)) as [Hev _];
      [| exact Hev].
    eapply within_trans;
      [exact (Hstep _ _ _ _ _ (login_navigate_quiet P _ (fun _ _ _ Hs => Hs)) Hnav) |].
    eapply within_trans;
      [exact (Hstep _ _ _ _ _ (_is_logged_in_quiet P _ E (fun _ _ _ Hs => Hs)) Hin) |].
    eapply within_trans; [apply (Hstep _ _ _ _ _ (Hfm email_selectors
                  ltac:(intros x Hx; rewrite !elem_of_app; tauto)) He) |].
    eapply within_trans;
      [exact (Hstep _ (fill _ _) _ _ _
                (effects_browser_call P _ E (EFill h email) _ eq_refl (fun _ => I))
                Hfe) |].
    eapply (within_trans _ _ _ (emit (ELog INFO "メールアドレスを入力") s4));
      [by apply within_emit |].
    eapply within_trans;
      [apply (Hstep _ _ _ _ _ (Hfm password_selectors
                  ltac:(intros x Hx; rewrite !elem_of_app; tauto)) Hp) |].
    by apply within_emit.
Qed.

End Login.

(** ** Outcomes and the cookie file *)

Section Outcomes.
Context {W : Type} {BR : Browser W} {CK : Clock} {IC : IsoCodec} {ST : Settings}
  {JD : JsonDump} {UL : Unlink}.
Import SessionManager Authenticator.







(** *** The value [login] returns and the lines it logs *)












Lemma quiet_probe selector timeout : success_line (EProbe selector timeout) = false.
Proof. done. Qed.














(** C2, as amended.  [SessionManager.load_session] treats the cookie file
    as absent when the metadata declares no expiry or one that has passed:
    it returns [None], whatever the cookie file holds.
    [TradeIslandAuthenticator._load_session] does not read the metadata:
    whenever the cookie file exists and parses, it hands the parsed value
    to [context.add_cookies]. *)
Theorem cookies_and_metadata {R} :
  (forall s : state W,
     (forall e, declared_expiry (files s) = Some e ->
                (e < clock_reading (ticks s))%Z) ->
     fst (load_session (R:=R) s) = Normal None) /\
  (forall (s : state W) v,
     files s !! session_file = Some (JsonText v) ->
     exists o s' evs,
       _load_session (R:=R) s = (o, s') /\
       trace s' = trace s ++ EAddCookies v :: evs /\
       page s' = snd (context_add_cookies v (page s))).
Proof.
  split.
  - intros s Hexp. rewrite load_session_result.
    destruct (declared_expiry (files s)) as [e |]; [| done].
    specialize (Hexp e eq_refl). apply Z.ltb_lt in Hexp. by rewrite Hexp.
  - intros s v Hf. unfold _load_session. run. rewrite Hf. run. rewrite Hf.
    unfold add_cookies, browser_call. simpl.
    destruct (context_add_cookies v (page s)) as [[e | []] w]; simpl.
    + destruct (is_Exception e); simpl; do 3 eexists; repeat split;
        simpl; try rewrite <- app_assoc; reflexivity.
    + do 3 eexists; repeat split; simpl; try rewrite <- app_assoc; reflexivity.
Qed.

End Outcomes.

(** ** Runs on the scripted page *)

Section Runs.
Import Fixture Pages SessionManager Authenticator.
#[local] Existing Instance fake_browser.
#[local] Existing Instance codec.
#[local] Existing Instance clock.
#[local] Existing Instance site.
#[local] Existing Instance writer.
#[local] Existing Instance open_directory.

(** The session is already open: [login] returns [True] and the run holds
    no fill and no click. *)
Lemma login_already_authenticated_run :
  let s0 := world member_page ∅ in
  let s1 := snd (login_navigate s0) in
  let s2 := snd (_is_logged_in (R:=bool) s1) in
  login (R:=unit) "user@example.com" "secret" s0 =
    (Normal true, emit (ELog INFO "既にログイン済みです") s2) /\
  exists evs,
    trace (emit (ELog INFO "既にログイン済みです") s2) = trace s0 ++ evs /\
    Forall (fun e => is_fill e = false /\ is_click e = false) evs.
Proof.
  intros s0 s1 s2.
  apply (login_already_authenticated "user@example.com" "secret" s0 s1 s2);
    vm_compute; reflexivity.
Defined.

(** The form comes back after the submission: [login] returns [False] and
    the files are those of the start. *)
Lemma login_verification_failed_run :
  let email := "user@example.com" in
  let password := "secret" in
  let s0 := world rejecting_form ∅ in
  let s1 := snd (login_navigate s0) in
  let s2 := snd (_is_logged_in (R:=bool) s1) in
  let s3 := snd (first_match (R:=bool) email_selectors 2000 s2) in
  let s4 := snd (fill (R:=bool) 0%nat email s3) in
  let s5 := snd (first_match (R:=bool) password_selectors 2000
                   (emit (ELog INFO "メールアドレスを入力") s4)) in
  let s6 := snd (fill (R:=bool) 1%nat password s5) in
  let s7 := snd (first_match (R:=bool) login_selectors 2000
                   (emit (ELog INFO "パスワードを入力") s6)) in
  let s8 := snd (click (R:=bool) 2%nat s7) in
  let s9 := snd (wait_for_load_state (R:=bool) "networkidle"
                   (emit (ELog INFO "ログインボタンをクリック") s8)) in
  let s10 := snd (_is_logged_in (R:=bool) s9) in
  login (R:=unit) email password s0 =
    (Normal false, emit (ELog ERROR "ログインに失敗しました") s10) /\
  files (emit (ELog ERROR "ログインに失敗しました") s10) = files s0.
Proof.
  intros email password s0 s1 s2 s3 s4 s5 s6 s7 s8 s9 s10.
  apply (login_verification_failed (R:=unit) email password 0%nat 1%nat 2%nat
           s0 s1 s2 s3 s4 s5 s6 s7 s8 s9 s10);
    vm_compute; reflexivity.
Defined.

(** Only the e-mail field is there: [login] returns [False] and the run
    holds no probe of a login-button selector and no click. *)
Lemma login_password_field_missing_run :
  let email := "user@example.com" in
  let password := "secret" in
  let s0 := world email_only_page ∅ in
  let s1 := snd (login_navigate s0) in
  let s2 := snd (_is_logged_in (R:=bool) s1) in
  let s3 := snd (first_match (R:=bool) email_selectors 2000 s2) in
  let s4 := snd (fill (R:=bool) 0%nat email s3) in
  let s5 := snd (first_match (R:=bool) password_selectors 2000
                   (emit (ELog INFO "メールアドレスを入力") s4)) in
  login (R:=unit) email password s0 =
    (Normal false, emit (ELog ERROR "パスワード入力欄が見つかりません") s5) /\
  exists evs,
    trace (emit (ELog ERROR "パスワード入力欄が見つかりません") s5) = trace s0 ++ evs /\
    Forall (fun e => is_submit_attempt e = false) evs.
Proof.
  intros email password s0 s1 s2 s3 s4 s5.
  apply (login_password_field_missing (R:=unit) email password 0%nat
           s0 s1 s2 s3 s4 s5);
    vm_compute; reflexivity.
Defined.

(** Two candidates before the one that matches: [first_match] probes the
    three in order and stops. *)
Example first_match_third_candidate :
  first_match (R:=unit) email_selectors 2000 (world (login_form "about:blank" []) ∅) =
    (Normal (Some 0%nat),
     State (login_form "about:blank" []) ∅ ∅ O
       (probes 2000 (take 3 email_selectors))).
Proof. vm_compute. reflexivity. Qed.

(** The same run through the resolution of the candidates: two probes
    that find nothing, then the probe that finds the field and ends the
    search. *)
Lemma first_match_resolution_run :
  let s := world (login_form "about:blank" []) ∅ in
  let s' := State (login_form "about:blank" []) ∅ ∅ O
              (probes 2000 (take 3 email_selectors)) in
  exists before selector after,
    email_selectors = before ++ selector :: after /\
    (forall b1 x b2,
       before = b1 ++ x :: b2 ->
       fst (probe x 2000 (probed 2000 b1 s)) = None) /\
    probe selector 2000 (probed 2000 before s) = (Some 0%nat, s') /\
    trace s' = trace s ++ probes 2000 (before ++ [selector]).
Proof.
  intros s s'.
  destruct (first_match_resolution (R:=unit) email_selectors 2000 s)
    as (r & s1 & Hrun & Hr).
  assert (first_match (R:=unit) email_selectors 2000 s =
            (Normal (Some 0%nat), s')) as Hc by (vm_compute; reflexivity).
  rewrite Hc in Hrun. injection Hrun as <- <-. exact Hr.
Defined.

(** No metadata file: [update_last_activity] changes nothing. *)
Lemma update_last_activity_without_metadata_run :
  update_last_activity (R:=unit) (world blank_page cookies_only) =
    (Normal tt, world blank_page cookies_only).
Proof.
  apply (update_last_activity_without_metadata (world blank_page cookies_only)).
  vm_compute. reflexivity.
Defined.

(** On a frozen clock the expiry written by [save_session] is the
    creation time plus the timeout, and [update_last_activity] on a fresh
    session moves [last_activity] only. *)
Lemma fixed_window_expiry_run :
  (let s' := snd (save_session (CK:=frozen_clock T0) (R:=unit)
                    (of_json (PList [sample_cookie])) ONone
                    (world blank_page ∅)) in
   files s' !! session_info_file = Some (JsonText fresh_metadata)) /\
  (let s := State blank_page fresh_session ∅ 5%nat [] in
   let s' := snd (update_last_activity (R:=unit) s) in
   files s' !! cookies_file = files s !! cookies_file /\
   files s' !! session_info_file =
     Some (JsonText (PDict
       [("created_at", PStr (isoformat T0));
        ("expires_at", PStr (isoformat (T0 + 3600 * 1000000)));
        ("user_info", PDict []);
        ("last_activity", PStr (isoformat (T0 + 5)))]))).
Proof.
  split.
  - intros s'.
    assert (save_session (CK:=frozen_clock T0) (R:=unit)
              (of_json (PList [sample_cookie])) ONone
              (world blank_page ∅) = (Normal tt, s')) as Hrun
      by (vm_compute; reflexivity).
    destruct (proj1 (fixed_window_expiry (CK:=frozen_clock T0) (R:=unit))
                (of_json (PList [sample_cookie])) ONone (world blank_page ∅) s' Hrun)
      as (info & Hi & Hmeta).
    vm_compute in Hi. injection Hi as <-.
    vm_compute in Hmeta. vm_compute. exact Hmeta.
  - intros s s'.
    assert (update_last_activity (R:=unit) s = (Normal tt, s')) as Hrun
      by (vm_compute; reflexivity).
    destruct (proj1 (proj2 (fixed_window_expiry (R:=unit))) s (Normal tt) s' Hrun)
      as (Hother & _ & Hrewrite).
    split; [apply Hother; discriminate |].
    rewrite (Hrewrite (match fresh_metadata with PDict d => d | _ => [] end)).
    + vm_compute. reflexivity.
    + vm_compute. reflexivity.
    + vm_compute. intros Hin. discriminate Hin.
    + vm_compute. reflexivity.
Defined.

(** Saved and loaded at once: the cookies and the user map come back. *)
Lemma save_then_load_run :
  exists created_at expires_at last_activity,
    fst (load_session (R:=unit)
           (snd (save_session (R:=unit) (of_json (PList [sample_cookie]))
                   (of_json (PDict [("nickname", PStr "taro")]))
                   (world blank_page ∅)))) =
      Normal (Some (PDict
        [("cookies", PList [sample_cookie]);
         ("session_info",
          PDict [("created_at", PStr created_at);
                 ("expires_at", PStr expires_at);
                 ("user_info", PDict [("nickname", PStr "taro")]);
                 ("last_activity", PStr last_activity)])])).
Proof.
  set (s := world blank_page ∅).
  set (s1 := snd (save_session (R:=unit) (of_json (PList [sample_cookie]))
                    (of_json (PDict [("nickname", PStr "taro")])) s)).
  assert (save_session (R:=unit) (of_json (PList [sample_cookie]))
            (of_json (PDict [("nickname", PStr "taro")])) s = (Normal tt, s1))
    as Hsave by (vm_compute; reflexivity).
  assert (clock_reading (ticks s1) <=
            clock_reading (S (ticks s)) + session_timeout * 1000000)%Z as Hnow
    by (vm_compute; discriminate).
  destruct (save_then_load (R:=unit) _ _ s s1 Hsave Hnow)
    as (cookies' & info & created_at & expires_at & last_activity &
        _ & _ & Hload & Hc & Hi).
  rewrite (Hc (PList [sample_cookie]) eq_refl eq_refl) in Hload.
  rewrite (Hi (PDict [("nickname", PStr "taro")]) eq_refl eq_refl) in Hload.
  exists created_at, expires_at, last_activity. exact Hload.
Defined.

(** An expiry one second in the past: [load_session] returns [None] and
    [get_session_status] reports an invalid session, with a parsable
    cookie file in place. *)
Lemma load_session_cases_run :
  fst (load_session (R:=unit) (world blank_page stale_session)) = Normal None /\
  exists st,
    fst (get_session_status (R:=unit) (world blank_page stale_session)) = Normal st /\
    is_valid st = false.
Proof.
  assert (forall e,
            declared_expiry (files (world blank_page stale_session)) = Some e ->
            (e < clock_reading (ticks (world blank_page stale_session)))%Z) as Hexp.
  { intros e He. vm_compute in He. injection He as <-. vm_compute. reflexivity. }
  exact (proj2 (load_session_cases (R:=unit) (world blank_page stale_session)) Hexp).
Defined.


(** A cookie file and no metadata: [load_session] returns [None],
    [_load_session] hands the cookies to the browser. *)
Lemma cookies_and_metadata_run :
  fst (load_session (R:=unit) (world blank_page cookies_only)) = Normal None /\
  exists o s' evs,
    _load_session (R:=unit) (world blank_page cookies_only) = (o, s') /\
    trace s' = EAddCookies (PList [sample_cookie]) :: evs /\
    fp_jar (page s') = [sample_cookie].
Proof.
  split.
  - assert (forall e,
              declared_expiry (files (world blank_page cookies_only)) = Some e ->
              (e < clock_reading (ticks (world blank_page cookies_only)))%Z) as Hexp.
    { intros e He. vm_compute in He. discriminate He. }
    exact (proj1 (cookies_and_metadata (R:=unit)) (world blank_page cookies_only) Hexp).
  - assert (files (world blank_page cookies_only) !! session_file =
              Some (JsonText (PList [sample_cookie]))) as Hfile
      by (vm_compute; reflexivity).
    destruct (proj2 (cookies_and_metadata (R:=unit)) (world blank_page cookies_only)
                (PList [sample_cookie]) Hfile) as (o & s' & evs & Hr & Ht & Hp).
    exists o, s', evs. split; [exact Hr |]. split; [exact Ht |].
    rewrite Hp. reflexivity.
Defined.


(** C4 fails on the code.  A rejected submission makes [login] return
    [False], the value it also returns when the button is missing and
    when the browser is offline: nothing in what it returns says that the
    verification failed. *)
Lemma verification_failure_is_a_bare_false :
  let rejected := login (R:=unit) "user@example.com" "wrong" (world rejecting_form ∅) in
  let no_button := login (R:=unit) "user@example.com" "wrong"
                     (world form_without_button ∅) in
  let offline := login (R:=unit) "user@example.com" "wrong" (world offline_page ∅) in
  fst rejected = Normal false /\
  fst no_button = fst rejected /\
  fst offline = fst rejected /\
  last (trace (snd rejected)) = Some (ELog ERROR "ログインに失敗しました").
Proof. vm_compute. repeat split. Qed.

(** C8 fails on the code.  With the password field missing [login]
    returns [False], the value it also returns when the e-mail field is
    missing and when the submission is rejected: what it returns names
    neither the kind of the failure nor the field. *)
Lemma missing_password_field_is_a_bare_false :
  let no_password := login (R:=unit) "user@example.com" "secret"
                       (world email_only_page ∅) in
  let no_email := login (R:=unit) "user@example.com" "secret" (world blank_page ∅) in
  let rejected := login (R:=unit) "user@example.com" "secret"
                    (world rejecting_form ∅) in
  fst no_password = Normal false /\
  fst no_email = fst no_password /\
  fst rejected = fst no_password /\
  last (trace (snd no_password)) =
    Some (ELog ERROR "パスワード入力欄が見つかりません").
Proof. vm_compute. repeat split. Qed.

(** C9 fails on the code.  A user map keyed by the integer 1 is saved,
    and what [load_session] returns at once is keyed by the text [1]; a
    user map with a set in it makes [save_session] raise, and nothing is
    loaded. *)
Lemma int_keys_come_back_as_text :
  let info := ODict [(KInt 1, OStr "a")] in
  let s1 := save_session (R:=unit) (OList []) info (world blank_page ∅) in
  let s2 := save_session (R:=unit) (OList []) (ODict [(KStr "tags", OOther true)])
              (world blank_page ∅) in
  fst s1 = Normal tt /\
  (exists record,
     fst (load_session (R:=unit) (snd s1)) =
       Normal (Some (PDict [("cookies", PList []); ("session_info", PDict record)])) /\
     assoc_get record "user_info" = Some (PDict [("1", PStr "a")])) /\
  of_json (PDict [("1", PStr "a")]) <> info /\
  fst s2 = Raised TypeError /\
  fst (load_session (R:=unit) (snd s2)) = Normal None.
Proof.
  vm_compute. repeat split; try discriminate. eexists. split; reflexivity.
Qed.

(** C2 fails on the code.  With a cookie file and no metadata file,
    [is_session_valid] answers [False], yet [_load_session] adds the
    cookies of the file to the browser context. *)
Lemma cookies_restored_without_metadata :
  let s := world blank_page cookies_only in
  files s !! session_info_file = None /\
  fst (is_session_valid (R:=unit) s) = Normal false /\
  _load_session (R:=unit) s =
    (Normal tt,
     State (FakePage "about:blank" [] "about:blank" [] [sample_cookie] false)
       cookies_only ∅ O
       [EAddCookies (PList [sample_cookie]); ELog INFO "セッションを復元しました"]).
Proof. vm_compute. repeat split. Qed.

(** C5 fails on the code.  On a clock that advances by a microsecond
    between two readings, [save_session] at [T0] with a timeout of 3600
    seconds writes [T0] as the creation time and [T0] plus the timeout
    plus one microsecond as the expiry. *)
Lemma expiry_is_not_creation_plus_timeout :
  let s' := snd (save_session (R:=unit) (of_json (PList [sample_cookie])) ONone
                   (world blank_page ∅)) in
  metadata_field (files s') "created_at" = Some (PStr (isoformat T0)) /\
  declared_expiry (files s') = Some (T0 + session_timeout * 1000000 + 1)%Z /\
  declared_expiry (files s') <> Some (T0 + session_timeout * 1000000)%Z.
Proof. vm_compute. repeat split. discriminate. Qed.

(** C7 fails on the code.  The metadata file exists, parses and declares
    an expiry that the clock has not reached, and [load_session] returns
    [None]: the cookie file does not parse. *)
Lemma valid_metadata_and_no_record :
  let s := world blank_page fresh_with_bad_cookies in
  declared_expiry (files s) = Some (T0 + 3600 * 1000000)%Z /\
  (clock_reading (ticks s) <= T0 + 3600 * 1000000)%Z /\
  fst (load_session (R:=unit) s) = Normal None.
Proof. vm_compute. repeat split. discriminate. Qed.

End Runs.
(** ** More on the session store *)

Section StoreMore.
Context {W : Type} {BR : Browser W} {CK : Clock} {IC : IsoCodec} {ST : Settings}
  {JD : JsonDump} {UL : Unlink}.
Import SessionManager.

Lemma cookies_file_not_info : cookies_file <> session_info_file.
Proof. discriminate. Qed.

(** [save_session], case by case, in the order in which it can fail. *)
Lemma save_session_eq {R} cookies user_info (s : state W) :
  save_session (R:=R) cookies user_info s =
    if bool_decide (cookies_file ∈ locked s)
    then (Raised PermissionError, emit (ELog ERROR "セッション保存でエラー") s)
    else
      match json_dump cookies with
      | inl e =>
          (Raised e,
           emit (ELog ERROR "セッション保存でエラー")
             (set_files (<[cookies_file := BadText (dump_prefix cookies)]> (files s)) s))
      | inr cookies' =>
          let written := <[cookies_file := JsonText cookies']> (files s) in
          let expiry := (clock_reading (S (ticks s)) + session_timeout * 1000000)%Z in
          let record :=
            ODict [(KStr "created_at", OStr (isoformat (clock_reading (ticks s))));
                   (KStr "expires_at", OStr (isoformat expiry));
                   (KStr "user_info", or_empty user_info);
                   (KStr "last_activity",
                    OStr (isoformat (clock_reading (S (S (ticks s))))))] in
          if negb ((0 <=? expiry)%Z && (expiry <=? MAX_US)%Z)
          then (Raised OverflowError,
                emit (ELog ERROR "セッション保存でエラー")
                  (State (page s) written (locked s) (S (S (ticks s))) (trace s)))
          else if bool_decide (session_info_file ∈ locked s)
          then (Raised PermissionError,
                emit (ELog ERROR "セッション保存でエラー")
                  (State (page s) written (locked s) (S (S (S (ticks s)))) (trace s)))
          else
            match json_dump (or_empty user_info) with
            | inl e =>
                (Raised e,
                 emit (ELog ERROR "セッション保存でエラー")
                   (State (page s)
                      (<[session_info_file := BadText (dump_prefix record)]> written)
                      (locked s) (S (S (S (ticks s)))) (trace s)))
            | inr info =>
                (Normal tt,
                 emit (ELog INFO "セッション情報を保存しました")
                   (State (page s)
                      (<[session_info_file :=
                           JsonText (PDict
                             [("created_at",
                               PStr (isoformat (clock_reading (ticks s))));
                              ("expires_at", PStr (isoformat expiry));
                              ("user_info", info);
                              ("last_activity",
                               PStr (isoformat (clock_reading (S (S (ticks s))))))])]>
                         written)
                      (locked s) (S (S (S (ticks s)))) (trace s)))
            end
      end.
Proof.
  unfold save_session. run. case_bool_decide; run; [done |].
  destruct (json_dump cookies) as [e | cookies'] eqn:Ec; run.
  { by rewrite (json_dump_Exception _ _ Ec). }
  destruct (_ && _); run; [| done].
  case_bool_decide; run; [done |]. rewrite json_dump_record.
  destruct (json_dump (or_empty user_info)) as [e | info] eqn:Ei; run; [| done].
  by rewrite (json_dump_Exception _ _ Ei).
Qed.


(** A [save_session] that fails once the cookie file is open. *)
Lemma failed_save_files {R} cookies user_info (s : state W) o s' :
  save_session (R:=R) cookies user_info s = (o, s') ->
  cookies_file ∉ locked s ->
  o <> Normal tt ->
  (forall p, p <> cookies_file -> p <> session_info_file ->
             files s' !! p = files s !! p) /\
  match json_dump cookies with
  | inl e =>
      o = Raised e /\
      unparsable (files s') cookies_file /\
      files s' !! session_info_file = files s !! session_info_file
  | inr cookies' =>
      files s' !! cookies_file = Some (JsonText cookies') /\
      ((o = Raised OverflowError \/ o = Raised PermissionError) /\
       files s' !! session_info_file = files s !! session_info_file \/
       exists e,
         json_dump (or_empty user_info) = inl e /\ o = Raised e /\
         unparsable (files s') session_info_file)
  end.
Proof.
  rewrite save_session_eq. intros Hs Hc Ho. unfold unparsable.
  rewrite bool_decide_eq_false_2 in Hs by done.
  destruct (json_dump cookies) as [e | cookies'] eqn:Ec.
  { injection Hs as <- <-. simpl. split; [| split; [done | split]].
    - intros p Hp _. by apply lookup_insert_ne.
    - eexists. apply lookup_insert_eq.
    - by apply lookup_insert_ne. }
  cbv zeta in Hs.
  destruct (negb _).
  { injection Hs as <- <-. simpl. split; [| split].
    - intros p Hp _. by apply lookup_insert_ne.
    - apply lookup_insert_eq.
    - left. split; [by left |]. by apply lookup_insert_ne. }
  case_bool_decide.
  { injection Hs as <- <-. simpl. split; [| split].
    - intros p Hp _. by apply lookup_insert_ne.
    - apply lookup_insert_eq.
    - left. split; [by right |]. by apply lookup_insert_ne. }
  destruct (json_dump (or_empty user_info)) as [e | info] eqn:Ei;
    injection Hs as <- <-; [| done]. simpl. split; [| split].
  - intros p Hp Hi. by rewrite !lookup_insert_ne.
  - rewrite lookup_insert_ne by done. apply lookup_insert_eq.
  - right. exists e. repeat split. eexists. apply lookup_insert_eq.
Qed.


(** X3. What [load_session] finds after a failed save.  When the save
    raised [OverflowError] or [PermissionError] with the cookie file
    open, and the metadata already on disk declares an expiry the clock
    has not passed, [load_session] returns the cookies of the failed save
    together with that old metadata.  When the save raised because
    [json] could not write the user's object, [load_session] returns
    [None], whatever session was there before. *)
Theorem load_after_failed_save {R} cookies user_info (s : state W) e s' :
  save_session (R:=R) cookies user_info s = (Raised e, s') ->
  cookies_file ∉ locked s ->
  (e = OverflowError \/ e = PermissionError ->
   forall session_info expiry,
     files s !! session_info_file = Some (JsonText session_info) ->
     declared_expiry (files s) = Some expiry ->
     (clock_reading (ticks s') <= expiry)%Z ->
     exists cookies',
       json_dump cookies = inr cookies' /\
       fst (load_session (R:=R) s') =
         Normal (Some (PDict [("cookies", cookies');
                              ("session_info", session_info)]))) /\
  (serialisable cookies -> json_dump (or_empty user_info) = inl e ->
   fst (load_session (R:=R) s') = Normal None).
Proof.
  intros Hs Hc.
  destruct (failed_save_files _ _ _ _ _ Hs Hc ltac:(done)) as [_ Hcases].
  split.
  - intros He session_info expiry Hm Hd Hnow.
    destruct (json_dump cookies) as [e' | cookies'] eqn:Ec.
    { destruct Hcases as ([= <-] & _).
      apply json_dump_raises in Ec. destruct He, Ec; congruence. }
    exists cookies'. split; [done |].
    destruct Hcases as (Hck & [[_ Hi] | (e' & He' & [= <-] & _)]).
    2: { apply json_dump_raises in He'. destruct He, He'; congruence. }
    rewrite load_session_result.
    assert (declared_expiry (files s') = Some expiry) as ->.
    { unfold declared_expiry in *. by rewrite Hi. }
    apply Z.ltb_ge in Hnow. rewrite Hnow. unfold stored_cookies.
    by rewrite Hi, Hm, Hck.
  - intros [cookies' Hck] Hi. rewrite Hck in Hcases.
    destruct Hcases as (_ & [[He _] | (e' & _ & _ & raw & Hraw)]).
    { apply json_dump_raises in Hi. destruct He as [[= ->] | [= ->]], Hi; congruence. }
    rewrite load_session_result. unfold declared_expiry. by rewrite Hraw.
Qed.

(** [clear_session], case by case. *)
Lemma clear_session_eq {R} (s : state W) :
  clear_session (R:=R) s =
    if stays (files s) cookies_file
    then (Normal tt, emit (ELog ERROR "セッションクリアでエラー") s)
    else if stays (files s) session_info_file
    then (Normal tt,
          emit (ELog ERROR "セッションクリアでエラー")
            (set_files (delete cookies_file (files s)) s))
    else (Normal tt,
          emit (ELog INFO "セッション情報をクリアしました")
            (set_files (delete session_info_file (delete cookies_file (files s))) s)).
Proof.
  unfold clear_session, stays. run.
  destruct (files s !! cookies_file) as [c |] eqn:Ec; run; rewrite ?Ec; run.
  - destruct (unlink_refused cookies_file); run; [done |].
    rewrite lookup_delete_ne by discriminate.
    destruct (files s !! session_info_file) as [i |] eqn:Ei; run.
    + rewrite lookup_delete_ne by discriminate. rewrite Ei.
      by destruct (unlink_refused session_info_file).
    + unfold set_files. simpl. rewrite (delete_id (delete _ _)); [done |].
      by rewrite lookup_delete_ne by discriminate.
  - rewrite (delete_id (files s)) by done.
    destruct (files s !! session_info_file) as [i |] eqn:Ei; run; rewrite ?Ei.
    + destruct (unlink_refused session_info_file); run; [| done]. by destruct s.
    + rewrite (delete_id (files s)) by done. by destruct s.
Qed.

(** X4. [clear_session] never raises, touches no third file and logs one
    line.  When no file that is there refuses to go, it removes the
    cookie file and the metadata file and logs that the session was
    cleared.  A cookie file that cannot be removed ends it at once: the
    metadata file is not tried, both files stay and an error is logged.
    A metadata file that cannot be removed stays, behind a cookie file
    already removed. *)
Theorem clear_session_removes_both {R} (s : state W) :
  exists s',
    clear_session (R:=R) s = (Normal tt, s') /\
    (forall p, p <> cookies_file -> p <> session_info_file ->
               files s' !! p = files s !! p) /\
    if stays (files s) cookies_file
    then files s' = files s /\
         trace s' = trace s ++ [ELog ERROR "セッションクリアでエラー"]
    else files s' !! cookies_file = None /\
         if stays (files s) session_info_file
         then files s' !! session_info_file = files s !! session_info_file /\
              trace s' = trace s ++ [ELog ERROR "セッションクリアでエラー"]
         else files s' !! session_info_file = None /\
              trace s' = trace s ++ [ELog INFO "セッション情報をクリアしました"].
Proof.
  rewrite clear_session_eq.
  destruct (stays (files s) cookies_file); [by eexists |].
  destruct (stays (files s) session_info_file); eexists; (split; [done |]); simpl.
  - split; [intros p Hp _; by rewrite lookup_delete_ne |].
    split; [apply lookup_delete_eq |]. split; [| done].
    by rewrite lookup_delete_ne.
  - split; [intros p Hp Hi; by rewrite !lookup_delete_ne |].
    split; [rewrite lookup_delete_ne by done; apply lookup_delete_eq |].
    split; [apply lookup_delete_eq | done].
Qed.

(** X5. Once the metadata file is gone, nothing is a session any more,
    whatever was stored: after a [clear_session] on files that let
    themselves be removed, [is_session_valid] answers [False] without
    reading the clock or logging, [load_session] returns [None],
    [get_session_status] reports [expired_or_missing], and a second
    [clear_session] changes no file. *)
Theorem cleared_store_has_no_session {R} (s : state W) :
  stays (files s) cookies_file = false ->
  stays (files s) session_info_file = false ->
  let s' := snd (clear_session (R:=R) s) in
  is_session_valid (R:=R) s' = (Normal false, s') /\
  fst (load_session (R:=R) s') = Normal None /\
  get_session_status (R:=R) s' = (Normal (StatusInvalid "expired_or_missing"), s') /\
  files (snd (clear_session (R:=R) s')) = files s'.
Proof.
  intros Hc Hm s'. subst s'. rewrite clear_session_eq, Hc, Hm. cbn [snd].
  set (s' := emit _ _).
  assert (files s' !! session_info_file = None) as Hi by apply lookup_delete_eq.
  assert (files s' !! cookies_file = None) as Hk.
  { simpl. rewrite lookup_delete_ne by done. apply lookup_delete_eq. }
  assert (is_session_valid (R:=R) s' = (Normal false, s')) as Hv.
  { by rewrite is_session_valid_eq, Hi. }
  repeat split.
  - exact Hv.
  - rewrite load_session_result. unfold declared_expiry. by rewrite Hi.
  - unfold get_session_status, def, try_except_Exception, bind.
    assert (is_session_valid (R:=session_status) s' = (Normal false, s')) as ->.
    { by rewrite is_session_valid_eq, Hi. }
    done.
  - rewrite clear_session_eq. unfold stays. rewrite Hi, Hk. simpl.
    rewrite (delete_id (delete _ _)).
    + apply delete_id. rewrite lookup_delete_ne by discriminate.
      apply lookup_delete_eq.
    + rewrite lookup_delete_ne by discriminate. apply lookup_delete_eq.
Qed.

Lemma declared_expiry_timestamp_field (fs : gmap string content) d :
  fs !! session_info_file = Some (JsonText (PDict d)) ->
  declared_expiry fs = timestamp_field d "expires_at".
Proof. intros Hf. unfold declared_expiry, timestamp_field. by rewrite Hf. Qed.

(** [get_session_status] on well-formed, unexpired metadata. *)
Lemma get_session_status_eq {R} (s : state W) d created expires last :
  files s !! session_info_file = Some (JsonText (PDict d)) ->
  timestamp_field d "created_at" = Some created ->
  timestamp_field d "expires_at" = Some expires ->
  timestamp_field d "last_activity" = Some last ->
  (clock_reading (ticks s) <= expires)%Z ->
  get_session_status (R:=R) s =
    (Normal (StatusActive (isoformat created) (isoformat expires) (isoformat last)
               (Z.max 0 (expires - clock_reading (S (ticks s))))
               (user_info_field d)),
     tick (tick s)).
Proof.
  intros Hf Hc He Hl Hnow. unfold get_session_status.
  unfold def at 1, try_except_Exception at 1, bind at 1.
  rewrite is_session_valid_eq, Hf, (declared_expiry_timestamp_field _ _ Hf), He.
  apply Z.ltb_ge in Hnow. rewrite Hnow.
  unfold timestamp_field, user_info_field in *.
  repeat (progress (run; rewrite ?Hf)).
  destruct (assoc_get d "created_at") as [[| | | | x | |] |]; try done.
  destruct (assoc_get d "expires_at") as [[| | | | y | |] |]; try done.
  destruct (assoc_get d "last_activity") as [[| | | | z | |] |]; try done.
  run. rewrite Hc. run. rewrite He. run. rewrite Hl. run.
  by destruct (assoc_get d "user_info").
Qed.

(** X6. An active session: when the metadata holds the ISO texts of three
    timestamps and the clock has not passed the expiry,
    [get_session_status] reads the clock twice (once for the validity
    check, once for the remaining time), logs nothing, changes no file and
    returns the three timestamps re-printed, the user map (the empty map
    when the key is missing) and the time left at the second reading, cut
    off at zero. *)
Theorem get_session_status_active {R} (s : state W) d created expires last :
  files s !! session_info_file = Some (JsonText (PDict d)) ->
  timestamp_field d "created_at" = Some created ->
  timestamp_field d "expires_at" = Some expires ->
  timestamp_field d "last_activity" = Some last ->
  (clock_reading (ticks s) <= expires)%Z ->
  get_session_status (R:=R) s =
    (Normal (StatusActive (isoformat created) (isoformat expires) (isoformat last)
               (Z.max 0 (expires - clock_reading (S (ticks s))))
               (user_info_field d)),
     tick (tick s)).
Proof. apply get_session_status_eq. Qed.

(** X7. [load_session] and [get_session_status] can disagree: with an
    expiry the clock has not passed but, under [created_at] or under
    [last_activity], nothing that [datetime.fromisoformat] reads as a
    timestamp, naive or offset-aware, [get_session_status] logs an error
    and reports an invalid session with status [error], while
    [load_session] returns the record. *)
Theorem status_error_where_load_succeeds {R} (s : state W) d expires cookies :
  files s !! session_info_file = Some (JsonText (PDict d)) ->
  timestamp_field d "expires_at" = Some expires ->
  (clock_reading (ticks s) <= expires)%Z ->
  timestamp_text d "created_at" = None \/ timestamp_text d "last_activity" = None ->
  stored_cookies (files s) = Some cookies ->
  (exists e s',
     get_session_status (R:=R) s = (Normal (StatusError e), s') /\
     (e = ValueError \/ e = TypeError) /\
     last (trace s') = Some (ELog ERROR "セッション状態取得でエラー")) /\
  fst (load_session (R:=R) s) =
    Normal (Some (PDict [("cookies", cookies); ("session_info", PDict d)])).
Proof.
  intros Hf He Hnow Hbad Hck. split.
  - unfold get_session_status.
    unfold def at 1, try_except_Exception at 1, bind at 1.
    rewrite is_session_valid_eq, Hf, (declared_expiry_timestamp_field _ _ Hf), He.
    apply Z.ltb_ge in Hnow. rewrite Hnow.
    unfold timestamp_field, timestamp_text in *.
    repeat (progress (run; rewrite ?Hf)).
    destruct (assoc_get d "expires_at") as [[| | | | y | |] |]; try done.
    destruct (assoc_get d "created_at") as [[| b | n | bits | x | l | d'] |];
      run; rewrite ?fromisoformat_empty, ?fromisoformat_aware_empty; run;
      try (do 2 eexists; split; [reflexivity |]; split; [by auto |];
           simpl; by rewrite last_snoc).
    destruct (fromisoformat x) as [c |]; run.
    + rewrite He. run. destruct Hbad as [Hbad | Hbad]; [done |].
      destruct (assoc_get d "last_activity") as [[| b | n | bits | z | l | d'] |];
        run; rewrite ?fromisoformat_empty, ?fromisoformat_aware_empty; run;
        try (do 2 eexists; split; [reflexivity |]; split; [by auto |];
             simpl; by rewrite last_snoc).
      destruct (fromisoformat z); [done |]. rewrite Hbad. run.
      do 2 eexists; split; [reflexivity |]; split; [by auto |];
        simpl; by rewrite last_snoc.
    + destruct (fromisoformat_aware x) as [a |] eqn:Ea; run.
      * rewrite He. run. destruct Hbad as [Hbad | Hbad]; [done |].
        destruct (assoc_get d "last_activity") as [[| b | n | bits | z | l | d'] |];
          run; rewrite ?fromisoformat_empty, ?fromisoformat_aware_empty; run;
          try (do 2 eexists; split; [reflexivity |]; split; [by auto |];
               simpl; by rewrite last_snoc).
        destruct (fromisoformat z); [done |]. rewrite Hbad. run.
        do 2 eexists; split; [reflexivity |]; split; [by auto |];
          simpl; by rewrite last_snoc.
      * do 2 eexists; split; [reflexivity |]; split; [by auto |];
          simpl; by rewrite last_snoc.
  - rewrite load_session_result, (declared_expiry_timestamp_field _ _ Hf), He.
    apply Z.ltb_ge in Hnow. by rewrite Hnow, Hck, Hf.
Qed.

(** X8. Reading never writes: [is_session_valid], [load_session] and
    [get_session_status] leave every file as it was, however they end. *)
Theorem reading_the_store_changes_no_file {R} (s : state W) :
  files (snd (is_session_valid (R:=R) s)) = files s /\
  files (snd (load_session (R:=R) s)) = files s /\
  files (snd (get_session_status (R:=R) s)) = files s.
Proof. apply readers_keep_files. Qed.

(** X9. [update_last_activity] swallows a metadata file it cannot use:
    when the file does not parse, parses to something that is no dict, or
    cannot be opened for writing, it returns normally, logs one error
    line and changes no file. *)
Theorem update_last_activity_on_unusable_metadata {R} (s : state W) c :
  files s !! session_info_file = Some c ->
  (forall d, c = JsonText (PDict d) -> session_info_file ∈ locked s) ->
  exists s',
    update_last_activity (R:=R) s = (Normal tt, s') /\
    files s' = files s /\
    trace s' = trace s ++ [ELog ERROR "最終活動時刻更新でエラー"].
Proof.
  intros Hf Hc. unfold update_last_activity.
  repeat (progress (run; rewrite ?Hf)).
  destruct c as [[| b | n | bits | x | l | d] | raw]; run;
    try (eexists; repeat split; reflexivity).
  rewrite bool_decide_eq_true_2 by eauto. run.
  eexists; repeat split; reflexivity.
Qed.

(** X10. Saved, then asked: after a [save_session] that returned, as long
    as the clock has not passed the expiry just written,
    [get_session_status] reports an active session with the three
    timestamps [save_session] took from the clock, the user's object that
    was saved, as [json] renders it (a JSON value as itself, [{}] for
    [None]), and the time left at its own second clock reading. *)
Theorem status_after_save {R} cookies user_info (s s1 : state W) :
  let expiry := (clock_reading (S (ticks s)) + session_timeout * 1000000)%Z in
  save_session (R:=R) cookies user_info s = (Normal tt, s1) ->
  (clock_reading (ticks s1) <= expiry)%Z ->
  exists info,
    json_dump (or_empty user_info) = inr info /\
    (forall v, or_empty user_info = of_json v -> proper v = true -> info = v) /\
    get_session_status (R:=R) s1 =
      (Normal (StatusActive (isoformat (clock_reading (ticks s)))
                 (isoformat expiry)
                 (isoformat (clock_reading (S (S (ticks s)))))
                 (Z.max 0 (expiry - clock_reading (S (ticks s1))))
                 info),
       tick (tick s1)).
Proof.
  intros expiry Hs Hnow.
  apply save_session_Normal in Hs as (cookies' & info & _ & Hi & Hs).
  exists info. split; [done |]. split.
  { intros v Hv Hp. rewrite Hv, json_dump_proper in Hi by done.
    destruct (dumpable v); congruence. }
  set (d := [("created_at", PStr (isoformat (clock_reading (ticks s))));
             ("expires_at", PStr (isoformat expiry));
             ("user_info", info);
             ("last_activity", PStr (isoformat (clock_reading (S (S (ticks s))))))]).
  apply (get_session_status_eq s1 d); try done.
  - rewrite Hs. simpl. apply lookup_insert_eq.
  - unfold timestamp_field. simpl. apply fromisoformat_isoformat.
  - unfold timestamp_field. simpl. apply fromisoformat_isoformat.
  - unfold timestamp_field. simpl. apply fromisoformat_isoformat.
Qed.

End StoreMore.

(** ** More on the login run *)

Section LoginMore.
Context {W : Type} {BR : Browser W} {CK : Clock} {IC : IsoCodec} {ST : Settings}
  {JD : JsonDump} {UL : Unlink}.
Import Authenticator.

(** What the browser hands over as its cookies, [json] can write. *)
Lemma cookies_dumpable {R} (s : state W) cookies s' :
  cookies_ (R:=R) s = (Normal cookies, s') -> dumpable (PList cookies) = true.
Proof.
  unfold cookies_, browser_call.
  destruct (context_cookies (page s)) as [[e | c] w] eqn:Ec; simpl; [done |].
  intros [= <- <-]. exact (context_cookies_dumpable _ _ _ Ec).
Qed.

(** The trace and the files after [first_match]: a prefix of the probes,
    all of them when nothing matched, and no file touched. *)
Lemma first_match_probes {R} selectors timeout (s : state W) o s' :
  first_match (R:=R) selectors timeout s = (o, s') ->
  exists r k,
    o = Normal r /\
    trace s' = trace s ++ probes timeout (take k selectors) /\
    (r = None -> k = length selectors) /\
    files s' = files s.
Proof.
  revert s. induction selectors as [| selector rest IH]; intros s; simpl.
  - intros [= <- <-]. exists None, O. by rewrite app_nil_r.
  - unfold bind at 1, try_except at 1, wait_for_selector at 1, browser_call at 1.
    destruct (page_wait_for_selector selector timeout (page s)) as [[e | [h |]] w];
      simpl.
    + intros Hr. destruct (IH _ Hr) as (r & k & -> & Ht & Hk & Hf).
      exists r, (S k). simpl in *. rewrite Ht, <- app_assoc.
      repeat split; try done. intros Hn. by rewrite (Hk Hn).
    + intros [= <- <-]. exists (Some h), 1%nat. simpl. by destruct rest.
    + intros Hr. destruct (IH _ Hr) as (r & k & -> & Ht & Hk & Hf).
      exists r, (S k). simpl in *. rewrite Ht, <- app_assoc.
      repeat split; try done. intros Hn. by rewrite (Hk Hn).
Qed.

(** The indicator loop of [_is_logged_in] is the candidate loop of the
    fields: it returns [True] from the function where [first_match] finds
    a handle, and falls through where [first_match] finds none. *)
Lemma probe_indicators_first_match indicators (s : state W) :
  probe_indicators indicators s =
    match first_match (R:=bool) indicators 2000 s with
    | (Normal (Some _), s') => (Returned true, s')
    | (Normal None, s') => (Normal tt, s')
    | (Returned r, s') => (Returned r, s')
    | (Raised e, s') => (Raised e, s')
    end.
Proof.
  revert s. induction indicators as [| indicator rest IH]; intros s; simpl.
  - done.
  - unfold bind at 1 3, try_except at 1 2, bind at 1.
    destruct (wait_for_selector indicator 2000 s) as [[[h |] | r | e] s1];
      simpl; try done; apply IH.
Qed.

Lemma contains_empty s : contains EmptyString s = true.
Proof. by destruct s. Qed.

(** X11. The URL tier of [_is_logged_in]: on a page whose URL does not
    contain [/login] and contains the base URL, it returns [True] at
    once, without a probe and without any other effect.  With the base
    URL left empty, every URL without [/login] passes. *)
Theorem _is_logged_in_by_url {R} (s : state W) :
  contains "/login" (page_url (page s)) = false ->
  contains base_url (page_url (page s)) = true \/ base_url = EmptyString ->
  _is_logged_in (R:=R) s = (Normal true, s).
Proof.
  intros Hlogin Hbase. unfold _is_logged_in. run. rewrite Hlogin.
  destruct Hbase as [-> | ->]; [done |]. by rewrite contains_empty.
Qed.

(** [_is_logged_in] past the URL tier. *)
Lemma _is_logged_in_indicator_tier {R} (s : state W) r s' :
  negb (contains "/login" (page_url (page s))) &&
    contains base_url (page_url (page s)) = false ->
  first_match (R:=bool) login_indicators 2000 s = (Normal r, s') ->
  _is_logged_in (R:=R) s =
    (Normal (match r with Some _ => true | None => false end), s').
Proof.
  intros Hurl Hr. unfold _is_logged_in, def, try_except_Exception.
  unfold bind at 1, url at 1. rewrite Hurl.
  unfold bind at 1, when_ at 1, ret at 1. unfold bind at 1.
  rewrite probe_indicators_first_match, Hr. by destruct r.
Qed.

(** X12. The indicator tier of [_is_logged_in]: on any other page it
    resolves the five indicators as [first_match] does and returns
    whether one matched, in the state the resolution left. *)
Theorem _is_logged_in_by_indicator {R} (s : state W) r s' :
  negb (contains "/login" (page_url (page s))) &&
    contains base_url (page_url (page s)) = false ->
  first_match (R:=bool) login_indicators 2000 s = (Normal r, s') ->
  _is_logged_in (R:=R) s =
    (Normal (match r with Some _ => true | None => false end), s').
Proof. apply _is_logged_in_indicator_tier. Qed.

(** X13. On an open page [_is_logged_in] never raises, whatever the
    browser raises, a cancellation or an interrupt included; it only probes, and only login
    indicators, in their order; it touches no file; and it returns
    [False] only after it has probed all five. *)
Theorem _is_logged_in_only_probes {R} (s : state W) :
  exists b s' k,
    _is_logged_in (R:=R) s = (Normal b, s') /\
    trace s' = trace s ++ probes 2000 (take k login_indicators) /\
    files s' = files s /\
    (b = false -> k = 5%nat).
Proof.
  destruct (negb (contains "/login" (page_url (page s))) &&
            contains base_url (page_url (page s))) eqn:Hurl.
  - exists true, s, O. repeat split; try done.
    + unfold _is_logged_in. run. by rewrite Hurl.
    + by rewrite app_nil_r.
  - destruct (first_match (R:=bool) login_indicators 2000 s) as [o s'] eqn:Hr.
    destruct (first_match_probes _ _ _ _ _ Hr) as (r & k & -> & Ht & Hk & Hf).
    exists (match r with Some _ => true | None => false end), s', k.
    repeat split; try done.
    + by apply _is_logged_in_indicator_tier.
    + destruct r; [done |]. intros _. by apply Hk.
Qed.

(** A function whose body starts with a step that ends normally goes on
    with the rest of the body. *)
Lemma def_try_seq_Normal {R A B} (m : block W A B) (k : block W A A)
    (handler : exn -> block W A A) (s s1 : state W) b :
  m s = (Normal b, s1) ->
  def (R:=R) (try_except_Exception (m ;; k) handler) s =
  def (R:=R) (try_except_Exception k handler) s1.
Proof.
  intros Hm. unfold def, try_except_Exception.
  by rewrite (bind_Normal _ _ _ _ _ Hm).
Qed.

(** [login] from the point where the page is open and the session is
    found not to be open yet. *)
Lemma login_not_yet_authenticated {R} email password (s0 s1 s2 : state W) :
  login_navigate s0 = (Normal tt, s1) ->
  _is_logged_in (R:=bool) s1 = (Normal false, s2) ->
  login (R:=R) email password s0 =
    def (try_except_Exception
           (login_fill_email email ;;
            login_fill_password password ;;
            login_click_submit ;;
            login_verify)
           (fun e => log ERROR "ログイン処理でエラー" ;; return_ false)) s2.
Proof.
  intros Hnav Hin. unfold login.
  rewrite (def_try_seq_Normal _ _ _ _ _ _ Hnav).
  apply (def_try_seq_Normal _ _ _ _ _ tt).
  unfold login_short_circuit. by rewrite (bind_Normal _ _ _ _ _ Hin).
Qed.

(** ... and from the point where both fields are filled. *)
Lemma login_fields_filled {R} email password h1 h2 (s0 s1 s2 s3 s4 s5 s6 : state W) :
  login_navigate s0 = (Normal tt, s1) ->
  _is_logged_in (R:=bool) s1 = (Normal false, s2) ->
  first_match (R:=bool) email_selectors 2000 s2 = (Normal (Some h1), s3) ->
  fill (R:=bool) h1 email s3 = (Normal tt, s4) ->
  first_match (R:=bool) password_selectors 2000
    (emit (ELog INFO "メールアドレスを入力") s4) = (Normal (Some h2), s5) ->
  fill (R:=bool) h2 password s5 = (Normal tt, s6) ->
  login (R:=R) email password s0 =
    def (try_except_Exception
           (login_click_submit ;; login_verify)
           (fun e => log ERROR "ログイン処理でエラー" ;; return_ false))
      (emit (ELog INFO "パスワードを入力") s6).
Proof.
  intros Hnav Hin He Hfe Hp Hfp.
  rewrite (login_not_yet_authenticated _ _ _ _ _ Hnav Hin).
  erewrite def_try_seq_Normal; cycle 1.
  { unfold login_fill_email. rewrite (bind_Normal _ _ _ _ _ He).
    by rewrite (bind_Normal _ _ _ _ _ Hfe). }
  apply (def_try_seq_Normal _ _ _ _ _ tt).
  unfold login_fill_password. rewrite (bind_Normal _ _ _ _ _ Hp).
  by rewrite (bind_Normal _ _ _ _ _ Hfp).
Qed.

(** ... and from the point where the button is clicked. *)
Lemma login_submitted {R} email password h1 h2 h3
    (s0 s1 s2 s3 s4 s5 s6 s7 s8 : state W) :
  login_navigate s0 = (Normal tt, s1) ->
  _is_logged_in (R:=bool) s1 = (Normal false, s2) ->
  first_match (R:=bool) email_selectors 2000 s2 = (Normal (Some h1), s3) ->
  fill (R:=bool) h1 email s3 = (Normal tt, s4) ->
  first_match (R:=bool) password_selectors 2000
    (emit (ELog INFO "メールアドレスを入力") s4) = (Normal (Some h2), s5) ->
  fill (R:=bool) h2 password s5 = (Normal tt, s6) ->
  first_match (R:=bool) login_selectors 2000
    (emit (ELog INFO "パスワードを入力") s6) = (Normal (Some h3), s7) ->
  click (R:=bool) h3 s7 = (Normal tt, s8) ->
  login (R:=R) email password s0 =
    def (try_except_Exception login_verify
           (fun e => log ERROR "ログイン処理でエラー" ;; return_ false))
      (emit (ELog INFO "ログインボタンをクリック") s8).
Proof.
  intros Hnav Hin He Hfe Hp Hfp Hb Hc.
  rewrite (login_fields_filled _ _ _ _ _ _ _ _ _ _ _ Hnav Hin He Hfe Hp Hfp).
  apply (def_try_seq_Normal _ _ _ _ _ tt).
  unfold login_click_submit. rewrite (bind_Normal _ _ _ _ _ Hb).
  by rewrite (bind_Normal _ _ _ _ _ Hc).
Qed.

(** The steps of [login] before the check after the submission write no
    file. *)
Lemma before_verify_no_write {R' A} (m : block W R' A) (s : state W) o s' :
  effects (fun _ => True) (fun _ => False) (fun _ => True) m ->
  m s = (o, s') -> files s' = files s.
Proof. intros Hm Hs. eapply within_files, effects_within; eauto. Qed.

Lemma files_until_click email password h1 h2 h3
    (s0 s1 s2 s3 s4 s5 s6 s7 s8 : state W) :
  login_navigate s0 = (Normal tt, s1) ->
  _is_logged_in (R:=bool) s1 = (Normal false, s2) ->
  first_match (R:=bool) email_selectors 2000 s2 = (Normal (Some h1), s3) ->
  fill (R:=bool) h1 email s3 = (Normal tt, s4) ->
  first_match (R:=bool) password_selectors 2000
    (emit (ELog INFO "メールアドレスを入力") s4) = (Normal (Some h2), s5) ->
  fill (R:=bool) h2 password s5 = (Normal tt, s6) ->
  first_match (R:=bool) login_selectors 2000
    (emit (ELog INFO "パスワードを入力") s6) = (Normal (Some h3), s7) ->
  click (R:=bool) h3 s7 = (Normal tt, s8) ->
  files s8 = files s0.
Proof.
  intros Hnav Hin He Hfe Hp Hfp Hb Hc.
  set (P := fun _ : event => True). set (E := fun _ : exn => True).
  rewrite (before_verify_no_write (click _) _ _ _
             (effects_browser_call P _ E _ _ I (fun _ => I)) Hc).
  rewrite (before_verify_no_write _ _ _ _
             (first_match_quiet P _ E _ _ (fun _ _ _ => I)) Hb). simpl.
  rewrite (before_verify_no_write (fill _ _) _ _ _
             (effects_browser_call P _ E _ _ I (fun _ => I)) Hfp).
  rewrite (before_verify_no_write _ _ _ _
             (first_match_quiet P _ E _ _ (fun _ _ _ => I)) Hp). simpl.
  rewrite (before_verify_no_write (fill _ _) _ _ _
             (effects_browser_call P _ E _ _ I (fun _ => I)) Hfe).
  rewrite (before_verify_no_write _ _ _ _
             (first_match_quiet P _ E _ _ (fun _ _ _ => I)) He).
  rewrite (before_verify_no_write _ _ _ _
             (_is_logged_in_quiet P _ E (fun _ _ _ _ => I)) Hin).
  exact (before_verify_no_write _ _ _ _
           (login_navigate_quiet P _ (fun _ _ _ _ => I)) Hnav).
Qed.

(** X14. Missing e-mail field: when the page opens, the session is not
    open and no e-mail selector resolves, [login] returns [False]; after
    the login check it has probed the seven e-mail selectors in their
    order, logged the missing field and done nothing else: no fill, no
    click, no look for the password field or the button. *)
Theorem login_email_field_missing {R} email password (s0 s1 s2 s3 : state W) :
  login_navigate s0 = (Normal tt, s1) ->
  _is_logged_in (R:=bool) s1 = (Normal false, s2) ->
  first_match (R:=bool) email_selectors 2000 s2 = (Normal None, s3) ->
  login (R:=R) email password s0 =
    (Normal false, emit (ELog ERROR "メールアドレス入力欄が見つかりません") s3) /\
  trace (emit (ELog ERROR "メールアドレス入力欄が見つかりません") s3) =
    trace s2 ++ probes 2000 email_selectors ++
    [ELog ERROR "メールアドレス入力欄が見つかりません"].
Proof.
  intros Hnav Hin He. split.
  - rewrite (login_not_yet_authenticated _ _ _ _ _ Hnav Hin).
    unfold def, try_except_Exception. erewrite bind_Returned; [done |].
    unfold login_fill_email. by rewrite (bind_Normal _ _ _ _ _ He).
  - destruct (first_match_probes _ _ _ _ _ He) as (r & k & [= <-] & Ht & Hk & _).
    simpl. rewrite Ht, (Hk eq_refl), firstn_all. by rewrite <- app_assoc.
Qed.

(** X15. Missing button: when both fields are filled and no login-button
    selector resolves, [login] returns [False]; after the second fill it
    has logged the fill, probed the eight button selectors in their
    order and logged the missing button; it has written no file. *)
Theorem login_button_missing {R} email password h1 h2
    (s0 s1 s2 s3 s4 s5 s6 s7 : state W) :
  login_navigate s0 = (Normal tt, s1) ->
  _is_logged_in (R:=bool) s1 = (Normal false, s2) ->
  first_match (R:=bool) email_selectors 2000 s2 = (Normal (Some h1), s3) ->
  fill (R:=bool) h1 email s3 = (Normal tt, s4) ->
  first_match (R:=bool) password_selectors 2000
    (emit (ELog INFO "メールアドレスを入力") s4) = (Normal (Some h2), s5) ->
  fill (R:=bool) h2 password s5 = (Normal tt, s6) ->
  first_match (R:=bool) login_selectors 2000
    (emit (ELog INFO "パスワードを入力") s6) = (Normal None, s7) ->
  login (R:=R) email password s0 =
    (Normal false, emit (ELog ERROR "ログインボタンが見つかりません") s7) /\
  trace (emit (ELog ERROR "ログインボタンが見つかりません") s7) =
    trace s6 ++ [ELog INFO "パスワードを入力"] ++ probes 2000 login_selectors ++
    [ELog ERROR "ログインボタンが見つかりません"] /\
  files (emit (ELog ERROR "ログインボタンが見つかりません") s7) = files s0.
Proof.
  intros Hnav Hin He Hfe Hp Hfp Hb. repeat split.
  - rewrite (login_fields_filled _ _ _ _ _ _ _ _ _ _ _ Hnav Hin He Hfe Hp Hfp).
    unfold def, try_except_Exception. erewrite bind_Returned; [done |].
    unfold login_click_submit. by rewrite (bind_Normal _ _ _ _ _ Hb).
  - destruct (first_match_probes _ _ _ _ _ Hb) as (r & k & [= <-] & Ht & Hk & _).
    cbn [emit trace]. rewrite Ht, (Hk eq_refl), firstn_all. cbn [emit trace].
    by rewrite <- !app_assoc.
  - simpl.
    set (P := fun _ : event => True). set (E := fun _ : exn => True).
    rewrite (before_verify_no_write _ _ _ _
               (first_match_quiet P _ E _ _ (fun _ _ _ => I)) Hb). simpl.
    rewrite (before_verify_no_write (fill _ _) _ _ _
               (effects_browser_call P _ E _ _ I (fun _ => I)) Hfp).
    rewrite (before_verify_no_write _ _ _ _
               (first_match_quiet P _ E _ _ (fun _ _ _ => I)) Hp). simpl.
    rewrite (before_verify_no_write (fill _ _) _ _ _
               (effects_browser_call P _ E _ _ I (fun _ => I)) Hfe).
    rewrite (before_verify_no_write _ _ _ _
               (first_match_quiet P _ E _ _ (fun _ _ _ => I)) He).
    rewrite (before_verify_no_write _ _ _ _
               (_is_logged_in_quiet P _ E (fun _ _ _ _ => I)) Hin).
    exact (before_verify_no_write _ _ _ _
             (login_navigate_quiet P _ (fun _ _ _ _ => I)) Hnav).
Qed.

(** X16. A successful login saves the cookies and nothing else: when the
    check after the submission returns [True], the browser hands over its
    cookies and the cookie file can be written, [login] returns [True]
    and the files are those of the start with the cookie file holding
    these cookies; no metadata is written. *)
Theorem login_success_saves_cookies {R} email password h1 h2 h3 cookies
    (s0 s1 s2 s3 s4 s5 s6 s7 s8 s9 s10 s11 : state W) :
  login_navigate s0 = (Normal tt, s1) ->
  _is_logged_in (R:=bool) s1 = (Normal false, s2) ->
  first_match (R:=bool) email_selectors 2000 s2 = (Normal (Some h1), s3) ->
  fill (R:=bool) h1 email s3 = (Normal tt, s4) ->
  first_match (R:=bool) password_selectors 2000
    (emit (ELog INFO "メールアドレスを入力") s4) = (Normal (Some h2), s5) ->
  fill (R:=bool) h2 password s5 = (Normal tt, s6) ->
  first_match (R:=bool) login_selectors 2000
    (emit (ELog INFO "パスワードを入力") s6) = (Normal (Some h3), s7) ->
  click (R:=bool) h3 s7 = (Normal tt, s8) ->
  wait_for_load_state (R:=bool) "networkidle"
    (emit (ELog INFO "ログインボタンをクリック") s8) = (Normal tt, s9) ->
  _is_logged_in (R:=bool) s9 = (Normal true, s10) ->
  cookies_ (R:=unit) (emit (ELog INFO "ログインに成功しました") s10) =
    (Normal cookies, s11) ->
  session_file ∉ locked s11 ->
  login (R:=R) email password s0 =
    (Normal true,
     emit (ELog INFO "セッションを保存しました")
       (set_files (<[session_file := JsonText (PList cookies)]> (files s11)) s11)) /\
  files (emit (ELog INFO "セッションを保存しました")
           (set_files (<[session_file := JsonText (PList cookies)]> (files s11)) s11)) =
    <[session_file := JsonText (PList cookies)]> (files s0).
Proof.
  intros Hnav Hin He Hfe Hp Hfp Hb Hc Hw Hout Hck Hfree. split.
  - rewrite (login_submitted _ _ _ _ _ _ _ _ _ _ _ _ _ _
               Hnav Hin He Hfe Hp Hfp Hb Hc).
    unfold def at 1, try_except_Exception at 1, login_verify.
    rewrite (bind_Normal _ _ _ _ _ Hw), (bind_Normal _ _ _ _ _ Hout).
    unfold bind at 1, log at 1. unfold bind at 1.
    unfold _save_session, def, try_except_Exception.
    rewrite (bind_Normal _ _ _ _ _ Hck). run.
    by rewrite bool_decide_eq_false_2, (cookies_dumpable _ _ _ Hck).
  - simpl. f_equal.
    set (P := fun _ : event => True). set (E := fun _ : exn => True).
    rewrite (before_verify_no_write cookies_ _ _ _
               (effects_browser_call P _ E _ _ I (fun _ => I)) Hck). simpl.
    rewrite (before_verify_no_write _ _ _ _
               (_is_logged_in_quiet P _ E (fun _ _ _ _ => I)) Hout).
    rewrite (before_verify_no_write (wait_for_load_state _) _ _ _
               (effects_browser_call P _ E _ _ I (fun _ => I)) Hw). simpl.
    exact (files_until_click _ _ _ _ _ _ _ _ _ _ _ _ _ _
             Hnav Hin He Hfe Hp Hfp Hb Hc).
Qed.

(** X17. A failed save does not fail the login: when the check after the
    submission returns [True] but the browser raises an exception that
    derives from [Exception] when asked for its cookies, or the cookie
    file cannot be opened for writing, [login] logs the error, still
    returns [True] and leaves the files as they were at the start. *)
Theorem login_success_without_save {R} email password h1 h2 h3 o
    (s0 s1 s2 s3 s4 s5 s6 s7 s8 s9 s10 s11 : state W) :
  login_navigate s0 = (Normal tt, s1) ->
  _is_logged_in (R:=bool) s1 = (Normal false, s2) ->
  first_match (R:=bool) email_selectors 2000 s2 = (Normal (Some h1), s3) ->
  fill (R:=bool) h1 email s3 = (Normal tt, s4) ->
  first_match (R:=bool) password_selectors 2000
    (emit (ELog INFO "メールアドレスを入力") s4) = (Normal (Some h2), s5) ->
  fill (R:=bool) h2 password s5 = (Normal tt, s6) ->
  first_match (R:=bool) login_selectors 2000
    (emit (ELog INFO "パスワードを入力") s6) = (Normal (Some h3), s7) ->
  click (R:=bool) h3 s7 = (Normal tt, s8) ->
  wait_for_load_state (R:=bool) "networkidle"
    (emit (ELog INFO "ログインボタンをクリック") s8) = (Normal tt, s9) ->
  _is_logged_in (R:=bool) s9 = (Normal true, s10) ->
  cookies_ (R:=unit) (emit (ELog INFO "ログインに成功しました") s10) = (o, s11) ->
  (exists e, o = Raised e /\ is_Exception e = true) \/
  (exists cookies, o = Normal cookies /\ session_file ∈ locked s11) ->
  login (R:=R) email password s0 =
    (Normal true, emit (ELog ERROR "セッション保存でエラー") s11) /\
  files (emit (ELog ERROR "セッション保存でエラー") s11) = files s0.
Proof.
  intros Hnav Hin He Hfe Hp Hfp Hb Hc Hw Hout Hck Hfail. split.
  - rewrite (login_submitted _ _ _ _ _ _ _ _ _ _ _ _ _ _
               Hnav Hin He Hfe Hp Hfp Hb Hc).
    unfold def at 1, try_except_Exception at 1, login_verify.
    rewrite (bind_Normal _ _ _ _ _ Hw), (bind_Normal _ _ _ _ _ Hout).
    unfold bind at 1, log at 1. unfold bind at 1.
    unfold _save_session, def, try_except_Exception.
    destruct Hfail as [(e & -> & Hexc) | (cookies & -> & Hlock)].
    + rewrite (bind_Raised _ _ _ _ _ Hck), Hexc. by run.
    + rewrite (bind_Normal _ _ _ _ _ Hck). run.
      by rewrite bool_decide_eq_true_2.
  - simpl.
    set (P := fun _ : event => True). set (E := fun _ : exn => True).
    rewrite (before_verify_no_write cookies_ _ _ _
               (effects_browser_call P _ E _ _ I (fun _ => I)) Hck). simpl.
    rewrite (before_verify_no_write _ _ _ _
               (_is_logged_in_quiet P _ E (fun _ _ _ _ => I)) Hout).
    rewrite (before_verify_no_write (wait_for_load_state _) _ _ _
               (effects_browser_call P _ E _ _ I (fun _ => I)) Hw). simpl.
    exact (files_until_click _ _ _ _ _ _ _ _ _ _ _ _ _ _
             Hnav Hin He Hfe Hp Hfp Hb Hc).
Qed.

(** What [login] may do, whatever the page does: any event, a write of
    the cookie file, and no other write. *)
Lemma effects_login {R} email password :
  effects (fun _ => True) (fun p => p = session_file) (fun _ => True)
    (login (W:=W) (R:=R) email password).
Proof.
  unfold login, login_navigate, login_short_circuit, login_fill_email,
    login_fill_password, login_click_submit, login_verify, _save_session.
  effects_auto;
    solve [ done | by left | intros; tauto
          | apply effects_first_match; done
          | apply (_is_logged_in_quiet _ _ _ (fun _ _ _ _ => I)) ].
Qed.

(** X18. Whatever the page does and however [login] ends, the only file
    it can change is the cookie file: every other path, the metadata file
    of the session manager among them, holds what it held. *)
Theorem login_writes_only_the_cookie_file {R} email password (s : state W) p :
  p <> session_file ->
  files (snd (login (R:=R) email password s)) !! p = files s !! p.
Proof.
  intros Hp. destruct (effects_login (R:=R) email password s) as [[_ Hk] _].
  by apply Hk.
Qed.

(** X19. [login] does not make a session the session manager accepts:
    the expiry the metadata declares is the same before and after, so on
    a store without valid metadata [SessionManager.load_session] still
    returns [None] after [login], also after one that returned [True]. *)
Theorem login_leaves_session_manager_view {R} email password (s : state W) :
  let s' := snd (login (R:=R) email password s) in
  declared_expiry (files s') = declared_expiry (files s) /\
  (declared_expiry (files s) = None ->
   fst (SessionManager.load_session (R:=R) s') = Normal None).
Proof.
  intros s'.
  assert (declared_expiry (files s') = declared_expiry (files s)) as Hd.
  { unfold declared_expiry, s'.
    destruct (effects_login (R:=R) email password s) as [[_ Hk] _].
    by rewrite Hk. }
  split; [exact Hd |]. intros Hnone.
  by rewrite load_session_result, Hd, Hnone.
Qed.

(** X20. A navigation that fails ends the attempt: when [page.goto]
    raises, nothing else is asked of the page; [login] logs the error and
    returns [False] if the exception derives from [Exception], and lets
    it through to its caller if it does not. *)
Theorem login_navigation_error {R} email password (s s1 : state W) e :
  goto (R:=bool) login_url s = (Raised e, s1) ->
  login (R:=R) email password s =
    (if is_Exception e
     then (Normal false, emit (ELog ERROR "ログイン処理でエラー") s1)
     else (Raised e, s1)) /\
  trace s1 = trace s ++ [EGoto login_url].
Proof.
  intros Hg. split.
  - unfold login, def, try_except_Exception.
    erewrite bind_Raised;
      [| unfold login_navigate; by rewrite (bind_Raised _ _ _ _ _ Hg)].
    by destruct (is_Exception e).
  - unfold goto, browser_call in Hg.
    destruct (page_goto login_url (page s)) as [o w]. by injection Hg as _ <-.
Qed.

(** X21. [_load_session] on a cookie file it cannot use: with no cookie
    file it does nothing at all; a cookie file that does not parse, or
    cookies the browser context refuses with an exception that derives
    from [Exception], are logged as an error and the function returns
    normally, so that the start of the browser goes on. *)
Theorem _load_session_unusable_file {R} (s : state W) :
  (files s !! session_file = None ->
   _load_session (R:=R) s = (Normal tt, s)) /\
  (forall raw, files s !! session_file = Some (BadText raw) ->
   _load_session (R:=R) s =
     (Normal tt, emit (ELog ERROR "セッション復元でエラー") s)) /\
  (forall v e w, files s !! session_file = Some (JsonText v) ->
   context_add_cookies v (page s) = (inl e, w) ->
   is_Exception e = true ->
   _load_session (R:=R) s =
     (Normal tt,
      emit (ELog ERROR "セッション復元でエラー")
        (set_page w (emit (EAddCookies v) s)))).
Proof.
  unfold _load_session. repeat split.
  - intros Hf. run. by rewrite Hf.
  - intros raw Hf. run. rewrite Hf. run. by rewrite Hf.
  - intros v e w Hf Ha He. run. rewrite Hf. run. rewrite Hf.
    unfold add_cookies, browser_call. simpl. rewrite Ha. simpl. by rewrite He.
Qed.

(** X22. What [_save_session] writes is what [_load_session] restores:
    when the browser hands over its cookies and the cookie file can be
    written, [_save_session] returns normally, and in every later world
    with the files it left, whatever its page, [_load_session] passes
    exactly these cookies to [context.add_cookies]. *)
Theorem _save_session_then__load_session {R} (s s1 : state W) cookies :
  cookies_ (R:=unit) s = (Normal cookies, s1) ->
  session_file ∉ locked s1 ->
  exists s2,
    _save_session (R:=R) s = (Normal tt, s2) /\
    files s2 = <[session_file := JsonText (PList cookies)]> (files s) /\
    forall s3 : state W,
      files s3 = files s2 ->
      exists o s4 evs,
        _load_session (R:=R) s3 = (o, s4) /\
        trace s4 = trace s3 ++ EAddCookies (PList cookies) :: evs.
Proof.
  intros Hck Hfree. eexists. split; [| split].
  - unfold _save_session, def, try_except_Exception.
    rewrite (bind_Normal _ _ _ _ _ Hck). run.
    by rewrite bool_decide_eq_false_2, (cookies_dumpable _ _ _ Hck).
  - simpl. f_equal. unfold cookies_, browser_call in Hck.
    destruct (context_cookies (page s)) as [o w]. by injection Hck as _ <-.
  - intros s3 Hf.
    assert (files s3 !! session_file = Some (JsonText (PList cookies))) as Hfile.
    { rewrite Hf. simpl. apply lookup_insert_eq. }
    unfold _load_session. run. rewrite Hfile. run. rewrite Hfile.
    unfold add_cookies, browser_call. simpl.
    destruct (context_add_cookies (PList cookies) (page s3)) as [[e | []] w]; simpl.
    + destruct (is_Exception e); simpl; do 3 eexists;
        (split; [reflexivity |]); simpl; rewrite <- ?app_assoc; reflexivity.
    + do 3 eexists. split; [reflexivity |]. simpl. by rewrite <- app_assoc.
Qed.

End LoginMore.

(** ** The navigation methods *)

Section NavigationMore.
Context {W : Type} {BR : Browser W} {KB : Keyboard W}.
Import Authenticator Navigation.

(** How the click loop ends: it falls through after probing every
    selector, in order, or it returns [True] right after a click, a
    settled page and the log line.  It never raises and touches no
    file. *)
Lemma click_first_outcome selectors timeout msg (s : state W) :
  exists o s' evs,
    click_first selectors timeout msg s = (o, s') /\
    trace s' = trace s ++ evs /\
    files s' = files s /\
    ((o = Normal tt /\ List.filter is_probe evs = probes timeout selectors) \/
     (o = Returned true /\
      exists before h,
        evs = before ++ [EClick h; EWaitLoad "networkidle"; ELog INFO msg])).
Proof.
  revert s. induction selectors as [| selector rest IH]; intros s.
  - exists (Normal tt), s, []. simpl. rewrite app_nil_r.
    split; [done |]. split; [done |]. split; [done |]. by left.
  - cbn [click_first].
    unfold bind at 1, try_except at 1, bind at 1, wait_for_selector at 1,
      browser_call at 1.
    destruct (page_wait_for_selector selector timeout (page s)) as [[e | [h |]] w];
      cbn [lift fst snd].
    + (* the probe raises *)
      destruct (IH (set_page w (emit (EProbe selector timeout) s)))
        as (o & s' & evs & Hr & Ht & Hf & Hcase).
      unfold ret at 1. rewrite Hr.
      exists o, s', (EProbe selector timeout :: evs).
      split; [by destruct o |]. split; [simpl in Ht; by rewrite Ht, <- app_assoc |].
      split; [done |].
      destruct Hcase as [[-> Hp] | (-> & before & h & ->)].
      * left. split; [done |]. simpl. by rewrite Hp.
      * right. split; [done |]. by exists (EProbe selector timeout :: before), h.
    + (* the probe finds an element *)
      unfold bind at 1, click at 1, browser_call at 1. cbn [page set_page emit].
      destruct (element_click h w) as [[e | []] w1]; cbn [lift fst snd].
      * destruct (IH (set_page w1 (emit (EClick h)
                        (set_page w (emit (EProbe selector timeout) s)))))
          as (o & s' & evs & Hr & Ht & Hf & Hcase).
        unfold ret at 1. rewrite Hr.
        exists o, s', (EProbe selector timeout :: EClick h :: evs).
        split; [by destruct o |].
        split; [simpl in Ht; by rewrite Ht, <- !app_assoc |].
        split; [done |].
        destruct Hcase as [[-> Hp] | (-> & before & h' & ->)].
        -- left. split; [done |]. simpl. by rewrite Hp.
        -- right. split; [done |].
           by exists (EProbe selector timeout :: EClick h :: before), h'.
      * unfold bind at 1, wait_for_load_state at 1, browser_call at 1.
        cbn [page set_page emit].
        destruct (page_wait_for_load_state "networkidle" w1) as [[e | []] w2];
          cbn [lift fst snd].
        -- destruct (IH (set_page w2 (emit (EWaitLoad "networkidle")
                           (set_page w1 (emit (EClick h)
                              (set_page w (emit (EProbe selector timeout) s)))))))
             as (o & s' & evs & Hr & Ht & Hf & Hcase).
           unfold ret at 1. rewrite Hr.
           exists o, s',
             (EProbe selector timeout :: EClick h :: EWaitLoad "networkidle" :: evs).
           split; [by destruct o |].
           split; [simpl in Ht; by rewrite Ht, <- !app_assoc |].
           split; [done |].
           destruct Hcase as [[-> Hp] | (-> & before & h' & ->)].
           ++ left. split; [done |]. simpl. by rewrite Hp.
           ++ right. split; [done |].
              by exists (EProbe selector timeout :: EClick h ::
                         EWaitLoad "networkidle" :: before), h'.
        -- do 3 eexists. split; [reflexivity |]. simpl.
           split; [by rewrite <- !app_assoc |]. split; [done |].
           right. split; [done |]. by exists [EProbe selector timeout], h.
    + (* the probe finds nothing *)
      destruct (IH (set_page w (emit (EProbe selector timeout) s)))
        as (o & s' & evs & Hr & Ht & Hf & Hcase).
      unfold ret at 1. rewrite Hr.
      exists o, s', (EProbe selector timeout :: evs).
      split; [by destruct o |]. split; [simpl in Ht; by rewrite Ht, <- app_assoc |].
      split; [done |].
      destruct Hcase as [[-> Hp] | (-> & before & h & ->)].
      * left. split; [done |]. simpl. by rewrite Hp.
      * right. split; [done |]. by exists (EProbe selector timeout :: before), h.
Qed.

(** A method made of the click loop, the not-found line and
    [return False]. *)
Lemma click_method_outcome {R} selectors timeout msg missing failed (s : state W) :
  exists b s' evs,
    def (R:=R) (try_except_Exception
           (click_first selectors timeout msg ;;
            log ERROR missing ;;
            return_ false)
           (fun e => log ERROR failed ;; return_ false)) s = (Normal b, s') /\
    trace s' = trace s ++ evs /\
    files s' = files s /\
    if b
    then exists before h,
           evs = before ++ [EClick h; EWaitLoad "networkidle"; ELog INFO msg]
    else List.filter is_probe evs = probes timeout selectors /\
         last evs = Some (ELog ERROR missing).
Proof.
  destruct (click_first_outcome selectors timeout msg s)
    as (o & s' & evs & Hr & Ht & Hf & [[-> Hp] | (-> & before & h & ->)]).
  - exists false, (emit (ELog ERROR missing) s'), (evs ++ [ELog ERROR missing]).
    unfold def, try_except_Exception. rewrite (bind_Normal _ _ _ _ _ Hr).
    split; [done |]. simpl. rewrite Ht, <- app_assoc. repeat split; try done.
    + rewrite List.filter_app. simpl. by rewrite app_nil_r.
    + apply last_snoc.
  - exists true, s'. eexists.
    unfold def, try_except_Exception. rewrite (bind_Returned _ _ _ _ _ Hr).
    repeat split; eauto.
Qed.

(** X23. [navigate_to_user_search] never raises, whatever the page
    raises, and writes no file.  It returns [True] right after a click, a
    settled page and the log line of the move; it returns [False] only
    after it has probed all five selectors, in their order, and then
    logs that the tab was not found. *)
Theorem navigate_to_user_search_outcome {R} (s : state W) :
  exists b s' evs,
    navigate_to_user_search (R:=R) s = (Normal b, s') /\
    trace s' = trace s ++ evs /\
    files s' = files s /\
    if b
    then exists before h,
           evs = before ++ [EClick h; EWaitLoad "networkidle";
                            ELog INFO "ユーザー検索タブに移動しました"]
    else List.filter is_probe evs = probes 5000 user_search_selectors /\
         last evs = Some (ELog ERROR "ユーザー検索タブが見つかりません").
Proof. apply click_method_outcome. Qed.

(** X24. [click_user_profile], for every nickname, never raises and
    writes no file.  It returns [True] right after a click, a settled
    page and the log line of the move; it returns [False] only after it
    has probed the three selectors built from the nickname and the two
    fixed ones, in their order, and then logs that the link was not
    found. *)
Theorem click_user_profile_outcome {R} nickname (s : state W) :
  exists b s' evs,
    click_user_profile (R:=R) nickname s = (Normal b, s') /\
    trace s' = trace s ++ evs /\
    files s' = files s /\
    if b
    then exists before h,
           evs = before ++ [EClick h; EWaitLoad "networkidle";
                            ELog INFO "ユーザープロフィールに移動"]
    else List.filter is_probe evs = probes 3000 (user_selectors nickname) /\
         last evs = Some (ELog ERROR "ユーザープロフィールリンクが見つかりません").
Proof. apply click_method_outcome. Qed.

(** When every click raises, the click loop falls through. *)
Lemma click_first_all_refused selectors timeout msg (s : state W) :
  (forall h w, exists e w', element_click h w = (inl e, w')) ->
  exists s', click_first selectors timeout msg s = (Normal tt, s').
Proof.
  intros Hrefuse. revert s.
  induction selectors as [| selector rest IH]; intros s.
  - by exists s.
  - cbn [click_first].
    unfold bind at 1, try_except at 1, bind at 1, wait_for_selector at 1,
      browser_call at 1.
    destruct (page_wait_for_selector selector timeout (page s)) as [[e | [h |]] w];
      cbn [lift fst snd]; try apply IH.
    unfold bind at 1, click at 1, browser_call at 1. cbn [page set_page emit].
    destruct (Hrefuse h w) as (e & w1 & ->). cbn [lift fst snd]. apply IH.
Qed.

(** X25. A click that raises is not reported as an error: on a page where
    every click raises, a cancellation or an interrupt included,
    [navigate_to_user_search] and [click_user_profile] return [False]
    after the not-found line, as if no element had been there. *)
Theorem refused_clicks_read_as_not_found {R} nickname (s : state W) :
  (forall h w, exists e w', element_click h w = (inl e, w')) ->
  (exists s',
     navigate_to_user_search (R:=R) s =
       (Normal false, emit (ELog ERROR "ユーザー検索タブが見つかりません") s')) /\
  (exists s',
     click_user_profile (R:=R) nickname s =
       (Normal false, emit (ELog ERROR "ユーザープロフィールリンクが見つかりません") s')).
Proof.
  intros Hrefuse. split.
  - destruct (click_first_all_refused user_search_selectors 5000
                "ユーザー検索タブに移動しました" s Hrefuse) as [s' Hr].
    exists s'. unfold navigate_to_user_search, def, try_except_Exception.
    by rewrite (bind_Normal _ _ _ _ _ Hr).
  - destruct (click_first_all_refused (user_selectors nickname) 3000
                "ユーザープロフィールに移動" s Hrefuse) as [s' Hr].
    exists s'. unfold click_user_profile, def, try_except_Exception.
    by rewrite (bind_Normal _ _ _ _ _ Hr).
Qed.

(** X26. No search input: when none of the six input selectors resolves,
    [search_user_by_nickname] returns [False]; it has probed the six
    selectors in their order, logged the missing input and done nothing
    else: no fill, no look for the button, no key press. *)
Theorem search_input_missing {R} nickname (s s1 : state W) :
  first_match (R:=bool) search_input_selectors 3000 s = (Normal None, s1) ->
  search_user_by_nickname (R:=R) nickname s =
    (Normal false, emit (ELog ERROR "検索入力欄が見つかりません") s1) /\
  trace (emit (ELog ERROR "検索入力欄が見つかりません") s1) =
    trace s ++ probes 3000 search_input_selectors ++
    [ELog ERROR "検索入力欄が見つかりません"].
Proof.
  intros Hi. split.
  - unfold search_user_by_nickname, def, try_except_Exception.
    by rewrite (bind_Normal _ _ _ _ _ Hi).
  - destruct (first_match_probes _ _ _ _ _ Hi) as (r & k & [= <-] & Ht & Hk & _).
    cbn [emit trace]. rewrite Ht, (Hk eq_refl), firstn_all.
    by rewrite <- app_assoc.
Qed.

(** X27. The Enter fallback: when the input is found and filled and none
    of the three button selectors resolves, [search_user_by_nickname]
    presses Enter on the input instead of clicking, waits for the page
    to settle and returns [True]; after the fill its events are the log
    line, the three button probes, the wait and the final log line, with
    no click among them. *)
Theorem search_without_button_presses_enter {R} nickname input
    (s s1 s2 s3 s4 s5 : state W) :
  first_match (R:=bool) search_input_selectors 3000 s = (Normal (Some input), s1) ->
  fill (R:=bool) input nickname s1 = (Normal tt, s2) ->
  first_match (R:=bool) search_button_selectors 2000
    (emit (ELog INFO "ニックネームを入力") s2) = (Normal None, s3) ->
  press (R:=bool) input "Enter" s3 = (Normal tt, s4) ->
  wait_for_load_state (R:=bool) "networkidle" s4 = (Normal tt, s5) ->
  search_user_by_nickname (R:=R) nickname s =
    (Normal true, emit (ELog INFO "ユーザー検索を実行しました") s5) /\
  trace (emit (ELog INFO "ユーザー検索を実行しました") s5) =
    trace s2 ++ [ELog INFO "ニックネームを入力"] ++
    probes 2000 search_button_selectors ++
    [EWaitLoad "networkidle"; ELog INFO "ユーザー検索を実行しました"].
Proof.
  intros Hi Hf Hb Hp Hw. split.
  - unfold search_user_by_nickname, def, try_except_Exception.
    rewrite (bind_Normal _ _ _ _ _ Hi), (bind_Normal _ _ _ _ _ Hf).
    unfold bind at 1, log at 1.
    rewrite (bind_Normal _ _ _ _ _ Hb), (bind_Normal _ _ _ _ _ Hp),
      (bind_Normal _ _ _ _ _ Hw).
    done.
  - destruct (first_match_probes _ _ _ _ _ Hb) as (r & k & [= <-] & Ht & Hk & _).
    assert (trace s4 = trace s3) as Hpress.
    { unfold press in Hp. destruct (element_press _ _ _) as [o w].
      by injection Hp as _ <-. }
    assert (trace s5 = trace s4 ++ [EWaitLoad "networkidle"]) as Hwait.
    { unfold wait_for_load_state, browser_call in Hw.
      destruct (page_wait_for_load_state _ _) as [o w]. by injection Hw as _ <-. }
    cbn [emit trace] in *. rewrite Hwait, Hpress, Ht, (Hk eq_refl), firstn_all.
    by rewrite <- !app_assoc.
Qed.

End NavigationMore.

(** ** The environment overrides *)

Section SettingsMore.
Import SettingsFile.

Lemma set_nested_enterable c keys last_key value :
  enterable c keys = true <->
  exists c', set_nested c keys last_key value = inr c'.
Proof.
  revert c. induction keys as [| key keys IH]; intros c.
  - destruct c; simpl; split;
      first [ discriminate | by intros [c' [=]] | by eauto | done ].
  - destruct c as [| | | | | | d]; simpl;
      try (split; [discriminate | by intros [c' [=]]]).
    destruct (assoc_get d key) as [child |] eqn:Ed.
    + rewrite (IH child). split.
      * intros [c' ->]. eauto.
      * intros [c' Hc]. destruct (set_nested child keys last_key value); [done | eauto].
    + assert (enterable (PDict []) keys = true) as He by (by destruct keys).
      apply (IH (PDict [])) in He as [c' Hc]. rewrite Hc. split; eauto.
Qed.

Lemma set_nested_raises c keys last_key value e :
  set_nested c keys last_key value = inl e ->
  e = TypeError \/ e = AttributeError.
Proof.
  revert c. induction keys as [| key keys IH]; intros c.
  - destruct c; simpl; intros [= <-]; auto.
  - destruct c as [| | | | | | d]; simpl; try (intros [= <-]; auto).
    destruct (set_nested _ keys last_key value) eqn:Hs; [| done].
    intros [= <-]. eauto.
Qed.

Lemma get_path_set_nested c keys last_key value c' :
  set_nested c keys last_key value = inr c' ->
  get_path c' (keys ++ [last_key]) = Some value.
Proof.
  revert c c'. induction keys as [| key keys IH]; intros c c'.
  - destruct c as [| | | | | | d]; simpl; try done. intros [= <-]. simpl.
    by rewrite assoc_get_set, String.eqb_refl.
  - destruct c as [| | | | | | d]; simpl; try done.
    destruct (set_nested _ keys last_key value) as [| child'] eqn:Hs; [done |].
    intros [= <-]. simpl. rewrite assoc_get_set, String.eqb_refl. eauto.
Qed.

Lemma get_path_empty_dict p : p <> [] -> get_path (PDict []) p = None.
Proof. by destruct p. Qed.

Lemma get_path_set_nested_other c keys last_key value c' p :
  set_nested c keys last_key value = inr c' ->
  incomparable p (keys ++ [last_key]) ->
  get_path c' p = get_path c p.
Proof.
  revert c c' p. induction keys as [| key keys IH]; intros c c' p.
  - destruct c as [| | | | | | d]; simpl; try done. intros [= <-] [Hp Hq].
    destruct p as [| k rest]; [done |]. simpl in *.
    rewrite assoc_get_set.
    destruct (String.eqb last_key k); [by destruct rest | done].
  - destruct c as [| | | | | | d]; simpl; try done.
    destruct (set_nested _ keys last_key value) as [| child'] eqn:Hs; [done |].
    intros [= <-] [Hp Hq].
    destruct p as [| k rest]; [done |]. simpl in *.
    rewrite assoc_get_set.
    destruct (String.eqb_spec key k) as [<- | Hk].
    + rewrite String.eqb_refl in Hp. simpl in *.
      rewrite (IH _ _ rest Hs (conj Hp Hq)).
      destruct (assoc_get d key); [done |].
      apply get_path_empty_dict. by intros ->.
    + done.
Qed.

Lemma enterable_empty_dict keys : enterable (PDict []) keys = true.
Proof. by destruct keys. Qed.

Lemma enterable_set_nested_other c keys last_key value c' keys2 :
  set_nested c keys last_key value = inr c' ->
  is_prefix (keys ++ [last_key]) keys2 = false ->
  enterable c' keys2 = enterable c keys2.
Proof.
  revert c c' keys2. induction keys as [| key keys IH]; intros c c' keys2.
  - destruct c as [| | | | | | d]; simpl; try done. intros [= <-] Hp.
    destruct keys2 as [| k rest]; [done |]. simpl in *.
    rewrite assoc_get_set. by destruct (String.eqb last_key k).
  - destruct c as [| | | | | | d]; simpl; try done.
    destruct (set_nested _ keys last_key value) as [| child'] eqn:Hs; [done |].
    intros [= <-] Hp.
    destruct keys2 as [| k rest]; [done |]. simpl in *.
    rewrite assoc_get_set.
    destruct (String.eqb_spec key k) as [<- | Hk]; [| done].
    simpl in Hp. rewrite (IH _ _ rest Hs Hp).
    destruct (assoc_get d key); [done |]. apply enterable_empty_dict.
Qed.

Lemma path_split (path : list string) :
  path <> [] -> removelast path ++ [List.last path EmptyString] = path.
Proof. intros Hp. symmetry. by apply app_removelast_last. Qed.

Lemma incomparable_nonempty p q : incomparable p q -> q <> [].
Proof. intros [_ Hq] ->. by destruct p. Qed.

(** What the loop leaves alone. *)
Lemma override_each_other env mappings config o config' p :
  override_each env mappings config = (o, config') ->
  (forall env_var config_path,
     In (env_var, config_path) mappings -> is_Some (env !! env_var) ->
     incomparable p config_path) ->
  get_path config' p = get_path config p.
Proof.
  revert config. induction mappings as [| [var path] rest IH]; intros config; simpl.
  - by intros [= _ <-].
  - intros Hrun Hall.
    assert (forall env_var config_path,
              In (env_var, config_path) rest -> is_Some (env !! env_var) ->
              incomparable p config_path) as Hrest by (intros; eapply Hall; eauto).
    destruct (env !! var) as [value |] eqn:Ev; [| by eapply IH].
    assert (incomparable p path) as Hinc by (eapply Hall; eauto).
    destruct (set_nested _ _ _ _) as [e | config1] eqn:Hs.
    + by injection Hrun as _ <-.
    + rewrite (IH _ Hrun Hrest).
      eapply get_path_set_nested_other; [exact Hs |].
      by rewrite path_split by (by eapply incomparable_nonempty).
Qed.

Lemma apart_cons var path rest :
  apart ((var, path) :: rest) = true ->
  path <> [] /\
  (forall v q, In (v, q) rest -> incomparable path q) /\
  apart rest = true.
Proof.
  simpl. rewrite !andb_true_iff, forallb_forall.
  intros [[Hne Hall] Hrest]. repeat split; try done.
  - by intros ->.
  - apply (Hall (v, q)) in H. simpl in H.
    by apply andb_true_iff in H as [?%negb_true_iff _].
  - apply (Hall (v, q)) in H. simpl in H.
    by apply andb_true_iff in H as [_ ?%negb_true_iff].
Qed.

Lemma is_prefix_app p q r : is_prefix p q = true -> is_prefix p (q ++ r) = true.
Proof.
  revert q. induction p as [| a p IH]; intros [| b q]; simpl; try done.
  rewrite !andb_true_iff. intros [? ?]. eauto.
Qed.

Lemma override_each_sets env mappings config config' env_var config_path value :
  apart mappings = true ->
  override_each env mappings config = (inr tt, config') ->
  In (env_var, config_path) mappings ->
  env !! env_var = Some value ->
  get_path config' config_path = Some (converted env_var value).
Proof.
  revert config. induction mappings as [| [var path] rest IH]; intros config; [done |].
  intros (Hne & Hinc & Hrest)%apart_cons Hrun [[= -> ->] | Hin] Hv; simpl in Hrun.
  - rewrite Hv in Hrun.
    destruct (set_nested _ _ _ _) as [e | config1] eqn:Hs; [done |].
    rewrite (override_each_other _ _ _ _ _ config_path Hrun).
    + apply get_path_set_nested in Hs. by rewrite path_split in Hs.
    + intros v q Hq _. by apply (Hinc v q).
  - destruct (env !! var) as [value0 |]; [| by eapply IH].
    destruct (set_nested _ _ _ _) as [e | config1] eqn:Hs; [done |].
    by eapply IH.
Qed.

Lemma override_each_returns env mappings config :
  apart mappings = true ->
  (exists config', override_each env mappings config = (inr tt, config')) <->
  (forall env_var config_path,
     In (env_var, config_path) mappings -> is_Some (env !! env_var) ->
     enterable config (removelast config_path) = true).
Proof.
  revert config. induction mappings as [| [var path] rest IH]; intros config.
  - intros _. split; [by intros _ ? ? [] | by eauto].
  - intros (Hne & Hinc & Hrest)%apart_cons. simpl.
    destruct (env !! var) as [value |] eqn:Ev.
    + destruct (set_nested config (removelast path) (List.last path EmptyString)
                  (converted var value)) as [e | config1] eqn:Hs.
      * split; [by intros [c' [=]] |]. intros Hall.
        assert (enterable config (removelast path) = true) as He
          by (eapply Hall; eauto).
        apply (set_nested_enterable _ _ (List.last path EmptyString)
                 (converted var value)) in He as [c' Hc]. congruence.
      * assert (forall v q, In (v, q) rest ->
                  enterable config1 (removelast q) = enterable config (removelast q))
          as Hsame.
        { intros v q Hq. eapply enterable_set_nested_other; [exact Hs |].
          rewrite path_split by done.
          destruct (is_prefix path (removelast q)) eqn:Hp; [| done].
          destruct (Hinc v q Hq) as [Hpq _].
          assert (q <> []) as Hqne.
          { intros ->. destruct (Hinc v [] Hq) as [_ Hq0]. by destruct path. }
          rewrite <- (path_split q Hqne) in Hpq.
          by rewrite (is_prefix_app _ _ _ Hp) in Hpq. }
        rewrite (IH config1 Hrest). split.
        -- intros Hall v q [[= -> ->] | Hq] Hset.
           ++ apply (set_nested_enterable _ _ (List.last q EmptyString)
                       (converted v value)). eauto.
           ++ rewrite <- (Hsame v q Hq). eauto.
        -- intros Hall v q Hq Hset. rewrite (Hsame v q Hq). eauto.
    + rewrite (IH config Hrest). split.
      * intros Hall v q [[= -> ->] | Hq] Hset; [| eauto].
        rewrite Ev in Hset. by destruct Hset.
      * eauto.
Qed.

Lemma override_each_raises env mappings config e config' :
  override_each env mappings config = (inl e, config') ->
  e = TypeError \/ e = AttributeError.
Proof.
  revert config. induction mappings as [| [var path] rest IH]; intros config; simpl.
  - done.
  - destruct (env !! var) as [value |]; [| by apply IH].
    destruct (set_nested _ _ _ _) as [e0 | config1] eqn:Hs; [| by apply IH].
    intros [= <- _]. by eapply set_nested_raises.
Qed.

Lemma env_mappings_apart : apart env_mappings = true.
Proof. vm_compute. reflexivity. Qed.

(** X28. The environment wins over the file: when
    [_override_with_env_vars] returns, every mapped variable that is set,
    were it to the empty text, is in the configuration under its path:
    as a text, and for [BROWSER_HEADLESS] as the truth value of
    [value.lower() == "true"], so that [1], [yes] or [on] switch
    headless mode off. *)
Theorem override_sets_every_given_variable env config config'
    env_var config_path value :
  _override_with_env_vars env config = (inr tt, config') ->
  In (env_var, config_path) env_mappings ->
  env !! env_var = Some value ->
  get_path config' config_path =
    Some (if String.eqb env_var "BROWSER_HEADLESS"
          then PBool (String.eqb (lower value) "true")
          else PStr value).
Proof. apply override_each_sets, env_mappings_apart. Qed.

(** X30. [_override_with_env_vars] returns exactly when, for every
    mapped variable that is set, the configuration is a dict and every
    section on the way to the setting is a dict or missing.  A section
    the file leaves empty ([auth:] alone on its line loads as [None])
    makes it raise once a variable of that section is set; what it
    raises is [TypeError] or [AttributeError]. *)
Theorem override_returns_iff env config :
  ((exists config', _override_with_env_vars env config = (inr tt, config')) <->
   (forall env_var config_path,
      In (env_var, config_path) env_mappings -> is_Some (env !! env_var) ->
      enterable config (removelast config_path) = true)) /\
  (forall e config',
     _override_with_env_vars env config = (inl e, config') ->
     e = TypeError \/ e = AttributeError).
Proof.
  split.
  - apply override_each_returns, env_mappings_apart.
  - apply override_each_raises.
Qed.

End SettingsMore.

(** ** The overrides on the objects *)

Section SettingsObjectsMore.
Import SettingsFile SettingsObjects.

Lemma item_set_item d key v key' :
  item (set_item d key v) key' =
    if String.eqb key key' then Some v else item d key'.
Proof.
  induction d as [| [k x] d IH]; simpl.
  - done.
  - destruct (String.eqb_spec k key) as [-> | Hk]; simpl.
    + by destruct (String.eqb key key').
    + rewrite IH. destruct (String.eqb_spec k key') as [-> | Hk']; [| done].
      destruct (String.eqb_spec key key') as [-> | ?]; done.
Qed.

(** An assignment in the object at [l0] changes the entry of [key]
    there, and no other entry of any object. *)
Lemma entry_insert (h : heap) l0 d key v l k :
  h !! l0 = Some d ->
  entry (<[l0 := set_item d key v]> h) l k =
    if bool_decide (l = l0) && String.eqb key k then Some v else entry h l k.
Proof.
  intros Hd. unfold entry. case_bool_decide as Hl; simpl.
  - subst l. rewrite list_lookup_insert_eq by (by eapply lookup_lt_Some).
    rewrite item_set_item, Hd. by destruct (String.eqb key k).
  - by rewrite list_lookup_insert_ne.
Qed.

(** A new empty object has no entry. *)
Lemma entry_new (h : heap) l k : entry (h ++ [[]]) l k = entry h l k.
Proof.
  unfold entry. destruct (h !! l) as [d |] eqn:Hd.
  - by rewrite (lookup_app_l_Some _ _ _ _ Hd).
  - apply lookup_ge_None in Hd.
    destruct (decide (l = length h)) as [-> | Hl].
    + by rewrite list_lookup_middle.
    + rewrite lookup_ge_None_2; [done |]. rewrite length_app. simpl. lia.
Qed.

Lemma setdefault_entries h current key o h' l k :
  setdefault h current key = (o, h') ->
  entry h' l k = entry h l k \/ (k = key /\ entry h l k = None).
Proof.
  unfold setdefault.
  destruct current as [| | | | | | l0]; try (intros [= <- <-]; by left).
  destruct (h !! l0) as [d |] eqn:Hd; [| intros [= <- <-]; by left].
  destruct (item d key) as [c |] eqn:Hc; intros [= <- <-]; [by left |].
  rewrite entry_new, (entry_insert _ _ _ _ _ _ _ Hd).
  case_bool_decide as Hl; simpl; [| by left].
  destruct (String.eqb_spec key k) as [<- | Hk]; [| by left].
  right. split; [done |]. subst l. unfold entry. by rewrite Hd.
Qed.

Lemma descend_entries keys h current o h' l k :
  descend h current keys = (o, h') ->
  entry h' l k = entry h l k \/
  (existsb (String.eqb k) keys = true /\ entry h l k = None).
Proof.
  revert h current.
  induction keys as [| key keys IH]; intros h current; simpl.
  - intros [= <- <-]. by left.
  - destruct (setdefault h current key) as [[e | c] h1] eqn:Hs.
    + intros [= <- <-].
      destruct (setdefault_entries _ _ _ _ _ l k Hs) as [? | [-> ?]];
        [by left | right]. by rewrite String.eqb_refl.
    + intros Hd.
      destruct (setdefault_entries _ _ _ _ _ l k Hs) as [Hsame | [-> Hnone]].
      * destruct (IH _ _ Hd) as [-> | [Hin Hnone]]; [by left | right].
        rewrite Hin, orb_true_r. by rewrite <- Hsame.
      * right. by rewrite String.eqb_refl.
Qed.

Lemma setitem_entries h current key value o h' l k :
  setitem h current key value = (o, h') ->
  entry h' l k = entry h l k \/ key = k.
Proof.
  unfold setitem.
  destruct current as [| | | | | | l0]; try (intros [= <- <-]; by left).
  destruct (h !! l0) as [d |] eqn:Hd; intros [= <- <-]; [| by left].
  rewrite (entry_insert _ _ _ _ _ _ _ Hd).
  destruct (bool_decide _); simpl; [| by left].
  destruct (String.eqb_spec key k); [by right | by left].
Qed.

Lemma override_each_entries env mappings h config o h' l k :
  override_each env mappings h config = (o, h') ->
  entry h' l k = entry h l k \/
  assigned env mappings k = true \/
  (entered env mappings k = true /\ entry h l k = None).
Proof.
  revert h.
  induction mappings as [| [env_var config_path] rest IH]; intros h; simpl.
  - intros [= <- <-]. by left.
  - destruct (env !! env_var) as [value |]; [| apply IH].
    destruct (descend h config (removelast config_path)) as [[e | current] h1]
      eqn:Hd.
    { intros [= <- <-].
      destruct (descend_entries _ _ _ _ _ l k Hd) as [? | [Hin ?]];
        [by left | right; right]. by rewrite Hin. }
    destruct (setitem h1 current _ _) as [[e | []] h2] eqn:Hi.
    { intros [= <- <-].
      destruct (setitem_entries _ _ _ _ _ _ l k Hi) as [-> | ->].
      - destruct (descend_entries _ _ _ _ _ l k Hd) as [? | [Hin ?]];
          [by left | right; right]. by rewrite Hin.
      - right; left. by rewrite String.eqb_refl. }
    intros Hrest.
    destruct (setitem_entries _ _ _ _ _ _ l k Hi) as [H2 | ->].
    2: { right; left. by rewrite String.eqb_refl. }
    destruct (descend_entries _ _ _ _ _ l k Hd) as [H1 | [Hin Hnone]].
    2: { right; right. by rewrite Hin. }
    destruct (IH _ Hrest) as [-> | [Ha | [He Hnone]]].
    + left. by rewrite H2.
    + right; left. by rewrite Ha, orb_true_r.
    + right; right. rewrite He, orb_true_r. by rewrite <- H1, <- H2.
Qed.

Lemma lookup_path_kept env mappings (h h' : heap) :
  (forall l k,
     entry h' l k = entry h l k \/
     assigned env mappings k = true \/
     (entered env mappings k = true /\ entry h l k = None)) ->
  forall p config v,
    forallb (fun k => negb (assigned env mappings k)) p = true ->
    lookup_path h config p = Some v ->
    lookup_path h' config p = Some v.
Proof.
  intros Hentries p.
  induction p as [| k p IH]; intros config v; simpl; [done |].
  intros [Hk Hp]%andb_true_iff.
  destruct config as [| | | | | | l]; try done.
  destruct (entry h l k) as [c |] eqn:Hc; [| done].
  destruct (Hentries l k) as [-> | [Ha | [_ Hnone]]].
  - rewrite Hc. by apply IH.
  - by rewrite Ha in Hk.
  - by rewrite Hc in Hnone.
Qed.

(** X29. The overrides touch nothing else in the objects they change in
    place.  In every dict object of the configuration, under whatever
    names the file reaches it, an entry is after
    [_override_with_env_vars] what it was before, unless its key is the
    last key of a variable that is set, or the key of a section on the
    way to one and there was no entry before.  A setting that was there,
    reached by keys none of which is the last key of a variable that is
    set, is therefore what it was, also when the call raised: the session
    timeout, the viewport and the user agent cannot be set from the
    environment. *)
Theorem override_leaves_other_settings env h config o h' :
  _override_with_env_vars env h config = (o, h') ->
  (forall l k,
     entry h' l k = entry h l k \/
     assigned env env_mappings k = true \/
     (entered env env_mappings k = true /\ entry h l k = None)) /\
  (forall p v,
     forallb (fun k => negb (assigned env env_mappings k)) p = true ->
     lookup_path h config p = Some v ->
     lookup_path h' config p = Some v).
Proof.
  intros Hrun.
  assert (forall l k,
            entry h' l k = entry h l k \/
            assigned env env_mappings k = true \/
            (entered env env_mappings k = true /\ entry h l k = None)) as He.
  { intros l k. exact (override_each_entries _ _ _ _ _ _ l k Hrun). }
  split; [exact He |]. intros p v. by apply lookup_path_kept.
Qed.

End SettingsObjectsMore.

(** ** More runs on the scripted page *)

Section RunsMore.
Import Fixture Pages SessionManager Authenticator Navigation.
#[local] Existing Instance fake_browser.
#[local] Existing Instance fake_keyboard.
#[local] Existing Instance codec.
#[local] Existing Instance clock.
#[local] Existing Instance site.
#[local] Existing Instance writer.
#[local] Existing Instance open_directory.


(** The metadata file is locked: the load after the failed save pairs
    the new cookie with the old metadata.  The user's object cannot be
    written: the load after the failed save finds no session. *)
Lemma load_after_failed_save_run :
  let cookies := of_json (PList [other_cookie]) in
  let s := metadata_locked fresh_session in
  let s' := snd (save_session (R:=unit) cookies ONone s) in
  let user_info := ODict [(KStr "since", OOther true)] in
  let t := world blank_page fresh_session in
  let t' := snd (save_session (R:=unit) cookies user_info t) in
  fst (load_session (R:=unit) s') =
    Normal (Some (PDict [("cookies", PList [other_cookie]);
                         ("session_info", fresh_metadata)])) /\
  fst (load_session (R:=unit) t') = Normal None.
Proof.
  intros cookies s s' user_info t t'.
  assert (json_dump cookies = inr (PList [other_cookie])) as Hd
    by (vm_compute; reflexivity).
  split.
  - assert (save_session (R:=unit) cookies ONone s = (Raised PermissionError, s'))
      as Hs by (vm_compute; reflexivity).
    assert (cookies_file ∉ locked s) as Hc
      by (vm_compute; intros Hin; discriminate Hin).
    assert (files s !! session_info_file = Some (JsonText fresh_metadata)) as Hm
      by (vm_compute; reflexivity).
    assert (declared_expiry (files s) = Some (T0 + 3600 * 1000000)%Z) as He
      by (vm_compute; reflexivity).
    assert (clock_reading (ticks s') <= T0 + 3600 * 1000000)%Z as Hnow
      by (vm_compute; discriminate).
    destruct (proj1 (load_after_failed_save (R:=unit) cookies ONone s
                       PermissionError s' Hs Hc)
                (or_intror eq_refl) fresh_metadata (T0 + 3600 * 1000000)%Z
                Hm He Hnow) as (cookies' & Hd' & Hload).
    rewrite Hd in Hd'. injection Hd' as <-. exact Hload.
  - assert (save_session (R:=unit) cookies user_info t = (Raised TypeError, t'))
      as Hs by (vm_compute; reflexivity).
    assert (cookies_file ∉ locked t) as Hc
      by (vm_compute; intros Hin; discriminate Hin).
    assert (json_dump (or_empty user_info) = inl TypeError) as Hi
      by (vm_compute; reflexivity).
    exact (proj2 (load_after_failed_save (R:=unit) cookies user_info t
                    TypeError t' Hs Hc)
             (ex_intro _ _ Hd) Hi).
Defined.

(** A stored session, cleared: nothing is left of it. *)
Lemma cleared_store_has_no_session_run :
  let s := world blank_page fresh_session in
  let s' := snd (clear_session (R:=unit) s) in
  is_session_valid (R:=unit) s' = (Normal false, s') /\
  fst (load_session (R:=unit) s') = Normal None /\
  get_session_status (R:=unit) s' =
    (Normal (StatusInvalid "expired_or_missing"), s') /\
  files (snd (clear_session (R:=unit) s')) = files s'.
Proof.
  intros s s'.
  apply (cleared_store_has_no_session (R:=unit) s); vm_compute; reflexivity.
Defined.

(** A directory that lets nothing go: [clear_session] logs the error and
    both files stay. *)
Example clear_session_in_a_sealed_directory :
  let s := world blank_page fresh_session in
  clear_session (UL:=sealed_directory) (R:=unit) s =
    (Normal tt, emit (ELog ERROR "セッションクリアでエラー") s).
Proof. vm_compute. reflexivity. Qed.

(** A fresh session, asked one microsecond after its creation. *)
Lemma get_session_status_active_run :
  let s := world blank_page fresh_session in
  let d := match fresh_metadata with PDict d => d | _ => [] end in
  get_session_status (R:=unit) s =
    (Normal (StatusActive (isoformat T0) (isoformat (T0 + 3600 * 1000000))
               (isoformat T0)
               (Z.max 0 (T0 + 3600 * 1000000 - clock_reading (S (ticks s))))
               (user_info_field d)),
     tick (tick s)).
Proof.
  intros s d.
  apply (get_session_status_active (R:=unit) s d T0 (T0 + 3600 * 1000000) T0).
  - vm_compute. reflexivity.
  - vm_compute. reflexivity.
  - vm_compute. reflexivity.
  - vm_compute. reflexivity.
  - vm_compute. discriminate.
Defined.

(** Metadata with an expiry and nothing else: the status is an error,
    the load succeeds. *)
Lemma status_error_where_load_succeeds_run :
  let s := world blank_page expiry_only in
  (exists e s',
     get_session_status (R:=unit) s = (Normal (StatusError e), s') /\
     (e = ValueError \/ e = TypeError) /\
     last (trace s') = Some (ELog ERROR "セッション状態取得でエラー")) /\
  fst (load_session (R:=unit) s) =
    Normal (Some (PDict
      [("cookies", PList []);
       ("session_info",
        PDict [("expires_at", PStr (isoformat (T0 + 3600 * 1000000)))])])).
Proof.
  intros s.
  apply (status_error_where_load_succeeds (R:=unit) s
           [("expires_at", PStr (isoformat (T0 + 3600 * 1000000)))]
           (T0 + 3600 * 1000000) (PList [])).
  - vm_compute. reflexivity.
  - vm_compute. reflexivity.
  - vm_compute. discriminate.
  - left. vm_compute. reflexivity.
  - vm_compute. reflexivity.
Defined.

(** A creation time with a UTC offset is a timestamp: the session is
    reported as active, the creation time as it was written. *)
Example aware_created_at_is_reported :
  fst (get_session_status (R:=unit) (world blank_page aware_creation)) =
    Normal (StatusActive "Z2024-01-01T00:00:00+09:00"
              (isoformat (T0 + 3600 * 1000000)) (isoformat T0)
              (3600 * 1000000 - 1) (PDict [])).
Proof. vm_compute. reflexivity. Qed.

(** A metadata file that is no JSON: the touch is swallowed. *)
Lemma update_last_activity_on_unusable_metadata_run :
  exists s',
    update_last_activity (R:=unit) (world blank_page bad_metadata) = (Normal tt, s') /\
    files s' = bad_metadata /\
    trace s' = [ELog ERROR "最終活動時刻更新でエラー"].
Proof.
  apply (update_last_activity_on_unusable_metadata (R:=unit)
           (world blank_page bad_metadata) (BadText "<html>")).
  - vm_compute. reflexivity.
  - intros d Hd. discriminate Hd.
Defined.

(** Saved, then asked. *)
Lemma status_after_save_run :
  let user_info := of_json (PDict [("nickname", PStr "taro")]) in
  let s := world blank_page ∅ in
  let s1 := snd (save_session (R:=unit) (of_json (PList [sample_cookie]))
                   user_info s) in
  get_session_status (R:=unit) s1 =
    (Normal (StatusActive (isoformat T0) (isoformat (T0 + 1 + 3600 * 1000000))
               (isoformat (T0 + 2)) (3600 * 1000000 - 3)
               (PDict [("nickname", PStr "taro")])),
     tick (tick s1)).
Proof.
  intros user_info s s1.
  pose proof (status_after_save (R:=unit) (of_json (PList [sample_cookie]))
                user_info s s1) as Hst.
  cbv zeta in Hst.
  assert (save_session (R:=unit) (of_json (PList [sample_cookie]))
            user_info s = (Normal tt, s1)) as Hs
    by (vm_compute; reflexivity).
  assert (clock_reading (ticks s1) <=
            clock_reading (S (ticks s)) + session_timeout * 1000000)%Z as Hnow
    by (vm_compute; discriminate).
  destruct (Hst Hs Hnow) as (info & Hi & _ & Hstatus).
  assert (json_dump (or_empty user_info) =
            inr (PDict [("nickname", PStr "taro")])) as Hi'
    by (vm_compute; reflexivity).
  rewrite Hi' in Hi. injection Hi as <-.
  vm_compute in Hstatus. vm_compute. exact Hstatus.
Defined.

(** The member area: logged in by its URL. *)
Lemma _is_logged_in_by_url_run :
  _is_logged_in (R:=unit) (world member_home ∅) = (Normal true, world member_home ∅).
Proof.
  apply (_is_logged_in_by_url (R:=unit) (world member_home ∅)).
  - vm_compute. reflexivity.
  - left. vm_compute. reflexivity.
Defined.

(** A page at [about:blank] with a logout link: logged in by the first
    indicator. *)
Lemma _is_logged_in_by_indicator_run :
  let s := world member_page ∅ in
  _is_logged_in (R:=unit) s =
    (Normal true, snd (first_match (R:=bool) login_indicators 2000 s)).
Proof.
  intros s.
  apply (_is_logged_in_by_indicator (R:=unit) s (Some 0%nat)
           (snd (first_match (R:=bool) login_indicators 2000 s)));
    vm_compute; reflexivity.
Defined.

(** A blank page: the e-mail field is missing. *)
Lemma login_email_field_missing_run :
  let s0 := world blank_page ∅ in
  let s1 := snd (login_navigate s0) in
  let s2 := snd (_is_logged_in (R:=bool) s1) in
  let s3 := snd (first_match (R:=bool) email_selectors 2000 s2) in
  login (R:=unit) "user@example.com" "secret" s0 =
    (Normal false, emit (ELog ERROR "メールアドレス入力欄が見つかりません") s3) /\
  trace (emit (ELog ERROR "メールアドレス入力欄が見つかりません") s3) =
    trace s2 ++ probes 2000 email_selectors ++
    [ELog ERROR "メールアドレス入力欄が見つかりません"].
Proof.
  intros s0 s1 s2 s3.
  apply (login_email_field_missing (R:=unit) "user@example.com" "secret"
           s0 s1 s2 s3);
    vm_compute; reflexivity.
Defined.

(** A form without a button. *)
Lemma login_button_missing_run :
  let email := "user@example.com" in
  let password := "secret" in
  let s0 := world form_without_button ∅ in
  let s1 := snd (login_navigate s0) in
  let s2 := snd (_is_logged_in (R:=bool) s1) in
  let s3 := snd (first_match (R:=bool) email_selectors 2000 s2) in
  let s4 := snd (fill (R:=bool) 0%nat email s3) in
  let s5 := snd (first_match (R:=bool) password_selectors 2000
                   (emit (ELog INFO "メールアドレスを入力") s4)) in
  let s6 := snd (fill (R:=bool) 1%nat password s5) in
  let s7 := snd (first_match (R:=bool) login_selectors 2000
                   (emit (ELog INFO "パスワードを入力") s6)) in
  login (R:=unit) email password s0 =
    (Normal false, emit (ELog ERROR "ログインボタンが見つかりません") s7) /\
  trace (emit (ELog ERROR "ログインボタンが見つかりません") s7) =
    trace s6 ++ [ELog INFO "パスワードを入力"] ++ probes 2000 login_selectors ++
    [ELog ERROR "ログインボタンが見つかりません"] /\
  files (emit (ELog ERROR "ログインボタンが見つかりません") s7) = files s0.
Proof.
  intros email password s0 s1 s2 s3 s4 s5 s6 s7.
  apply (login_button_missing (R:=unit) email password 0%nat 1%nat
           s0 s1 s2 s3 s4 s5 s6 s7);
    vm_compute; reflexivity.
Defined.

(** An accepted login: the cookie of the browser is in the cookie file
    and no other file exists. *)
Lemma login_success_saves_cookies_run :
  let email := "user@example.com" in
  let password := "secret" in
  let s0 := world accepting_form ∅ in
  let s1 := snd (login_navigate s0) in
  let s2 := snd (_is_logged_in (R:=bool) s1) in
  let s3 := snd (first_match (R:=bool) email_selectors 2000 s2) in
  let s4 := snd (fill (R:=bool) 0%nat email s3) in
  let s5 := snd (first_match (R:=bool) password_selectors 2000
                   (emit (ELog INFO "メールアドレスを入力") s4)) in
  let s6 := snd (fill (R:=bool) 1%nat password s5) in
  let s7 := snd (first_match (R:=bool) login_selectors 2000
                   (emit (ELog INFO "パスワードを入力") s6)) in
  let s8 := snd (click (R:=bool) 2%nat s7) in
  let s9 := snd (wait_for_load_state (R:=bool) "networkidle"
                   (emit (ELog INFO "ログインボタンをクリック") s8)) in
  let s10 := snd (_is_logged_in (R:=bool) s9) in
  let s11 := snd (cookies_ (R:=unit) (emit (ELog INFO "ログインに成功しました") s10)) in
  login (R:=unit) email password s0 =
    (Normal true,
     emit (ELog INFO "セッションを保存しました")
       (set_files (<[session_file := JsonText (PList [sample_cookie])]> (files s11))
          s11)) /\
  files (emit (ELog INFO "セッションを保存しました")
           (set_files (<[session_file := JsonText (PList [sample_cookie])]> (files s11))
              s11)) =
    <[session_file := JsonText (PList [sample_cookie])]> (files s0).
Proof.
  intros email password s0 s1 s2 s3 s4 s5 s6 s7 s8 s9 s10 s11.
  apply (login_success_saves_cookies (R:=unit) email password 0%nat 1%nat 2%nat
           [sample_cookie] s0 s1 s2 s3 s4 s5 s6 s7 s8 s9 s10 s11);
    vm_compute; first [reflexivity | intros Hin; discriminate Hin].
Defined.

(** An accepted login with a cookie file that cannot be written. *)
Lemma login_success_without_save_run :
  let email := "user@example.com" in
  let password := "secret" in
  let s0 := cookies_locked accepting_form in
  let s1 := snd (login_navigate s0) in
  let s2 := snd (_is_logged_in (R:=bool) s1) in
  let s3 := snd (first_match (R:=bool) email_selectors 2000 s2) in
  let s4 := snd (fill (R:=bool) 0%nat email s3) in
  let s5 := snd (first_match (R:=bool) password_selectors 2000
                   (emit (ELog INFO "メールアドレスを入力") s4)) in
  let s6 := snd (fill (R:=bool) 1%nat password s5) in
  let s7 := snd (first_match (R:=bool) login_selectors 2000
                   (emit (ELog INFO "パスワードを入力") s6)) in
  let s8 := snd (click (R:=bool) 2%nat s7) in
  let s9 := snd (wait_for_load_state (R:=bool) "networkidle"
                   (emit (ELog INFO "ログインボタンをクリック") s8)) in
  let s10 := snd (_is_logged_in (R:=bool) s9) in
  let s11 := snd (cookies_ (R:=unit) (emit (ELog INFO "ログインに成功しました") s10)) in
  login (R:=unit) email password s0 =
    (Normal true, emit (ELog ERROR "セッション保存でエラー") s11) /\
  files (emit (ELog ERROR "セッション保存でエラー") s11) = files s0.
Proof.
  intros email password s0 s1 s2 s3 s4 s5 s6 s7 s8 s9 s10 s11.
  apply (login_success_without_save (R:=unit) email password 0%nat 1%nat 2%nat
           (Normal [sample_cookie]) s0 s1 s2 s3 s4 s5 s6 s7 s8 s9 s10 s11);
    try (vm_compute; reflexivity).
  right. exists [sample_cookie]. split; [reflexivity |].
  vm_compute. reflexivity.
Defined.

(** After an accepted login there is still no metadata file. *)
Lemma login_writes_only_the_cookie_file_run :
  files (snd (login (R:=unit) "user@example.com" "secret"
                (world accepting_form ∅))) !! session_info_file = None.
Proof.
  assert (session_info_file <> session_file) as Hp by discriminate.
  rewrite (login_writes_only_the_cookie_file (R:=unit) "user@example.com" "secret"
             (world accepting_form ∅) session_info_file Hp).
  reflexivity.
Defined.

(** ... and the session manager still finds no session. *)
Lemma login_leaves_session_manager_view_run :
  fst (load_session (R:=unit)
         (snd (login (R:=unit) "user@example.com" "secret"
                 (world accepting_form ∅)))) = Normal None.
Proof.
  apply (proj2 (login_leaves_session_manager_view (R:=unit) "user@example.com"
                  "secret" (world accepting_form ∅))).
  vm_compute. reflexivity.
Defined.

(** The browser is offline. *)
Lemma login_navigation_error_run :
  login (R:=unit) "user@example.com" "secret" (world offline_page ∅) =
    (Normal false,
     emit (ELog ERROR "ログイン処理でエラー")
       (State offline_page ∅ ∅ O [EGoto login_url])).
Proof.
  assert (goto (R:=bool) login_url (world offline_page ∅) =
            (Raised (PlaywrightError "net::ERR_INTERNET_DISCONNECTED"),
             State offline_page ∅ ∅ O [EGoto login_url])) as Hgoto
    by (vm_compute; reflexivity).
  exact (proj1 (login_navigation_error (R:=unit) "user@example.com" "secret"
                  (world offline_page ∅)
                  (State offline_page ∅ ∅ O [EGoto login_url])
                  (PlaywrightError "net::ERR_INTERNET_DISCONNECTED") Hgoto)).
Defined.

(** A cookie file that is no JSON. *)
Lemma _load_session_unusable_file_run :
  _load_session (R:=unit) (world blank_page bad_cookie_file) =
    (Normal tt, emit (ELog ERROR "セッション復元でエラー") (world blank_page bad_cookie_file)).
Proof.
  apply (proj1 (proj2 (_load_session_unusable_file (R:=unit)
                         (world blank_page bad_cookie_file))) "<html>").
  vm_compute. reflexivity.
Defined.

(** The cookie of one browser, restored into another. *)
Lemma _save_session_then__load_session_run :
  exists s2,
    _save_session (R:=unit) (world page_with_cookie ∅) = (Normal tt, s2) /\
    files s2 = <[session_file := JsonText (PList [sample_cookie])]> ∅ /\
    forall s3 : state fake_page,
      files s3 = files s2 ->
      exists o s4 evs,
        _load_session (R:=unit) s3 = (o, s4) /\
        trace s4 = trace s3 ++ EAddCookies (PList [sample_cookie]) :: evs.
Proof.
  apply (_save_session_then__load_session (R:=unit) (world page_with_cookie ∅)
           (State page_with_cookie ∅ ∅ O [ECookies]) [sample_cookie]).
  - vm_compute. reflexivity.
  - vm_compute. intros Hin. discriminate Hin.
Defined.

(** The member area: the link to the search is the third candidate. *)
Example navigate_to_user_search_third_candidate :
  navigate_to_user_search (R:=unit) (world member_home ∅) =
    (Normal true,
     State (FakePage "https://www.trade-island.jp/users" []
              "https://www.trade-island.jp/users" [] [] false) ∅ ∅ O
       (probes 5000 (take 3 user_search_selectors) ++
        [EClick 0%nat; EWaitLoad "networkidle";
         ELog INFO "ユーザー検索タブに移動しました"])).
Proof. vm_compute. reflexivity. Qed.

(** Every click is cancelled: both methods answer [False]. *)
Lemma refused_clicks_read_as_not_found_run :
  let s := State tt ∅ ∅ O [] in
  (exists s',
     navigate_to_user_search (BR:=refusing_browser) (R:=unit) s =
       (Normal false, emit (ELog ERROR "ユーザー検索タブが見つかりません") s')) /\
  (exists s',
     click_user_profile (BR:=refusing_browser) (R:=unit) "taro" s =
       (Normal false, emit (ELog ERROR "ユーザープロフィールリンクが見つかりません") s')).
Proof.
  intros s.
  apply (refused_clicks_read_as_not_found (BR:=refusing_browser) (R:=unit) "taro" s).
  intros h w. exists CancelledError, w. reflexivity.
Defined.

(** A page without a search input. *)
Lemma search_input_missing_run :
  let s := world blank_page ∅ in
  let s1 := snd (first_match (R:=bool) search_input_selectors 3000 s) in
  search_user_by_nickname (R:=unit) "taro" s =
    (Normal false, emit (ELog ERROR "検索入力欄が見つかりません") s1) /\
  trace (emit (ELog ERROR "検索入力欄が見つかりません") s1) =
    trace s ++ probes 3000 search_input_selectors ++
    [ELog ERROR "検索入力欄が見つかりません"].
Proof.
  intros s s1.
  apply (search_input_missing (R:=unit) "taro" s s1).
  vm_compute. reflexivity.
Defined.

(** A search page without a button: Enter does the search. *)
Lemma search_without_button_presses_enter_run :
  let s := world search_page ∅ in
  let s1 := snd (first_match (R:=bool) search_input_selectors 3000 s) in
  let s2 := snd (fill (R:=bool) 0%nat "taro" s1) in
  let s3 := snd (first_match (R:=bool) search_button_selectors 2000
                   (emit (ELog INFO "ニックネームを入力") s2)) in
  let s4 := snd (press (R:=bool) 0%nat "Enter" s3) in
  let s5 := snd (wait_for_load_state (R:=bool) "networkidle" s4) in
  search_user_by_nickname (R:=unit) "taro" s =
    (Normal true, emit (ELog INFO "ユーザー検索を実行しました") s5) /\
  trace (emit (ELog INFO "ユーザー検索を実行しました") s5) =
    trace s2 ++ [ELog INFO "ニックネームを入力"] ++
    probes 2000 search_button_selectors ++
    [EWaitLoad "networkidle"; ELog INFO "ユーザー検索を実行しました"].
Proof.
  intros s s1 s2 s3 s4 s5.
  apply (search_without_button_presses_enter (R:=unit) "taro" 0%nat
           s s1 s2 s3 s4 s5);
    vm_compute; reflexivity.
Defined.

End RunsMore.

(** ** Runs of the environment overrides *)

Section RunsSettings.
Import SettingsFile Configs.

(** [BROWSER_HEADLESS=1] switches headless mode off. *)
Lemma override_sets_every_given_variable_run :
  get_path (snd (_override_with_env_vars sample_environ sample_config))
    ["scraping"; "browser"; "headless"] = Some (PBool false).
Proof.
  apply (override_sets_every_given_variable sample_environ sample_config
           (snd (_override_with_env_vars sample_environ sample_config))
           "BROWSER_HEADLESS" ["scraping"; "browser"; "headless"] "1").
  - vm_compute. reflexivity.
  - simpl. repeat (first [left; reflexivity | right]).
  - vm_compute. reflexivity.
Defined.

(** An empty [auth:] section and a user name in the environment. *)
Example override_on_empty_section :
  _override_with_env_vars {[ "SCRAPING_USERNAME" := "taro" ]} empty_section =
    (inl TypeError, empty_section) /\
  _override_with_env_vars ∅ empty_section = (inr tt, empty_section).
Proof. split; vm_compute; reflexivity. Qed.

End RunsSettings.

(** ** Runs of the overrides on aliased sections *)

Section RunsObjects.
Import SettingsFile SettingsObjects Configs.

(** The session timeout of the file survives, under both names of the
    section it is in. *)
Lemma override_leaves_other_settings_run :
  let h' := snd (_override_with_env_vars username_only aliased_heap
                   aliased_config) in
  lookup_path h' aliased_config ["defaults"; "session_timeout"] =
    Some (CInt 60) /\
  lookup_path h' aliased_config ["auth"; "session_timeout"] = Some (CInt 60).
Proof.
  intros h'.
  assert (_override_with_env_vars username_only aliased_heap aliased_config =
            (inr tt, h')) as Hrun by (vm_compute; reflexivity).
  split;
    apply (proj2 (override_leaves_other_settings username_only aliased_heap
                    aliased_config (inr tt) h' Hrun));
    vm_compute; reflexivity.
Defined.

(** The user name of the environment is under both names of the section:
    the alias shares the object. *)
Example aliased_sections_change_together :
  let h' := snd (_override_with_env_vars username_only aliased_heap
                   aliased_config) in
  lookup_path h' aliased_config ["auth"; "username"] = Some (CStr "taro") /\
  lookup_path h' aliased_config ["defaults"; "username"] = Some (CStr "taro").
Proof. split; vm_compute; reflexivity. Qed.

End RunsObjects.
